(** * Chat-history storage adapters and reliability helpers

    A shallow embedding of
    - [src/lib/storage/interface.ts]   (entities and the storage contract),
    - [src/lib/storage/localStorage.ts] ([LocalStorageChatAdapter]),
    - [src/lib/storage/supabase.ts]    ([SupabaseChatAdapter]),
    - [src/lib/utils/retry.ts]         ([withRetry], [CircuitBreaker]),
    followed by the properties of the specification that concern them.

    Conventions of the embedding:
    - a [Date] is its [getTime()] value, a [Z] number of milliseconds; the
      ISO-8601 text written by [toISOString] and read back by [new Date]
      denotes the same number;
    - token counts, delays and counters are integers, so the arithmetic of
      JavaScript numbers is the arithmetic of [Z];
    - an optional property is an [option]; [None] is the absent property;
    - every call of [new Date()], [Date.now()] and [uuidv4()] is an explicit
      argument of the operation that makes it, in the order of the calls;
    - an [async] function that throws is a function that returns [Throw]. *)

From Stdlib Require Import ZArith List String Ascii Bool Lia.
From Stdlib Require Import Sorted Permutation DecimalString.
Import ListNotations.

Open Scope string_scope.
Open Scope Z_scope.

(** ** JavaScript helpers *)

(** [o ?? d] and, on values that are never falsy when present, [o || d]. *)
Definition orElse {A : Type} (o : option A) (d : A) : A :=
  match o with
  | Some a => a
  | None => d
  end.

(** [n || 0] on an optional number: [undefined] and [0] both give [0]. *)
Definition orZero (o : option Z) : Z := orElse o 0.

(** [`${n}`] for an integer [n]. *)
Definition numberToString (n : Z) : string :=
  NilZero.string_of_int (Z.to_int n).

(** [array.findIndex(p)]; [None] stands for [-1]. *)
Fixpoint findIndex {A : Type} (p : A -> bool) (l : list A) : option nat :=
  match l with
  | [] => None
  | x :: rest =>
      if p x then Some O
      else match findIndex p rest with
           | Some i => Some (S i)
           | None => None
           end
  end.

(** [array.splice(index, 1)], the array that is left. *)
Definition splice1 {A : Type} (index : nat) (l : list A) : list A :=
  (firstn index l ++ skipn (S index) l)%list.

(** [array.sort(compare)]: the sort is stable, so [x], which comes before
    [y] in the array, stays before it unless [compare(x, y) > 0].  The
    elements are inserted from the last one to the first one. *)
Fixpoint insertSorted {A : Type} (compare : A -> A -> Z) (x : A)
    (sorted : list A) : list A :=
  match sorted with
  | [] => [x]
  | y :: rest =>
      if compare x y <=? 0 then x :: y :: rest
      else y :: insertSorted compare x rest
  end.

Definition sort {A : Type} (compare : A -> A -> Z) (l : list A) : list A :=
  fold_right (insertSorted compare) [] l.

(** The members every object inherits from [Object.prototype].  [o[k]]
    finds them when [o] has no own property [k]. *)
Definition objectPrototypeMembers : list string :=
  [ "constructor"; "toString"; "toLocaleString"; "valueOf";
    "hasOwnProperty"; "isPrototypeOf"; "propertyIsEnumerable";
    "__proto__"; "__defineGetter__"; "__defineSetter__";
    "__lookupGetter__"; "__lookupSetter__" ].

Definition inheritedMember (k : string) : bool :=
  existsb (String.eqb k) objectPrototypeMembers.

Arguments inheritedMember : simpl never.

(** A JavaScript object used as a dictionary with string keys: the own
    properties in insertion order (the keys stored here are uuids, never
    array indices, so [Object.values] enumerates in that order).  The
    object is created by an object literal or by [JSON.parse], so its
    prototype is [Object.prototype]: a read [o[k]] of a key that is no
    own property falls through to [objectPrototypeMembers]. *)
Section Dictionary.
Context {V : Type}.

Definition Dict := list (string * V).

(** The own property [k] of [o]: what [o[k]] evaluates to when there is
    one, and what [Object.values] and [JSON.stringify] see. *)
Fixpoint get (k : string) (o : Dict) : option V :=
  match o with
  | [] => None
  | (k', v) :: rest => if String.eqb k k' then Some v else get k rest
  end.

(** [o[k] = v]: an existing property keeps its position. *)
Fixpoint set (k : string) (v : V) (o : Dict) : Dict :=
  match o with
  | [] => [(k, v)]
  | (k', v') :: rest =>
      if String.eqb k k' then (k', v) :: rest
      else (k', v') :: set k v rest
  end.

(** [delete o[k]] *)
Fixpoint remove (k : string) (o : Dict) : Dict :=
  match o with
  | [] => []
  | (k', v') :: rest =>
      if String.eqb k k' then rest
      else (k', v') :: remove k rest
  end.

(** [Object.values(o)] *)
Definition values (o : Dict) : list V := map snd o.

End Dictionary.

Arguments Dict V : clear implicits.

(** ** Entities ([interface.ts]) *)

Inductive Role := user | assistant | system.

Record ToolCall := {
  tool : string;
  input : string;
  output : string
}.

Module Message.

Record Metadata := {
  tokens : option Z;
  model : option string;
  toolCalls : option (list ToolCall);
  error : option string
}.

Record t := {
  id : string;
  role : Role;
  content : string;
  timestamp : Z;
  metadata : option Metadata
}.

End Message.

(** [Partial<Message>]: the properties the caller supplied, each with a
    defined value; [None] is a property left out.  (An update holding a
    property set to [undefined] is not among the updates described.) *)
Module PartialMessage.

Record t := {
  id : option string;
  role : option Role;
  content : option string;
  timestamp : option Z;
  metadata : option Message.Metadata
}.

End PartialMessage.

Module Conversation.

Record Metadata := {
  totalTokens : option Z;
  messageCount : option Z;
  userId : option string
}.

Record t := {
  id : string;
  title : option string;
  messages : list Message.t;
  createdAt : Z;
  updatedAt : Z;
  metadata : option Metadata
}.

End Conversation.

(** [Partial<Conversation>], with the same reading of [None]. *)
Module PartialConversation.

Record t := {
  id : option string;
  title : option string;
  messages : option (list Message.t);
  createdAt : option Z;
  updatedAt : option Z;
  metadata : option Conversation.Metadata
}.

End PartialConversation.

(** [Object.assign(message, updates)] *)
Definition assignMessage (message : Message.t) (updates : PartialMessage.t)
    : Message.t :=
  {| Message.id := orElse (PartialMessage.id updates) (Message.id message);
     Message.role := orElse (PartialMessage.role updates) (Message.role message);
     Message.content :=
       orElse (PartialMessage.content updates) (Message.content message);
     Message.timestamp :=
       orElse (PartialMessage.timestamp updates) (Message.timestamp message);
     Message.metadata :=
       match PartialMessage.metadata updates with
       | Some supplied => Some supplied
       | None => Message.metadata message
       end |}.

(** [Object.assign(conversation, updates)] *)
Definition assignConversation (conv : Conversation.t)
    (updates : PartialConversation.t) : Conversation.t :=
  {| Conversation.id :=
       orElse (PartialConversation.id updates) (Conversation.id conv);
     Conversation.title :=
       match PartialConversation.title updates with
       | Some supplied => Some supplied
       | None => Conversation.title conv
       end;
     Conversation.messages :=
       orElse (PartialConversation.messages updates)
              (Conversation.messages conv);
     Conversation.createdAt :=
       orElse (PartialConversation.createdAt updates)
              (Conversation.createdAt conv);
     Conversation.updatedAt :=
       orElse (PartialConversation.updatedAt updates)
              (Conversation.updatedAt conv);
     Conversation.metadata :=
       match PartialConversation.metadata updates with
       | Some supplied => Some supplied
       | None => Conversation.metadata conv
       end |}.

(** [title || 'New Conversation']: the empty string is falsy. *)
Definition titleOrDefault (title : option string) : string :=
  match title with
  | Some "" => "New Conversation"
  | Some s => s
  | None => "New Conversation"
  end.

(** ** Errors raised by the adapters

    Every adapter error is a plain [Error]; one constructor per [throw]
    site, [errorMessage] gives its text. *)
Inductive StorageError :=
| ConversationNotFound (conversationId : string)
| MessageNotFound (messageId : string)
| SaveFailed
| MissingUserId
| BackendFailed (operation : string) (detail : string)
| TypeError (detail : string).

Definition errorMessage (e : StorageError) : string :=
  match e with
  | ConversationNotFound i => "Conversation " ++ i ++ " not found"
  | MessageNotFound i => "Message " ++ i ++ " not found"
  | SaveFailed => "Failed to save to localStorage"
  | MissingUserId => "Cannot clear all without userId"
  | BackendFailed operation detail => "Failed to " ++ operation ++ ": " ++ detail
  | TypeError detail => detail
  end.

(** The classes of the specification's taxonomy. *)
Definition isNotFound (e : StorageError) : bool :=
  match e with
  | ConversationNotFound _ | MessageNotFound _ => true
  | _ => false
  end.


Inductive Result (A : Type) :=
| Ok (a : A)
| Throw (e : StorageError).

Arguments Ok {A} a.
Arguments Throw {A} e.

(** ** The local adapter ([localStorage.ts]) *)

Module LocalStorageChatAdapter.

(** [interface StorageData] *)
Record StorageData := {
  conversations : Dict Conversation.t
}.

Definition emptyData : StorageData := {| conversations := [] |}.

(** What [localStorage.getItem(storageKey)] holds.  The text written by
    [JSON.stringify] is represented by the document it parses to, after
    the dates have been revived; [Unreadable] is a text on which
    [JSON.parse] or the revival throws. *)
Inductive Item :=
| NoItem
| Unreadable
| Document (data : StorageData).

(** The execution context: whether [window] is defined, the item under
    the storage key, and whether [localStorage.setItem] throws (quota).
    The built-in objects are as the runtime provides them: none carries
    a member of a conversation.  (An [updateConversation] at the name of
    a member of [Object.prototype] writes such members onto a built-in
    object; what the adapter does after such a call is not described
    here.) *)
Record Context := {
  hasWindow : bool;
  item : Item;
  setItemThrows : bool
}.

Definition withItem (ctx : Context) (i : Item) : Context :=
  {| hasWindow := hasWindow ctx;
     item := i;
     setItemThrows := setItemThrows ctx |}.

Definition getAll (ctx : Context) : StorageData :=
  if negb (hasWindow ctx) then emptyData
  else match item ctx with
       | NoItem => emptyData
       | Unreadable => emptyData
       | Document data => data
       end.

Definition saveAll (data : StorageData) (ctx : Context)
    : Result unit * Context :=
  if negb (hasWindow ctx) then (Ok tt, ctx)
  else if setItemThrows ctx then (Throw SaveFailed, ctx)
  else (Ok tt, withItem ctx (Document data)).

(** The three assignments of [saveMessage] on the conversation found. *)
Definition pushMessage (conv : Conversation.t) (message : Message.t)
    (now : Z) : Conversation.t :=
  let messages' := (Conversation.messages conv ++ [message])%list in
  let old := Conversation.metadata conv in
  {| Conversation.id := Conversation.id conv;
     Conversation.title := Conversation.title conv;
     Conversation.messages := messages';
     Conversation.createdAt := Conversation.createdAt conv;
     Conversation.updatedAt := now;
     Conversation.metadata :=
       Some {| Conversation.totalTokens :=
                 Some (orZero (match old with
                               | Some md => Conversation.totalTokens md
                               | None => None
                               end)
                       + orZero (match Message.metadata message with
                                 | Some md => Message.tokens md
                                 | None => None
                                 end));
               Conversation.messageCount :=
                 Some (Z.of_nat (List.length messages'));
               Conversation.userId :=
                 match old with
                 | Some md => Conversation.userId md
                 | None => None
                 end |} |}.

(** [data.conversations[conversationId]] is read through the prototype
    chain.  At the name of a built-in member that is no own property the
    guard [!data.conversations[conversationId]] is false, and
    [.messages.push] then reads [push] of [undefined]: the built-in
    objects carry no [messages]. *)
Definition saveMessage (conversationId : string) (message : Message.t)
    (now : Z) (ctx : Context) : Result unit * Context :=
  let data := getAll ctx in
  match get conversationId (conversations data) with
  | None =>
      if inheritedMember conversationId
      then (Throw (TypeError
                     "Cannot read properties of undefined (reading 'push')"),
            ctx)
      else (Throw (ConversationNotFound conversationId), ctx)
  | Some conv =>
      saveAll {| conversations :=
                   set conversationId (pushMessage conv message now)
                       (conversations data) |} ctx
  end.

(** [data.conversations[conversationId]?.messages || []]: a built-in
    member has no [messages], so the result is [[]] there as well. *)
Definition getMessages (conversationId : string) (ctx : Context)
    : list Message.t :=
  match get conversationId (conversations (getAll ctx)) with
  | Some conv => Conversation.messages conv
  | None => []
  end.

Definition hasId (messageId : string) (m : Message.t) : bool :=
  String.eqb (Message.id m) messageId.

Definition withMessages (conv : Conversation.t) (messages' : list Message.t)
    (now : Z) : Conversation.t :=
  {| Conversation.id := Conversation.id conv;
     Conversation.title := Conversation.title conv;
     Conversation.messages := messages';
     Conversation.createdAt := Conversation.createdAt conv;
     Conversation.updatedAt := now;
     Conversation.metadata := Conversation.metadata conv |}.

(** The loop of [deleteMessage] over [Object.values(data.conversations)]:
    the document after the first conversation holding the message has
    been spliced, [None] when the loop falls through. *)
Fixpoint deleteFirst (messageId : string) (now : Z)
    (convs : Dict Conversation.t) : option (Dict Conversation.t) :=
  match convs with
  | [] => None
  | (k, conv) :: rest =>
      match findIndex (hasId messageId) (Conversation.messages conv) with
      | Some index =>
          Some ((k, withMessages conv
                      (splice1 index (Conversation.messages conv)) now)
                :: rest)
      | None =>
          match deleteFirst messageId now rest with
          | Some rest' => Some ((k, conv) :: rest')
          | None => None
          end
      end
  end.

Definition deleteMessage (messageId : string) (now : Z) (ctx : Context)
    : Result unit * Context :=
  let data := getAll ctx in
  match deleteFirst messageId now (conversations data) with
  | Some convs' => saveAll {| conversations := convs' |} ctx
  | None => (Throw (MessageNotFound messageId), ctx)
  end.

(** [Object.assign] on the message returned by [messages.find]. *)
Fixpoint assignFirst (messageId : string) (updates : PartialMessage.t)
    (messages : list Message.t) : option (list Message.t) :=
  match messages with
  | [] => None
  | m :: rest =>
      if hasId messageId m then Some (assignMessage m updates :: rest)
      else match assignFirst messageId updates rest with
           | Some rest' => Some (m :: rest')
           | None => None
           end
  end.

(** The loop of [updateMessage] over [Object.values(data.conversations)]. *)
Fixpoint updateFirst (messageId : string) (updates : PartialMessage.t)
    (now : Z) (convs : Dict Conversation.t) : option (Dict Conversation.t) :=
  match convs with
  | [] => None
  | (k, conv) :: rest =>
      match assignFirst messageId updates (Conversation.messages conv) with
      | Some messages' => Some ((k, withMessages conv messages' now) :: rest)
      | None =>
          match updateFirst messageId updates now rest with
          | Some rest' => Some ((k, conv) :: rest')
          | None => None
          end
      end
  end.

Definition updateMessage (messageId : string) (updates : PartialMessage.t)
    (now : Z) (ctx : Context) : Result unit * Context :=
  let data := getAll ctx in
  match updateFirst messageId updates now (conversations data) with
  | Some convs' => saveAll {| conversations := convs' |} ctx
  | None => (Throw (MessageNotFound messageId), ctx)
  end.

(** [(a, b) => b.updatedAt.getTime() - a.updatedAt.getTime()] *)
Definition byUpdatedAtDescending (a b : Conversation.t) : Z :=
  Conversation.updatedAt b - Conversation.updatedAt a.

Definition listConversations (ctx : Context) : list Conversation.t :=
  sort byUpdatedAtDescending (values (conversations (getAll ctx))).

(** What [getConversation] resolves to: a stored conversation, [null],
    or, the declared type notwithstanding, the member of
    [Object.prototype] of that name, which is truthy. *)
Inductive Found :=
| Stored (conversation : Conversation.t)
| Builtin (member : string)
| Null.

(** [data.conversations[conversationId] || null] *)
Definition getConversation (conversationId : string) (ctx : Context)
    : Found :=
  match get conversationId (conversations (getAll ctx)) with
  | Some conv => Stored conv
  | None =>
      if inheritedMember conversationId then Builtin conversationId
      else Null
  end.

(** [uuid] is the value of [uuidv4()]; [now1] and [now2] are the two
    [new Date()] of the object literal, [createdAt] first. *)
Definition createConversation (title : option string) (uuid : string)
    (now1 now2 : Z) (ctx : Context) : Result Conversation.t * Context :=
  let data := getAll ctx in
  let conversation :=
    {| Conversation.id := uuid;
       Conversation.title := Some (titleOrDefault title);
       Conversation.messages := [];
       Conversation.createdAt := now1;
       Conversation.updatedAt := now2;
       Conversation.metadata :=
         Some {| Conversation.totalTokens := Some 0;
                 Conversation.messageCount := Some 0;
                 Conversation.userId := None |} |} in
  match saveAll {| conversations :=
                     set (Conversation.id conversation) conversation
                         (conversations data) |} ctx with
  | (Ok _, ctx') => (Ok conversation, ctx')
  | (Throw e, ctx') => (Throw e, ctx')
  end.

Definition touch (conv : Conversation.t) (now : Z) : Conversation.t :=
  withMessages conv (Conversation.messages conv) now.

(** At the name of a built-in member that is no own property the guard
    lets the call through: [Object.assign] and the [updatedAt] stamp land
    on the built-in object, which [JSON.stringify] does not reach, and
    [saveAll] writes the document as it was read. *)
Definition updateConversation (conversationId : string)
    (updates : PartialConversation.t) (now : Z) (ctx : Context)
    : Result unit * Context :=
  let data := getAll ctx in
  match get conversationId (conversations data) with
  | None =>
      if inheritedMember conversationId then saveAll data ctx
      else (Throw (ConversationNotFound conversationId), ctx)
  | Some conv =>
      saveAll {| conversations :=
                   set conversationId
                       (touch (assignConversation conv updates) now)
                       (conversations data) |} ctx
  end.

(** At the name of a built-in member that is no own property the guard
    lets the call through, [delete] finds no own property to remove, and
    [saveAll] writes the document as it was read. *)
Definition deleteConversation (conversationId : string) (ctx : Context)
    : Result unit * Context :=
  let data := getAll ctx in
  match get conversationId (conversations data) with
  | None =>
      if inheritedMember conversationId then saveAll data ctx
      else (Throw (ConversationNotFound conversationId), ctx)
  | Some _ =>
      saveAll {| conversations := remove conversationId (conversations data) |}
              ctx
  end.

(** [localStorage.removeItem(storageKey)] when there is a [window]. *)
Definition clearAll (ctx : Context) : Result unit * Context :=
  if hasWindow ctx then (Ok tt, withItem ctx NoItem)
  else (Ok tt, ctx).

End LocalStorageChatAdapter.

(** ** The remote adapter ([supabase.ts]) *)

Module ConversationRow.

Record t := {
  id : string;
  title : option string;
  user_id : option string;
  created_at : Z;
  updated_at : Z;
  metadata : option Conversation.Metadata
}.

End ConversationRow.

Module MessageRow.

Record t := {
  id : string;
  conversation_id : string;
  role : Role;
  content : string;
  created_at : Z;
  metadata : option Message.Metadata
}.

End MessageRow.

(** Modelled from the spec: the relational store that the Supabase client
    talks to, with the requests the adapter sends to it; neither the
    client nor the store is part of the repository.  The schema is the
    one of the specification and of the migration in the documentation. *)
Module Backend.

(** Modelled from the spec: two tables, [conversations] and [messages],
    related by the foreign key [messages.conversation_id] with cascading
    deletion; [id] is the primary key of both.  A request either fails as
    a whole and changes nothing ([fault], chosen by the environment:
    network, permissions, server) or is carried out on the tables. *)
Record Database := {
  conversations : list ConversationRow.t;
  messages : list MessageRow.t
}.

(** The [error] member of a response. *)
Record Failure := {
  code : string;
  message : string
}.

(** The [{ data, error }] pair of a response. *)
Inductive Response (A : Type) :=
| Data (data : A)
| Error (error : Failure).

Arguments Data {A} data.
Arguments Error {A} error.

Definition Request (A : Type) : Type :=
  option Failure -> Database -> Response A * Database.

Definition conversationHasId (i : string) (row : ConversationRow.t) : bool :=
  String.eqb (ConversationRow.id row) i.

Definition messageHasId (i : string) (row : MessageRow.t) : bool :=
  String.eqb (MessageRow.id row) i.

Definition inConversation (i : string) (row : MessageRow.t) : bool :=
  String.eqb (MessageRow.conversation_id row) i.

Definition ownedBy (u : string) (row : ConversationRow.t) : bool :=
  match ConversationRow.user_id row with
  | Some owner => String.eqb owner u
  | None => false
  end.

(** The foreign key: every message row refers to a conversation row. *)
Definition referentialIntegrity (db : Database) : bool :=
  forallb (fun m =>
             existsb (conversationHasId (MessageRow.conversation_id m))
                     (conversations db))
          (messages db).

Definition duplicateKey : Failure :=
  {| code := "23505";
     message := "duplicate key value violates unique constraint" |}.

Definition foreignKeyViolation : Failure :=
  {| code := "23503";
     message := "insert or update on table violates foreign key constraint" |}.

(** The failure of [.single()] when the result is not exactly one row. *)
Definition notSingle : Failure :=
  {| code := "PGRST116";
     message := "JSON object requested, multiple (or no) rows returned" |}.

(** [from('messages').insert(row)] *)
Definition insertMessage (row : MessageRow.t) : Request unit :=
  fun fault db =>
    match fault with
    | Some e => (Error e, db)
    | None =>
        if existsb (messageHasId (MessageRow.id row)) (messages db)
        then (Error duplicateKey, db)
        else if existsb (conversationHasId (MessageRow.conversation_id row))
                        (conversations db)
        then (Data tt,
              {| conversations := conversations db;
                 messages := (messages db ++ [row])%list |})
        else (Error foreignKeyViolation, db)
    end.

(** [from('conversations').update(change).eq('id', i)] *)
Definition updateConversations
    (change : ConversationRow.t -> ConversationRow.t) (i : string)
    : Request unit :=
  fun fault db =>
    match fault with
    | Some e => (Error e, db)
    | None =>
        (Data tt,
         {| conversations :=
              map (fun row => if conversationHasId i row then change row
                              else row)
                  (conversations db);
            messages := messages db |})
    end.

(** [from('messages').update(change).eq('id', i)] *)
Definition updateMessages (change : MessageRow.t -> MessageRow.t)
    (i : string) : Request unit :=
  fun fault db =>
    match fault with
    | Some e => (Error e, db)
    | None =>
        (Data tt,
         {| conversations := conversations db;
            messages :=
              map (fun row => if messageHasId i row then change row else row)
                  (messages db) |})
    end.

(** [from('messages').delete().eq('id', i)] *)
Definition deleteMessages (i : string) : Request unit :=
  fun fault db =>
    match fault with
    | Some e => (Error e, db)
    | None =>
        (Data tt,
         {| conversations := conversations db;
            messages :=
              filter (fun row => negb (messageHasId i row)) (messages db) |})
    end.

(** [from('conversations').delete().eq(...)]: the rows selected by [doomed]
    go, and with them, by cascade, their messages. *)
Definition deleteConversations (doomed : ConversationRow.t -> bool)
    : Request unit :=
  fun fault db =>
    match fault with
    | Some e => (Error e, db)
    | None =>
        (Data tt,
         {| conversations :=
              filter (fun row => negb (doomed row)) (conversations db);
            messages :=
              filter
                (fun m =>
                   negb (existsb
                           (fun row =>
                              doomed row &&
                              conversationHasId (MessageRow.conversation_id m)
                                                row)
                           (conversations db)))
                (messages db) |})
    end.

(** [from('messages').select(all).eq('conversation_id', i)
      .order('created_at', { ascending: true })]; rows with equal keys are
    returned in table order. *)
Definition selectMessages (i : string) : Request (list MessageRow.t) :=
  fun fault db =>
    match fault with
    | Some e => (Error e, db)
    | None =>
        (Data (sort (fun a b =>
                       MessageRow.created_at a - MessageRow.created_at b)
                    (filter (inConversation i) (messages db))),
         db)
    end.

(** A row of the select that embeds [messages]: the conversation and the
    rows of its messages. *)
Definition Joined : Type := ConversationRow.t * list MessageRow.t.

Definition join (db : Database) (row : ConversationRow.t) : Joined :=
  (row, filter (inConversation (ConversationRow.id row)) (messages db)).

(** [from('conversations').select(...).order('updated_at',
      { ascending: false })] with the messages embedded, and with
    [.eq('user_id', u)] when [scope] is [Some u]. *)
Definition selectConversations (scope : option string)
    : Request (list Joined) :=
  fun fault db =>
    match fault with
    | Some e => (Error e, db)
    | None =>
        let visible :=
          match scope with
          | Some u => filter (ownedBy u) (conversations db)
          | None => conversations db
          end in
        (Data (map (join db)
                   (sort (fun a b =>
                            ConversationRow.updated_at b
                            - ConversationRow.updated_at a)
                         visible)),
         db)
    end.

(** [from('conversations').select(...).eq('id', i).single()] with the
    messages embedded. *)
Definition selectConversation (i : string) : Request Joined :=
  fun fault db =>
    match fault with
    | Some e => (Error e, db)
    | None =>
        match filter (conversationHasId i) (conversations db) with
        | [row] => (Data (join db row), db)
        | _ => (Error notSingle, db)
        end
    end.

(** [from('conversations').insert(row).select().single()] *)
Definition insertConversation (row : ConversationRow.t)
    : Request ConversationRow.t :=
  fun fault db =>
    match fault with
    | Some e => (Error e, db)
    | None =>
        if existsb (conversationHasId (ConversationRow.id row))
                   (conversations db)
        then (Error duplicateKey, db)
        else (Data row,
              {| conversations := (conversations db ++ [row])%list;
                 messages := messages db |})
    end.

End Backend.

Module SupabaseChatAdapter.

Import Backend.

(** The adapter object: the constructor's [userId] (the client is the
    database threaded through the operations). *)
Record Adapter := {
  userId : option string
}.

(** [this.userId] where it is tested for truthiness: the identity, if one
    is bound; the empty string counts as none. *)
Definition boundUser (this : Adapter) : option string :=
  match userId this with
  | Some "" => None
  | Some u => Some u
  | None => None
  end.

Definition failed {A : Type} (operation : string) (e : Failure) : Result A :=
  Throw (BackendFailed operation (message e)).

(** The object literal that [saveMessage] inserts; [message.metadata || {}]
    stores the empty bag for a message without metadata. *)
Definition messageRow (conversationId : string) (msg : Message.t)
    : MessageRow.t :=
  {| MessageRow.id := Message.id msg;
     MessageRow.conversation_id := conversationId;
     MessageRow.role := Message.role msg;
     MessageRow.content := Message.content msg;
     MessageRow.created_at := Message.timestamp msg;
     MessageRow.metadata :=
       Some (orElse (Message.metadata msg)
                    {| Message.tokens := None;
                       Message.model := None;
                       Message.toolCalls := None;
                       Message.error := None |}) |}.

Definition saveMessage (this : Adapter) (conversationId : string)
    (msg : Message.t) (now : Z) (fault1 fault2 : option Failure)
    (db : Database) : Result unit * Database :=
  let row := messageRow conversationId msg in
  match insertMessage row fault1 db with
  | (Error e, db1) => (failed "save message" e, db1)
  | (Data _, db1) =>
      (* the response of the second request is not inspected *)
      let bump row :=
        {| ConversationRow.id := ConversationRow.id row;
           ConversationRow.title := ConversationRow.title row;
           ConversationRow.user_id := ConversationRow.user_id row;
           ConversationRow.created_at := ConversationRow.created_at row;
           ConversationRow.updated_at := now;
           ConversationRow.metadata := ConversationRow.metadata row |} in
      (Ok tt, snd (updateConversations bump conversationId fault2 db1))
  end.

(** [mapToMessage]; it does not read [this]. *)
Definition mapToMessage (row : MessageRow.t) : Message.t :=
  {| Message.id := MessageRow.id row;
     Message.role := MessageRow.role row;
     Message.content := MessageRow.content row;
     Message.timestamp := MessageRow.created_at row;
     Message.metadata := MessageRow.metadata row |}.

Definition getMessages (this : Adapter) (conversationId : string)
    (fault : option Failure) (db : Database)
    : Result (list Message.t) * Database :=
  match selectMessages conversationId fault db with
  | (Error e, db1) => (failed "get messages" e, db1)
  | (Data rows, db1) => (Ok (map mapToMessage rows), db1)
  end.

Definition deleteMessage (this : Adapter) (messageId : string)
    (fault : option Failure) (db : Database) : Result unit * Database :=
  match deleteMessages messageId fault db with
  | (Error e, db1) => (failed "delete message" e, db1)
  | (Data _, db1) => (Ok tt, db1)
  end.

(** [updateData] of [updateMessage], applied to a row. *)
Definition messageUpdateData (updates : PartialMessage.t)
    (row : MessageRow.t) : MessageRow.t :=
  {| MessageRow.id := MessageRow.id row;
     MessageRow.conversation_id := MessageRow.conversation_id row;
     MessageRow.role := MessageRow.role row;
     MessageRow.content :=
       orElse (PartialMessage.content updates) (MessageRow.content row);
     MessageRow.created_at := MessageRow.created_at row;
     MessageRow.metadata :=
       match PartialMessage.metadata updates with
       | Some supplied => Some supplied
       | None => MessageRow.metadata row
       end |}.

Definition updateMessage (this : Adapter) (messageId : string)
    (updates : PartialMessage.t) (fault : option Failure) (db : Database)
    : Result unit * Database :=
  match updateMessages (messageUpdateData updates) messageId fault db with
  | (Error e, db1) => (failed "update message" e, db1)
  | (Data _, db1) => (Ok tt, db1)
  end.

(** [mapToConversation] reads [this.mapToMessage] before anything else:
    [this] is the receiver of the call, [None] when the method is called
    without one (class code is strict, so [this] is then [undefined] and
    the property access throws). *)
Definition mapToConversation (this : option Adapter) (row : Joined)
    : Result Conversation.t :=
  match this with
  | None =>
      Throw (TypeError
               "Cannot read properties of undefined (reading 'mapToMessage')")
  | Some _ =>
      Ok {| Conversation.id := ConversationRow.id (fst row);
            Conversation.title := ConversationRow.title (fst row);
            Conversation.messages :=
              sort (fun a b => Message.timestamp a - Message.timestamp b)
                   (map mapToMessage (snd row));
            Conversation.createdAt := ConversationRow.created_at (fst row);
            Conversation.updatedAt := ConversationRow.updated_at (fst row);
            Conversation.metadata := ConversationRow.metadata (fst row) |}
  end.

(** [rows.map(callback)]: the first callback that throws ends the map. *)
Fixpoint mapRows {A B : Type} (callback : A -> Result B) (rows : list A)
    : Result (list B) :=
  match rows with
  | [] => Ok []
  | row :: rest =>
      match callback row with
      | Throw e => Throw e
      | Ok b =>
          match mapRows callback rest with
          | Throw e => Throw e
          | Ok bs => Ok (b :: bs)
          end
      end
  end.

(** [(data || []).map(this.mapToConversation)] passes the method itself:
    [map] calls it without a receiver. *)
Definition listConversations (this : Adapter) (fault : option Failure)
    (db : Database) : Result (list Conversation.t) * Database :=
  match selectConversations (boundUser this) fault db with
  | (Error e, db1) => (failed "list conversations" e, db1)
  | (Data rows, db1) => (mapRows (mapToConversation None) rows, db1)
  end.

(** [this.mapToConversation(data)]: a method call, with its receiver. *)
Definition getConversation (this : Adapter) (conversationId : string)
    (fault : option Failure) (db : Database)
    : Result (option Conversation.t) * Database :=
  match selectConversation conversationId fault db with
  | (Error e, db1) =>
      if String.eqb (code e) "PGRST116" then (Ok None, db1)
      else (failed "get conversation" e, db1)
  | (Data row, db1) =>
      match mapToConversation (Some this) row with
      | Ok conv => (Ok (Some conv), db1)
      | Throw e => (Throw e, db1)
      end
  end.

(** [uuid] is the value of [uuidv4()], [now] the one [new Date()]. *)
Definition createConversation (this : Adapter) (title : option string)
    (uuid : string) (now : Z) (fault : option Failure) (db : Database)
    : Result Conversation.t * Database :=
  let row :=
    {| ConversationRow.id := uuid;
       ConversationRow.title :=
         Some (titleOrDefault title);
       ConversationRow.user_id := userId this;
       ConversationRow.created_at := now;
       ConversationRow.updated_at := now;
       ConversationRow.metadata :=
         Some {| Conversation.totalTokens := Some 0;
                 Conversation.messageCount := Some 0;
                 Conversation.userId := None |} |} in
  match insertConversation row fault db with
  | (Error e, db1) => (failed "create conversation" e, db1)
  | (Data data, db1) =>
      (Ok {| Conversation.id := ConversationRow.id data;
             Conversation.title := ConversationRow.title data;
             Conversation.messages := [];
             Conversation.createdAt := ConversationRow.created_at data;
             Conversation.updatedAt := ConversationRow.updated_at data;
             Conversation.metadata := ConversationRow.metadata data |},
       db1)
  end.

(** [updateData] of [updateConversation], applied to a row. *)
Definition conversationUpdateData (updates : PartialConversation.t)
    (now : Z) (row : ConversationRow.t) : ConversationRow.t :=
  {| ConversationRow.id := ConversationRow.id row;
     ConversationRow.title :=
       match PartialConversation.title updates with
       | Some supplied => Some supplied
       | None => ConversationRow.title row
       end;
     ConversationRow.user_id := ConversationRow.user_id row;
     ConversationRow.created_at := ConversationRow.created_at row;
     ConversationRow.updated_at := now;
     ConversationRow.metadata :=
       match PartialConversation.metadata updates with
       | Some supplied => Some supplied
       | None => ConversationRow.metadata row
       end |}.

Definition updateConversation (this : Adapter) (conversationId : string)
    (updates : PartialConversation.t) (now : Z) (fault : option Failure)
    (db : Database) : Result unit * Database :=
  match updateConversations (conversationUpdateData updates now)
                            conversationId fault db with
  | (Error e, db1) => (failed "update conversation" e, db1)
  | (Data _, db1) => (Ok tt, db1)
  end.

Definition deleteConversation (this : Adapter) (conversationId : string)
    (fault : option Failure) (db : Database) : Result unit * Database :=
  match deleteConversations (conversationHasId conversationId) fault db with
  | (Error e, db1) => (failed "delete conversation" e, db1)
  | (Data _, db1) => (Ok tt, db1)
  end.

Definition clearAll (this : Adapter) (fault : option Failure)
    (db : Database) : Result unit * Database :=
  match boundUser this with
  | None => (Throw MissingUserId, db)
  | Some u =>
      match deleteConversations (ownedBy u) fault db with
      | (Error e, db1) => (failed "clear all" e, db1)
      | (Data _, db1) => (Ok tt, db1)
      end
  end.

End SupabaseChatAdapter.

(** ** Reliability helpers ([retry.ts]) *)

(** An [Error] object: a plain [new Error(message)], or the
    [new LLMError(message, { originalError })] of the exhausted retry. *)
#[warnings="-register-all"]
Inductive JsError :=
| PlainError (message : string)
| LLMError (message : string) (originalError : option JsError).

Definition messageOf (e : JsError) : string :=
  match e with
  | PlainError m => m
  | LLMError m _ => m
  end.

(** What a [catch] clause receives: an [Error] object or any other value. *)
Inductive Thrown :=
| ErrorObject (e : JsError)
| OtherValue (v : string).

(** The settlement of an awaited promise. *)
Inductive Outcome (T : Type) :=
| Returned (value : T)
| Threw (error : Thrown).

Arguments Returned {T} value.
Arguments Threw {T} error.

(** What the helpers do to the wrapped operation and to the timer, in
    order: a call of [fn], a completed [sleep(delay)]. *)
Inductive Event :=
| Invoked
| Slept (delay : Z).

Definition invocations (log : list Event) : nat :=
  List.length (filter (fun ev => match ev with
                                 | Invoked => true
                                 | Slept _ => false
                                 end) log).

Definition waits (log : list Event) : list Z :=
  flat_map (fun ev => match ev with
                      | Invoked => []
                      | Slept d => [d]
                      end) log.

(** A text of ASCII characters only. *)
Definition isAscii (s : string) : bool :=
  forallb (fun c => Nat.ltb (nat_of_ascii c) 128) (list_ascii_of_string s).

(** [message.toLowerCase()] of a text of ASCII characters, where the
    letters A to Z are the only ones that have a lower case.  (Outside
    ASCII the method follows the Unicode case mapping, under which other
    characters, the Kelvin sign for one, become ASCII letters.) *)
Definition lowerAscii (c : ascii) : ascii :=
  let n := nat_of_ascii c in
  if (Nat.leb 65 n && Nat.leb n 90)%bool then ascii_of_nat (n + 32) else c.

Fixpoint toLowerCase (s : string) : string :=
  match s with
  | EmptyString => EmptyString
  | String c rest => String (lowerAscii c) (toLowerCase rest)
  end.

(** [text.includes(part)] *)
Definition includes (text part : string) : bool :=
  match String.index 0 part text with
  | Some _ => true
  | None => false
  end.

Definition isRetryableError (error : Thrown) : bool :=
  match error with
  | ErrorObject e =>
      let message := toLowerCase (messageOf e) in
      if (includes message "network" || includes message "fetch"
          || includes message "econnrefused" || includes message "enotfound")%bool
      then true
      else if (includes message "timeout" || includes message "timed out")%bool
      then true
      else if (includes message "rate limit" || includes message "429"
               || includes message "quota")%bool
      then true
      else if (includes message "500" || includes message "502"
               || includes message "503" || includes message "504")%bool
      then true
      else false
  | OtherValue _ => false
  end.

(** [interface RetryOptions]: the options the caller supplied, each with
    a defined value, the numbers being integers; [None] is an option left
    out. *)
Record RetryOptions := {
  maxRetries : option Z;
  baseDelay : option Z;
  maxDelay : option Z;
  backoffMultiplier : option Z;
  shouldRetry : option (Thrown -> bool)
}.

(** [Required<RetryOptions>] *)
Module Required.

Record RetryOptions := {
  maxRetries : Z;
  baseDelay : Z;
  maxDelay : Z;
  backoffMultiplier : Z;
  shouldRetry : Thrown -> bool
}.

End Required.

Definition defaultOptions : Required.RetryOptions :=
  {| Required.maxRetries := 3;
     Required.baseDelay := 1000;
     Required.maxDelay := 10000;
     Required.backoffMultiplier := 2;
     Required.shouldRetry := isRetryableError |}.

(** [{ ...defaultOptions, ...options }] *)
Definition mergeOptions (options : RetryOptions) : Required.RetryOptions :=
  {| Required.maxRetries :=
       orElse (maxRetries options) (Required.maxRetries defaultOptions);
     Required.baseDelay :=
       orElse (baseDelay options) (Required.baseDelay defaultOptions);
     Required.maxDelay :=
       orElse (maxDelay options) (Required.maxDelay defaultOptions);
     Required.backoffMultiplier :=
       orElse (backoffMultiplier options)
              (Required.backoffMultiplier defaultOptions);
     Required.shouldRetry :=
       orElse (shouldRetry options) (Required.shouldRetry defaultOptions) |}.

(** [Math.min(opts.baseDelay * Math.pow(opts.backoffMultiplier, attempt),
             opts.maxDelay)], in integer arithmetic: the value that the
    source computes in double precision wherever the power and the
    product are integers that a double holds exactly. *)
Definition backoffDelay (opts : Required.RetryOptions) (attempt : Z) : Z :=
  Z.min (Required.baseDelay opts * Required.backoffMultiplier opts ^ attempt)
        (Required.maxDelay opts).

(** [error instanceof Error ? error : new Error('Unknown error')] *)
Definition asError (error : Thrown) : JsError :=
  match error with
  | ErrorObject e => e
  | OtherValue _ => PlainError "Unknown error"
  end.

Section Reliability.

(** [W] is the state of everything the wrapped operation and the timer can
    touch; [T] the type of the operation's result. *)
Context {W T : Type}.

(** [fn: () => Promise<T>] *)
Definition Operation : Type := W -> Outcome T * W.

(** [await sleep(ms)] *)
Variable sleep : Z -> W -> W.

(** The [for] loop of [withRetry] from the iteration [attempt] on, with
    [remaining] iterations to go before [attempt < opts.maxRetries]
    fails; the statement after the loop is the case of no iteration left. *)
Fixpoint retryLoop (fn : Operation) (opts : Required.RetryOptions)
    (remaining : nat) (attempt : Z) (lastError : option JsError) (w : W)
    : Outcome T * W * list Event :=
  match remaining with
  | O =>
      (Threw (ErrorObject
                (LLMError ("Failed after "
                           ++ numberToString (Required.maxRetries opts)
                           ++ " retries")
                          lastError)),
       w, [])
  | S remaining' =>
      match fn w with
      | (Returned value, w1) => (Returned value, w1, [Invoked])
      | (Threw error, w1) =>
          if negb (Required.shouldRetry opts error)
          then (Threw error, w1, [Invoked])
          else
            let '(w2, slept) :=
              if attempt <? Required.maxRetries opts - 1
              then (sleep (backoffDelay opts attempt) w1,
                    [Slept (backoffDelay opts attempt)])
              else (w1, []) in
            let '(outcome, w3, log) :=
              retryLoop fn opts remaining' (attempt + 1)
                        (Some (asError error)) w2 in
            (outcome, w3, (Invoked :: slept ++ log)%list)
      end
  end.

Definition withRetry (fn : Operation) (options : RetryOptions) (w : W)
    : Outcome T * W * list Event :=
  let opts := mergeOptions options in
  retryLoop fn opts (Z.to_nat (Required.maxRetries opts)) 0 None w.

End Reliability.

Module CircuitBreaker.

Inductive State := closed | open | half_open.

(** The fields of a breaker; [threshold] and [timeout] are set by the
    constructor and never assigned again. *)
Record t := {
  failures : Z;
  lastFailureTime : Z;
  state : State;
  threshold : Z;
  timeout : Z
}.

(** [new CircuitBreaker(threshold, timeout)], defaults [5] and [60000]. *)
Definition new (threshold timeout : option Z) : t :=
  {| failures := 0;
     lastFailureTime := 0;
     state := closed;
     threshold := orElse threshold 5;
     timeout := orElse timeout 60000 |}.

Definition unavailable : Thrown :=
  ErrorObject
    (PlainError "Circuit breaker is open. Service temporarily unavailable.").

(** The first statement of [execute]: the breaker with which the call goes
    on, or [None] when the statement throws [unavailable].  [now] is the
    [Date.now()] of the test. *)
Definition gate (this : t) (now : Z) : option t :=
  match state this with
  | open =>
      if now - lastFailureTime this >? timeout this
      then Some {| failures := failures this;
                   lastFailureTime := lastFailureTime this;
                   state := half_open;
                   threshold := threshold this;
                   timeout := timeout this |}
      else None
  | _ => Some this
  end.

Definition onSuccess (this : t) : t :=
  {| failures := 0;
     lastFailureTime := lastFailureTime this;
     state := closed;
     threshold := threshold this;
     timeout := timeout this |}.

(** [failedAt] is the [Date.now()] of [onFailure]. *)
Definition onFailure (this : t) (failedAt : Z) : t :=
  {| failures := failures this + 1;
     lastFailureTime := failedAt;
     state := if failures this + 1 >=? threshold this then open
              else state this;
     threshold := threshold this;
     timeout := timeout this |}.

Definition execute {W T : Type} (this : t) (fn : W -> Outcome T * W)
    (now failedAt : Z) (w : W) : t * Outcome T * W * list Event :=
  match gate this now with
  | None => (this, Threw unavailable, w, [])
  | Some this1 =>
      match fn w with
      | (Returned result, w1) => (onSuccess this1, Returned result, w1, [Invoked])
      | (Threw error, w1) => (onFailure this1 failedAt, Threw error, w1, [Invoked])
      end
  end.

Definition getState (this : t) : State * Z * Z :=
  (state this, failures this, lastFailureTime this).

Definition reset (this : t) : t :=
  {| failures := 0;
     lastFailureTime := 0;
     state := closed;
     threshold := threshold this;
     timeout := timeout this |}.

(** A call of a method of the breaker, as seen from outside; the wrapped
    operation of [execute] is reduced to how it settled. *)
Inductive Call :=
| Execute (succeeds : bool) (now failedAt : Z)
| Reset.

Definition step (this : t) (c : Call) : t :=
  match c with
  | Execute succeeds now failedAt =>
      match gate this now with
      | None => this
      | Some this1 =>
          if succeeds then onSuccess this1 else onFailure this1 failedAt
      end
  | Reset => reset this
  end.

(** A sequence of calls, one after the other. *)
Definition run (this : t) (calls : list Call) : t :=
  fold_left step calls this.

Definition isFailure (c : Call) : bool :=
  match c with
  | Execute succeeds _ _ => negb succeeds
  | Reset => false
  end.

(** How the wrapped operation settled. *)
Definition succeeded {T : Type} (outcome : Outcome T) : bool :=
  match outcome with
  | Returned _ => true
  | Threw _ => false
  end.

(** The breakers a program can hold: a new one, after any calls. *)
Inductive reachable (threshold timeout : option Z) : t -> Prop :=
| reachable_new : reachable threshold timeout (new threshold timeout)
| reachable_step this c :
    reachable threshold timeout this ->
    reachable threshold timeout (step this c).

End CircuitBreaker.

(** ** The specification's words, as definitions *)

(** "Fails immediately with a service-unavailable error without the
    wrapped operation being invoked": whatever the operation, the call
    made at [now] throws that error, the operation is not called, and the
    world and the breaker are left as they were. *)
Definition rejectsAt (W T : Type) (this : CircuitBreaker.t) (now : Z) : Prop :=
  forall (fn : W -> Outcome T * W) (failedAt : Z) (w : W),
    CircuitBreaker.execute this fn now failedAt w
    = (this, Threw CircuitBreaker.unavailable, w, []).

(** The call made at [now] is let through: whatever the operation, it is
    called once and the call settles as it does. *)
Definition letsThroughAt (W T : Type) (this : CircuitBreaker.t) (now : Z)
    : Prop :=
  forall (fn : W -> Outcome T * W) (failedAt : Z) (w : W),
    exists after,
      CircuitBreaker.execute this fn now failedAt w
      = (after, fst (fn w), snd (fn w), [Invoked]).

(** [metadata.tokens] of a message, [0] when there is none. *)
Definition tokensOf (m : Message.t) : Z :=
  orZero (match Message.metadata m with
          | Some md => Message.tokens md
          | None => None
          end).

(** The sum of [metadata.tokens] over a sequence of messages. *)
Definition sumTokens (messages : list Message.t) : Z :=
  fold_right (fun m total => tokensOf m + total) 0 messages.

(** "[metadata.totalTokens] and [metadata.messageCount], when present,
    equal the derivable sum and count over [messages]". *)
Definition countersAgree (conv : Conversation.t) : bool :=
  match Conversation.metadata conv with
  | None => true
  | Some md =>
      match Conversation.totalTokens md with
      | Some total => total =? sumTokens (Conversation.messages conv)
      | None => true
      end
      &&
      match Conversation.messageCount md with
      | Some count => count =? Z.of_nat (List.length (Conversation.messages conv))
      | None => true
      end
  end.

(** "Merged (not replaced) with the existing bag": a field of the supplied
    bag wins, a field it lacks is kept from the existing bag. *)
Definition mergedMetadata (existing : option Message.Metadata)
    (supplied : Message.Metadata) : Message.Metadata :=
  match existing with
  | None => supplied
  | Some old =>
      {| Message.tokens :=
           match Message.tokens supplied with
           | Some v => Some v
           | None => Message.tokens old
           end;
         Message.model :=
           match Message.model supplied with
           | Some v => Some v
           | None => Message.model old
           end;
         Message.toolCalls :=
           match Message.toolCalls supplied with
           | Some v => Some v
           | None => Message.toolCalls old
           end;
         Message.error :=
           match Message.error supplied with
           | Some v => Some v
           | None => Message.error old
           end |}
  end.

(** "No message with the given id exists" in a sequence of messages. *)
Definition lacks (messageId : string) (messages : list Message.t) : Prop :=
  forall x, In x messages -> Message.id x <> messageId.

(** "Sorted by [updatedAt] descending". *)
Definition notOlder (a b : Conversation.t) : Prop :=
  Conversation.updatedAt b <= Conversation.updatedAt a.

(** A run of [n] attempts that starts at attempt index [first]: before
    each attempt but the first, the wait computed from the index of the
    attempt that failed; nothing after the last attempt. *)
Fixpoint attemptsWithBackoff (opts : Required.RetryOptions) (first : Z)
    (n : nat) : list Event :=
  match n with
  | O => []
  | S O => [Invoked]
  | S n' =>
      Invoked :: Slept (backoffDelay opts first)
      :: attemptsWithBackoff opts (first + 1) n'
  end.




(** "[min(baseDelay * backoffMultiplier^attemptIndex, maxDelay)]", over
    the caller's options, with 1000, 2 and 10000 for those left out. *)
Definition waitAfter (options : RetryOptions) (attemptIndex : Z) : Z :=
  Z.min (orElse (baseDelay options) 1000
         * orElse (backoffMultiplier options) 2 ^ attemptIndex)
        (orElse (maxDelay options) 10000).



(** "Wait ... and retry; no wait occurs after the final attempt": a run
    of [n] attempts that starts at attempt index [first], with
    [waitAfter] the failed attempt before the next one. *)
Fixpoint schedule (options : RetryOptions) (first : Z) (n : nat)
    : list Event :=
  match n with
  | O => []
  | S O => [Invoked]
  | S n' =>
      Invoked :: Slept (waitAfter options first)
      :: schedule options (first + 1) n'
  end.

Section Attempts.
Context {W T : Type}.
Variable sleep : Z -> W -> W.
Variable fn : @Operation W T.
Variable options : RetryOptions.




End Attempts.

(** ** Sample data *)

Module Sample.

Import LocalStorageChatAdapter.

Definition browser : Context :=
  {| hasWindow := true; item := NoItem; setItemThrows := false |}.

Definition server : Context :=
  {| hasWindow := false; item := NoItem; setItemThrows := false |}.

Definition question : Message.t :=
  {| Message.id := "m-1";
     Message.role := user;
     Message.content := "Plan a 3-day trip to Kyoto";
     Message.timestamp := 2000;
     Message.metadata := None |}.

Definition answer : Message.t :=
  {| Message.id := "m-2";
     Message.role := assistant;
     Message.content := "Day 1: Fushimi Inari and Gion";
     Message.timestamp := 3000;
     Message.metadata :=
       Some {| Message.tokens := Some 42;
               Message.model := Some "gpt-4o";
               Message.toolCalls := None;
               Message.error := None |} |}.

Definition followUp : Message.t :=
  {| Message.id := "m-3";
     Message.role := user;
     Message.content := "Add a day trip to Nara";
     Message.timestamp := 4000;
     Message.metadata := None |}.

(** "Trip Planning" created at 1000 under the id c-1, [question] saved. *)
Definition afterQuestion : Context :=
  let ctx1 := snd (createConversation (Some "Trip Planning") "c-1" 1000 1000
                                      browser) in
  snd (saveMessage "c-1" question 2000 ctx1).

(** The document after the scenario: "Trip Planning" created at 1000 under
    the id c-1, then [question] saved at 2000 and [answer] at 3000. *)
Definition afterScenario : Context :=
  let ctx1 := snd (createConversation (Some "Trip Planning") "c-1" 1000 1000
                                      browser) in
  let ctx2 := snd (saveMessage "c-1" question 2000 ctx1) in
  snd (saveMessage "c-1" answer 3000 ctx2).

(** An update that supplies a metadata bag with an [error] only. *)
Definition errorOnly : PartialMessage.t :=
  {| PartialMessage.id := None;
     PartialMessage.role := None;
     PartialMessage.content := None;
     PartialMessage.timestamp := None;
     PartialMessage.metadata :=
       Some {| Message.tokens := None;
               Message.model := None;
               Message.toolCalls := None;
               Message.error := Some "stream interrupted" |} |}.

Definition noUpdates : PartialConversation.t :=
  {| PartialConversation.id := None;
     PartialConversation.title := None;
     PartialConversation.messages := None;
     PartialConversation.createdAt := None;
     PartialConversation.updatedAt := None;
     PartialConversation.metadata := None |}.

Definition rename (title : string) : PartialConversation.t :=
  {| PartialConversation.id := None;
     PartialConversation.title := Some title;
     PartialConversation.messages := None;
     PartialConversation.createdAt := None;
     PartialConversation.updatedAt := None;
     PartialConversation.metadata := None |}.

(** Two conversations created within the same millisecond. *)
Definition twoConversations : Context :=
  let ctx1 := snd (createConversation (Some "First") "c-1" 1000 1000
                                      browser) in
  snd (createConversation (Some "Second") "c-2" 1000 1000 ctx1).

Definition anonymous : SupabaseChatAdapter.Adapter :=
  {| SupabaseChatAdapter.userId := None |}.

Definition alice : SupabaseChatAdapter.Adapter :=
  {| SupabaseChatAdapter.userId := Some "alice" |}.

Definition bob : SupabaseChatAdapter.Adapter :=
  {| SupabaseChatAdapter.userId := Some "bob" |}.

Definition emptyDatabase : Backend.Database :=
  {| Backend.conversations := []; Backend.messages := [] |}.

(** Alice's "Trip Planning" (c-1, created at 1000) holding [answer], and
    Bob's "Groceries" (c-2, created at 1500). *)
Definition tenants : Backend.Database :=
  let db1 := snd (SupabaseChatAdapter.createConversation
                    alice (Some "Trip Planning") "c-1" 1000 None
                    emptyDatabase) in
  let db2 := snd (SupabaseChatAdapter.createConversation
                    bob (Some "Groceries") "c-2" 1500 None db1) in
  snd (SupabaseChatAdapter.saveMessage alice "c-1" answer 3000 None None db2).


Definition healthy : @Operation nat string :=
  fun calls => (Returned "done", S calls).


Definition unreachable : @Operation nat string :=
  fun calls => (Threw (ErrorObject (PlainError "fetch failed")), S calls).

Definition timer : Z -> nat -> nat := fun _ calls => calls.

(** [new CircuitBreaker(5, 60000)] after five failures in a row, the last
    one at time 5. *)
Definition tripped : CircuitBreaker.t :=
  CircuitBreaker.run
    (CircuitBreaker.new (Some 5) (Some 60000))
    [CircuitBreaker.Execute false 1 1;
     CircuitBreaker.Execute false 2 2;
     CircuitBreaker.Execute false 3 3;
     CircuitBreaker.Execute false 4 4;
     CircuitBreaker.Execute false 5 5].


(** [{ maxRetries: 4, baseDelay: 1000, backoffMultiplier: 2, maxDelay: 3000 }] *)
Definition capped : RetryOptions :=
  {| maxRetries := Some 4;
     baseDelay := Some 1000;
     maxDelay := Some 3000;
     backoffMultiplier := Some 2;
     shouldRetry := None |}.





(** An operation that fails with a retryable error whatever the time. *)
Definition offline : @Operation Z string :=
  fun waited => (Threw (ErrorObject (PlainError "fetch failed")), waited).

End Sample.

(** ** Application errors ([errors.ts]) *)

Module Errors.

(** The [details] of an [AppError]: of the values that [JSON.stringify]
    accepts, a piece of JSON and the [{ originalError }] of the exhausted
    retry. *)
Inductive Details :=
| Json (text : string)
| OriginalError (lastError : option JsError).

(** An instance of [AppError] or of one of its subclasses. *)
Record AppError := {
  name : string;
  message : string;
  statusCode : Z;
  code : option string;
  details : option Details
}.

(** [new AppError(message, statusCode = 500, code?, details?)], on an
    engine that has [Error.captureStackTrace] (V8); the status is an
    integer. *)
Definition newAppError (message : string) (statusCode : option Z)
    (code : option string) (details : option Details) : AppError :=
  {| name := "AppError";
     message := message;
     statusCode := orElse statusCode 500;
     code := code;
     details := details |}.

(** A subclass constructor: [super(...)], then [this.name = ...]. *)
Definition named (className : string) (e : AppError) : AppError :=
  {| name := className;
     message := message e;
     statusCode := statusCode e;
     code := code e;
     details := details e |}.

Definition ValidationError (message : string) (details : option Details)
    : AppError :=
  named "ValidationError"
        (newAppError message (Some 400) (Some "VALIDATION_ERROR") details).

Definition AuthenticationError (message : option string) : AppError :=
  named "AuthenticationError"
        (newAppError (orElse message "Authentication required") (Some 401)
                     (Some "AUTH_ERROR") None).

Definition AuthorizationError (message : option string) : AppError :=
  named "AuthorizationError"
        (newAppError (orElse message "Permission denied") (Some 403)
                     (Some "AUTHORIZATION_ERROR") None).

Definition NotFoundError (message : option string) : AppError :=
  named "NotFoundError"
        (newAppError (orElse message "Resource not found") (Some 404)
                     (Some "NOT_FOUND_ERROR") None).

Definition RateLimitError (message : option string) : AppError :=
  named "RateLimitError"
        (newAppError
           (orElse message "Too many requests. Please try again later.")
           (Some 429) (Some "RATE_LIMIT_ERROR") None).

Definition LLMError (message : string) (details : option Details)
    : AppError :=
  named "LLMError" (newAppError message (Some 500) (Some "LLM_ERROR") details).

Definition ToolExecutionError (message : string) (details : option Details)
    : AppError :=
  named "ToolExecutionError"
        (newAppError message (Some 500) (Some "TOOL_ERROR") details).

(** The [error: unknown] that the handlers receive. *)
Inductive Caught :=
| IsAppError (e : AppError)
| IsError (message : string)
| NotAnError.

(** A response with a JSON body; a member of the body that is
    [undefined] is not serialised. *)
Record Response := {
  status : Z;
  body_error : string;
  body_code : option string;
  body_details : option Details
}.

(** What [handleApiError] does: it returns a response, or lets through
    the error that [Response.json] throws. *)
Inductive Handled :=
| Answered (response : Response)
| ThrowsRangeError
| ThrowsTypeError.

(** [Response.json(body, { status })].  The status, an integer here, is
    converted to an unsigned 16-bit integer; one outside 200 to 599 is
    refused with a RangeError, and one that allows no body (204, 205 and
    304 in that range) with a TypeError, since there is a body. *)
Definition json (status : Z) (error : string) (code : option string)
    (details : option Details) : Handled :=
  let converted := status mod 65536 in
  if ((converted <? 200) || (599 <? converted))%bool
  then ThrowsRangeError
  else if ((converted =? 204) || (converted =? 205)
           || (converted =? 304))%bool
  then ThrowsTypeError
  else Answered {| status := converted;
                   body_error := error;
                   body_code := code;
                   body_details := details |}.

Definition handleApiError (error : Caught) : Handled :=
  match error with
  | IsAppError e => json (statusCode e) (message e) (code e) (details e)
  | _ => json 500 "An unexpected error occurred" (Some "INTERNAL_ERROR") None
  end.

(** [ERROR_MESSAGES], its own properties in the order of the literal. *)
Definition ERROR_MESSAGES : Dict string :=
  [("NETWORK_ERROR",
    "Unable to connect. Please check your internet connection.");
   ("TIMEOUT_ERROR", "The request took too long. Please try again.");
   ("AUTH_REQUIRED", "Please log in to continue.");
   ("AUTH_EXPIRED", "Your session has expired. Please log in again.");
   ("PERMISSION_DENIED",
    "You don't have permission to perform this action.");
   ("LLM_RATE_LIMIT",
    "Too many requests. Please wait a moment and try again.");
   ("LLM_ERROR",
    "Unable to process your request right now. Please try again.");
   ("INVALID_INPUT", "Please check your input and try again.");
   ("MESSAGE_TOO_LONG",
    "Your message is too long. Please shorten it and try again.");
   ("TOOL_ERROR", "Unable to complete the action. Please try again.");
   ("UNKNOWN_ERROR", "Something went wrong. Please try again.")].

(** [ERROR_MESSAGES.KEY] for a key of the literal. *)
Definition messageFor (key : string) : string :=
  orElse (get key ERROR_MESSAGES) "".

(** The message patterns of [getUserFriendlyError]; [includes] is case
    sensitive here. *)
Definition friendlyForMessage (message : string) : string :=
  if (includes message "network" || includes message "fetch")%bool
  then messageFor "NETWORK_ERROR"
  else if includes message "timeout"
  then messageFor "TIMEOUT_ERROR"
  else if (includes message "rate limit" || includes message "429")%bool
  then messageFor "LLM_RATE_LIMIT"
  else if includes message "auth"
  then messageFor "AUTH_REQUIRED"
  else messageFor "UNKNOWN_ERROR".

(** What [getUserFriendlyError] returns: a text or, the declared type
    notwithstanding, the member of [Object.prototype] that the lookup in
    the table finds. *)
Inductive Shown :=
| Text (text : string)
| Member (name : string).

(** [ERROR_MESSAGES[key] || error.message]: every text of the table is
    non-empty, and a key that is no own property of the table is looked
    up in [Object.prototype], whose members are truthy.  An [AppError]
    whose [code] is absent or empty is handled as any [Error]. *)
Definition getUserFriendlyError (error : Caught) : Shown :=
  match error with
  | IsAppError e =>
      match code e with
      | Some "" | None => Text (friendlyForMessage (message e))
      | Some key =>
          match get key ERROR_MESSAGES with
          | Some text => Text text
          | None =>
              if inheritedMember key then Member key
              else Text (message e)
          end
      end
  | IsError message => Text (friendlyForMessage message)
  | NotAnError => Text (messageFor "UNKNOWN_ERROR")
  end.

End Errors.

(** The errors of [retry.ts] as the handlers of [errors.ts] see them: the
    [LLMError] that [withRetry] throws is the class of [errors.ts]. *)
Definition caughtError (e : JsError) : Errors.Caught :=
  match e with
  | PlainError m => Errors.IsError m
  | LLMError m original =>
      Errors.IsAppError
        (Errors.LLMError m (Some (Errors.OriginalError original)))
  end.

Definition caught (t : Thrown) : Errors.Caught :=
  match t with
  | ErrorObject e => caughtError e
  | OtherValue _ => Errors.NotAnError
  end.

(** ** The storage factory ([index.ts]) *)

Module Factory.

(** What [createChatStorage] reads: the two variables of [process.env], and
    whether [require('@supabase/supabase-js')] and [createClient] return
    (they throw otherwise). *)
Record Environment := {
  NEXT_PUBLIC_SUPABASE_URL : option string;
  NEXT_PUBLIC_SUPABASE_ANON_KEY : option string;
  clientLoads : bool
}.

(** A string in a condition: absent and empty are falsy. *)
Definition truthy (s : option string) : bool :=
  match s with
  | Some "" | None => false
  | Some _ => true
  end.

Inductive ChatStorage :=
| Supabase (adapter : SupabaseChatAdapter.Adapter)
| Local.

(** The adapter returned, and the lines of [console.warn]. *)
Definition createChatStorage (userId : option string) (env : Environment)
    : ChatStorage * list string :=
  if (truthy (NEXT_PUBLIC_SUPABASE_URL env)
      && truthy (NEXT_PUBLIC_SUPABASE_ANON_KEY env))%bool
  then
    if clientLoads env
    then (Supabase {| SupabaseChatAdapter.userId := userId |}, [])
    else (Local,
          ["Supabase configured but @supabase/supabase-js not found. Install with: pnpm add @supabase/supabase-js";
           "Falling back to localStorage"])
  else (Local, []).

End Factory.

(** ** Further notions used by the properties *)

(** [Object.keys(o)] *)
Definition keys {V : Type} (o : Dict V) : list string := map fst o.

(** The metadata of the stored conversations, key by key. *)
Definition storedMetadata (o : Dict Conversation.t)
    : list (string * option Conversation.Metadata) :=
  map (fun entry => (fst entry, Conversation.metadata (snd entry))) o.

(** The error that [withRetry] throws after its loop. *)
Definition exhaustionError (opts : Required.RetryOptions)
    (original : option JsError) : Thrown :=
  ErrorObject
    (LLMError ("Failed after " ++ numberToString (Required.maxRetries opts)
               ++ " retries")
              original).

(** The texts that [isRetryableError] looks for. *)
Definition retryableKeywords : list string :=
  ["network"; "fetch"; "econnrefused"; "enotfound"; "timeout"; "timed out";
   "rate limit"; "429"; "quota"; "500"; "502"; "503"; "504"].

(** The longest run of failures in a sequence of calls, the run that is
    under way having [current] failures. *)
Fixpoint longestFailureRun (current : Z) (calls : list CircuitBreaker.Call)
    : Z :=
  match calls with
  | [] => current
  | CircuitBreaker.Execute false _ _ :: rest =>
      Z.max (current + 1) (longestFailureRun (current + 1) rest)
  | _ :: rest => Z.max current (longestFailureRun 0 rest)
  end.

(** A call that reaches an open breaker before the cooldown is over. *)
Definition early (this : CircuitBreaker.t) (c : CircuitBreaker.Call) : bool :=
  match c with
  | CircuitBreaker.Execute _ now _ =>
      now - CircuitBreaker.lastFailureTime this
      <=? CircuitBreaker.timeout this
  | CircuitBreaker.Reset => false
  end.

(** * Properties *)

(** ** Dictionaries and lists *)

Section DictionaryFacts.
Context {V : Type}.
Implicit Types (k : string) (v : V) (o : Dict V).

Lemma get_set_same k v o : get k (set k v o) = Some v.
Proof.
  induction o as [| [k' v'] rest IH]; simpl.
  - now rewrite String.eqb_refl.
  - destruct (String.eqb k k') eqn:E; simpl; rewrite E; auto.
Qed.

(** A dictionary in which [k] is set has its values in place, with the new
    value at the position of the first entry for [k], or at the end. *)
Lemma values_set k v o :
  exists front back,
    values (set k v o) = (front ++ v :: back)%list /\
    (forall x, In x front \/ In x back -> In x (values o)).
Proof.
  induction o as [| [k' v'] rest IH]; simpl.
  - exists [], []. split; auto. intros x [[] | []].
  - destruct (String.eqb k k') eqn:E; simpl.
    + exists [], (values rest). split; auto.
      intros x [[] | Hx]. now right.
    + destruct IH as (front & back & Heq & Hin).
      exists (v' :: front), back. split.
      * unfold values in *. simpl. now rewrite Heq.
      * intros x [[Hx | Hx] | Hx]; auto.
Qed.

End DictionaryFacts.

Lemma existsb_false_filter {A : Type} (p : A -> bool) (l : list A) :
  existsb p l = false -> filter p l = [].
Proof.
  induction l as [| x rest IH]; simpl; auto.
  destruct (p x); simpl; [discriminate | auto].
Qed.

Lemma filter_none {A : Type} (p : A -> bool) (l : list A) :
  (forall x, In x l -> p x = false) -> filter p l = [].
Proof.
  induction l as [| x rest IH]; simpl; intros H; auto.
  rewrite (H x (or_introl eq_refl)). auto.
Qed.

(** ** Sorting *)

Section SortFacts.
Context {A : Type}.
Variable compare : A -> A -> Z.

Lemma insertSorted_perm x l : Permutation (x :: l) (insertSorted compare x l).
Proof.
  induction l as [| y rest IH]; simpl; auto.
  destruct (compare x y <=? 0); auto.
  eapply perm_trans; [apply perm_swap | apply perm_skip, IH].
Qed.

Lemma sort_cons x l :
  sort compare (x :: l) = insertSorted compare x (sort compare l).
Proof. reflexivity. Qed.

Lemma sort_perm l : Permutation l (sort compare l).
Proof.
  induction l as [| x rest IH]; [constructor |].
  rewrite sort_cons.
  eapply perm_trans; [apply perm_skip, IH | apply insertSorted_perm].
Qed.

Lemma sort_In x l : In x (sort compare l) <-> In x l.
Proof.
  split; intros H.
  - eapply Permutation_in; [apply Permutation_sym, sort_perm | exact H].
  - eapply Permutation_in; [apply sort_perm | exact H].
Qed.

(** An element that [compare] ranks strictly ahead of all the others ends
    up first, wherever it stood. *)
Lemma insertSorted_first x l :
  (forall y, In y l -> compare x y <= 0) -> insertSorted compare x l = x :: l.
Proof.
  destruct l as [| y rest]; simpl; auto.
  intros H. specialize (H y (or_introl eq_refl)).
  destruct (compare x y <=? 0) eqn:E; auto.
  apply Z.leb_gt in E. lia.
Qed.

Lemma insertSorted_behind x y l :
  0 < compare y x ->
  insertSorted compare y (x :: l) = x :: insertSorted compare y l.
Proof.
  intros H. simpl. destruct (compare y x <=? 0) eqn:E; auto.
  apply Z.leb_le in E. lia.
Qed.

Lemma sort_first front x back :
  (forall y, In y front -> 0 < compare y x) ->
  (forall y, In y back -> compare x y <= 0) ->
  exists rest, sort compare (front ++ x :: back) = x :: rest.
Proof.
  intros Hfront Hback. induction front as [| y front IH].
  - exists (sort compare back). rewrite app_nil_l, sort_cons.
    apply insertSorted_first.
    intros y Hy. apply Hback. now apply sort_In.
  - destruct IH as [rest Hrest].
    + intros z Hz. apply Hfront. now right.
    + rewrite <- app_comm_cons, sort_cons, Hrest.
      exists (insertSorted compare y rest). apply insertSorted_behind.
      apply Hfront. now left.
Qed.

(** An element that is appended and that [compare] does not rank ahead of
    any other stays last. *)
Lemma insertSorted_before_last x y l :
  compare y x <= 0 ->
  insertSorted compare y (l ++ [x]) = (insertSorted compare y l ++ [x])%list.
Proof.
  intros H. induction l as [| z rest IH]; simpl.
  - destruct (compare y x <=? 0) eqn:E; auto. apply Z.leb_gt in E. lia.
  - destruct (compare y z <=? 0); auto. now rewrite IH.
Qed.

Lemma sort_last l x :
  (forall y, In y l -> compare y x <= 0) ->
  sort compare (l ++ [x]) = (sort compare l ++ [x])%list.
Proof.
  induction l as [| y rest IH]; intros H; [reflexivity |].
  rewrite <- app_comm_cons, !sort_cons.
  rewrite IH by (intros z Hz; apply H; now right).
  apply insertSorted_before_last. apply H. now left.
Qed.

End SortFacts.

Section SortedFacts.
Context {A : Type}.
Variable key : A -> Z.

(** Sorting with a comparator that subtracts keys orders the keys. *)
Lemma insertSorted_descending x l :
  StronglySorted (fun a b => key b <= key a) l ->
  StronglySorted (fun a b => key b <= key a)
                 (insertSorted (fun a b => key b - key a) x l).
Proof.
  induction 1 as [| y rest Hsorted IH Hall]; simpl.
  - repeat constructor.
  - destruct (key y - key x <=? 0) eqn:E.
    + apply Z.leb_le in E. constructor.
      * now constructor.
      * constructor; [lia |].
        rewrite Forall_forall in *. intros z Hz. specialize (Hall z Hz). lia.
    + apply Z.leb_gt in E. constructor; auto.
      rewrite Forall_forall in *. intros z Hz.
      eapply Permutation_in in Hz;
        [| apply Permutation_sym, insertSorted_perm].
      destruct Hz as [<- | Hz]; [lia | auto].
Qed.

Lemma sort_descending l :
  StronglySorted (fun a b => key b <= key a)
                 (sort (fun a b => key b - key a) l).
Proof.
  induction l as [| x rest IH]; [constructor |].
  rewrite sort_cons. now apply insertSorted_descending.
Qed.

Lemma insertSorted_ascending x l :
  StronglySorted (fun a b => key a <= key b) l ->
  StronglySorted (fun a b => key a <= key b)
                 (insertSorted (fun a b => key a - key b) x l).
Proof.
  induction 1 as [| y rest Hsorted IH Hall]; simpl.
  - repeat constructor.
  - destruct (key x - key y <=? 0) eqn:E.
    + apply Z.leb_le in E. constructor.
      * now constructor.
      * constructor; [lia |].
        rewrite Forall_forall in *. intros z Hz. specialize (Hall z Hz). lia.
    + apply Z.leb_gt in E. constructor; auto.
      rewrite Forall_forall in *. intros z Hz.
      eapply Permutation_in in Hz;
        [| apply Permutation_sym, insertSorted_perm].
      destruct Hz as [<- | Hz]; [lia | auto].
Qed.

Lemma sort_ascending l :
  StronglySorted (fun a b => key a <= key b)
                 (sort (fun a b => key a - key b) l).
Proof.
  induction l as [| x rest IH]; [constructor |].
  rewrite sort_cons. now apply insertSorted_ascending.
Qed.

End SortedFacts.

(** ** Looking a conversation up *)

Lemma local_getConversation_stored
    (ctx : LocalStorageChatAdapter.Context) (conversationId : string)
    (conv : Conversation.t) :
  LocalStorageChatAdapter.getConversation conversationId ctx
  = LocalStorageChatAdapter.Stored conv ->
  get conversationId
      (LocalStorageChatAdapter.conversations
         (LocalStorageChatAdapter.getAll ctx)) = Some conv.
Proof.
  unfold LocalStorageChatAdapter.getConversation.
  destruct (get conversationId _) as [found |].
  - now intros [= ->].
  - destruct (inheritedMember conversationId); discriminate.
Qed.

Lemma local_getConversation_own
    (ctx : LocalStorageChatAdapter.Context) (conversationId : string)
    (conv : Conversation.t) :
  get conversationId
      (LocalStorageChatAdapter.conversations
         (LocalStorageChatAdapter.getAll ctx)) = Some conv ->
  LocalStorageChatAdapter.getConversation conversationId ctx
  = LocalStorageChatAdapter.Stored conv.
Proof.
  intros Hown. unfold LocalStorageChatAdapter.getConversation.
  now rewrite Hown.
Qed.

Lemma local_getConversation_null
    (ctx : LocalStorageChatAdapter.Context) (conversationId : string) :
  LocalStorageChatAdapter.getConversation conversationId ctx
  = LocalStorageChatAdapter.Null ->
  get conversationId
      (LocalStorageChatAdapter.conversations
         (LocalStorageChatAdapter.getAll ctx)) = None /\
  inheritedMember conversationId = false.
Proof.
  unfold LocalStorageChatAdapter.getConversation.
  destruct (get conversationId _) as [found |]; [discriminate |].
  destruct (inheritedMember conversationId); [discriminate | auto].
Qed.

Lemma local_getConversation_not_stored
    (ctx : LocalStorageChatAdapter.Context) (conversationId : string) :
  (forall conv,
      LocalStorageChatAdapter.getConversation conversationId ctx
      <> LocalStorageChatAdapter.Stored conv) ->
  get conversationId
      (LocalStorageChatAdapter.conversations
         (LocalStorageChatAdapter.getAll ctx)) = None.
Proof.
  intros Hnot.
  destruct (get conversationId _) as [found |] eqn:Hown; [| reflexivity].
  exfalso. apply (Hnot found). now apply local_getConversation_own.
Qed.

Lemma local_getConversation_agrees
    (ctx ctx' : LocalStorageChatAdapter.Context) (conversationId : string) :
  get conversationId
      (LocalStorageChatAdapter.conversations
         (LocalStorageChatAdapter.getAll ctx'))
  = get conversationId
        (LocalStorageChatAdapter.conversations
           (LocalStorageChatAdapter.getAll ctx)) ->
  LocalStorageChatAdapter.getConversation conversationId ctx'
  = LocalStorageChatAdapter.getConversation conversationId ctx.
Proof.
  intros Hsame. unfold LocalStorageChatAdapter.getConversation.
  now rewrite Hsame.
Qed.

(** ** The local adapter outside a browser *)

Section WithoutWindow.
Import LocalStorageChatAdapter.

(** C10.  Where no [window] exists, every read of the local adapter sees the
    empty document and no operation changes the store:
    [createConversation] returns a conversation that an immediately
    following [getConversation] with the same id does not find, [clearAll]
    completes, and an operation on a message fails with NotFound.  An
    operation on a conversation fails with NotFound at every id but the
    names of the members of [Object.prototype], which the lookup
    [data.conversations[conversationId]] finds in the empty document too:
    there [saveMessage] fails with a TypeError, which is no NotFound,
    [getConversation] returns the built-in member, and [updateConversation]
    and [deleteConversation] complete; ["constructor"] is such an id, one
    of twelve. *)
Theorem local_adapter_without_window (ctx : Context) :
  hasWindow ctx = false ->
  getAll ctx = emptyData /\
  (forall data, saveAll data ctx = (Ok tt, ctx)) /\
  (forall title uuid now1 now2,
      exists conv,
        createConversation title uuid now1 now2 ctx = (Ok conv, ctx) /\
        Conversation.id conv = uuid /\
        forall found,
          getConversation (Conversation.id conv) ctx <> Stored found) /\
  clearAll ctx = (Ok tt, ctx) /\
  (forall conversationId, getMessages conversationId ctx = []) /\
  listConversations ctx = [] /\
  (forall messageId now,
      deleteMessage messageId now ctx
      = (Throw (MessageNotFound messageId), ctx)) /\
  (forall messageId updates now,
      updateMessage messageId updates now ctx
      = (Throw (MessageNotFound messageId), ctx)) /\
  (forall conversationId,
      inheritedMember conversationId = false ->
      getConversation conversationId ctx = Null /\
      (forall message now,
          saveMessage conversationId message now ctx
          = (Throw (ConversationNotFound conversationId), ctx)) /\
      isNotFound (ConversationNotFound conversationId) = true /\
      (forall updates now,
          updateConversation conversationId updates now ctx
          = (Throw (ConversationNotFound conversationId), ctx)) /\
      deleteConversation conversationId ctx
      = (Throw (ConversationNotFound conversationId), ctx)) /\
  (forall conversationId,
      inheritedMember conversationId = true ->
      getConversation conversationId ctx = Builtin conversationId /\
      (forall message now,
          exists detail,
            saveMessage conversationId message now ctx
            = (Throw (TypeError detail), ctx) /\
            isNotFound (TypeError detail) = false) /\
      (forall updates now,
          updateConversation conversationId updates now ctx = (Ok tt, ctx)) /\
      deleteConversation conversationId ctx = (Ok tt, ctx)) /\
  forallb inheritedMember
          [ "constructor"; "toString"; "toLocaleString"; "valueOf";
            "hasOwnProperty"; "isPrototypeOf"; "propertyIsEnumerable";
            "__proto__"; "__defineGetter__"; "__defineSetter__";
            "__lookupGetter__"; "__lookupSetter__" ] = true.
Proof.
  intros Hwin.
  assert (Hall : getAll ctx = emptyData) by (unfold getAll; now rewrite Hwin).
  assert (Hsave : forall data, saveAll data ctx = (Ok tt, ctx))
    by (intros data; unfold saveAll; now rewrite Hwin).
  split; [exact Hall |]. split; [exact Hsave |].
  split.
  { intros title uuid now1 now2. eexists. unfold createConversation.
    rewrite Hsave. split; [reflexivity |]. split; [reflexivity |].
    intros found. unfold getConversation. rewrite Hall. unfold emptyData. cbn.
    destruct (inheritedMember uuid); discriminate. }
  split; [unfold clearAll; now rewrite Hwin |].
  split; [intros; unfold getMessages; now rewrite Hall |].
  split; [unfold listConversations; now rewrite Hall |].
  split; [intros; unfold deleteMessage; now rewrite Hall |].
  split; [intros; unfold updateMessage; now rewrite Hall |].
  split.
  { intros conversationId Hown.
    unfold getConversation, saveMessage, updateConversation,
      deleteConversation.
    rewrite Hall. unfold emptyData. cbn. rewrite Hown. repeat split. }
  split; [| reflexivity].
  intros conversationId Hinherited.
  unfold getConversation, saveMessage, updateConversation,
    deleteConversation.
  rewrite Hall. unfold emptyData. cbn. rewrite Hinherited.
  split; [reflexivity |]. split.
  { intros message now. eexists. split; reflexivity. }
  split; [intros; apply Hsave | apply Hsave].
Qed.

(** A server-side context whose storage item, were it visible, would hold
    the scenario's conversation: a message saved to the scenario's
    conversation meets NotFound, one saved to ["constructor"] a
    TypeError. *)
Lemma local_adapter_without_window_witness :
  let ctx := {| hasWindow := false;
                item := item Sample.afterScenario;
                setItemThrows := false |} in
  hasWindow ctx = false /\
  (exists conv,
      createConversation (Some "Trip Planning") "c-9" 5000 5000 ctx
      = (Ok conv, ctx) /\
      forall found, getConversation (Conversation.id conv) ctx <> Stored found) /\
  saveMessage "c-1" Sample.question 5000 ctx
  = (Throw (ConversationNotFound "c-1"), ctx) /\
  (exists detail,
      saveMessage "constructor" Sample.question 5000 ctx
      = (Throw (TypeError detail), ctx) /\
      isNotFound (TypeError detail) = false) /\
  getConversation "constructor" ctx = Builtin "constructor".
Proof.
  intros ctx.
  destruct (local_adapter_without_window ctx eq_refl)
    as (_ & _ & Hcreate & _ & _ & _ & _ & _ & Hown & Hinherited & _).
  split; [reflexivity |]. split.
  - destruct (Hcreate (Some "Trip Planning") "c-9" 5000 5000)
      as (conv & H1 & _ & H3).
    exists conv. split; [exact H1 | exact H3].
  - destruct (Hown "c-1" eq_refl) as (_ & Hsave & _).
    destruct (Hinherited "constructor" eq_refl) as (Hget & Hpush & _).
    split; [apply Hsave |]. split; [apply Hpush | exact Hget].
Defined.

End WithoutWindow.

(** ** Clearing the store *)



(** ** Creating a conversation *)

Lemma fresh_conversation_has_no_messages (db : Backend.Database) (uuid : string) :
  Backend.referentialIntegrity db = true ->
  existsb (Backend.conversationHasId uuid) (Backend.conversations db) = false ->
  filter (Backend.inConversation uuid) (Backend.messages db) = [].
Proof.
  intros Hfk Hfresh. apply filter_none. intros m Hm.
  unfold Backend.referentialIntegrity in Hfk.
  rewrite forallb_forall in Hfk. specialize (Hfk m Hm).
  unfold Backend.inConversation.
  destruct (String.eqb (MessageRow.conversation_id m) uuid) eqn:E; auto.
  apply String.eqb_eq in E. rewrite E in Hfk. congruence.
Qed.

(** C7, as amended.  In a browser whose store accepts the write, the local
    [createConversation] returns a conversation with the generated id, no
    messages, [createdAt] and [updatedAt] read from the clock one after the
    other (equal when the two readings are), and zeroed counters, and
    [getConversation] then returns that conversation.  The remote
    [createConversation], when the insert is carried out (the id is not
    taken), returns the same with [createdAt] equal to [updatedAt], and
    [getConversation] then returns that conversation. *)
Theorem createConversation_then_getConversation
    (title : option string) (uuid : string) :
  (forall ctx now1 now2,
      LocalStorageChatAdapter.hasWindow ctx = true ->
      LocalStorageChatAdapter.setItemThrows ctx = false ->
      exists conv ctx',
        LocalStorageChatAdapter.createConversation title uuid now1 now2 ctx
        = (Ok conv, ctx') /\
        Conversation.id conv = uuid /\
        Conversation.messages conv = [] /\
        Conversation.createdAt conv = now1 /\
        Conversation.updatedAt conv = now2 /\
        (now1 = now2 ->
         Conversation.createdAt conv = Conversation.updatedAt conv) /\
        Conversation.metadata conv
        = Some {| Conversation.totalTokens := Some 0;
                  Conversation.messageCount := Some 0;
                  Conversation.userId := None |} /\
        LocalStorageChatAdapter.getConversation uuid ctx'
        = LocalStorageChatAdapter.Stored conv) /\
  (forall this now db,
      Backend.referentialIntegrity db = true ->
      existsb (Backend.conversationHasId uuid) (Backend.conversations db)
      = false ->
      exists conv db',
        SupabaseChatAdapter.createConversation this title uuid now None db
        = (Ok conv, db') /\
        Conversation.id conv = uuid /\
        Conversation.messages conv = [] /\
        Conversation.createdAt conv = now /\
        Conversation.createdAt conv = Conversation.updatedAt conv /\
        Conversation.metadata conv
        = Some {| Conversation.totalTokens := Some 0;
                  Conversation.messageCount := Some 0;
                  Conversation.userId := None |} /\
        SupabaseChatAdapter.getConversation this uuid None db'
        = (Ok (Some conv), db')).
Proof.
  split.
  - intros ctx now1 now2 Hwin Hquota.
    unfold LocalStorageChatAdapter.createConversation,
      LocalStorageChatAdapter.saveAll.
    rewrite Hwin, Hquota. simpl.
    eexists. eexists. split; [reflexivity |].
    repeat (split; [try reflexivity; auto |]).
    apply local_getConversation_own.
    unfold LocalStorageChatAdapter.getAll. simpl. rewrite Hwin. simpl.
    apply get_set_same.
  - intros this now db Hfk Hfresh.
    unfold SupabaseChatAdapter.createConversation, Backend.insertConversation.
    simpl. rewrite Hfresh.
    eexists. eexists. split; [reflexivity |].
    repeat (split; [reflexivity |]).
    unfold SupabaseChatAdapter.getConversation, Backend.selectConversation.
    simpl. rewrite filter_app. rewrite (existsb_false_filter _ _ Hfresh).
    simpl. unfold Backend.conversationHasId at 1. simpl.
    rewrite String.eqb_refl. simpl.
    unfold Backend.join. simpl.
    rewrite (fresh_conversation_has_no_messages db uuid Hfk Hfresh).
    reflexivity.
Qed.

Lemma createConversation_then_getConversation_witness :
  (exists conv ctx',
      LocalStorageChatAdapter.createConversation
        (Some "Trip Planning") "c-1" 1000 1000 Sample.browser
      = (Ok conv, ctx') /\
      Conversation.createdAt conv = Conversation.updatedAt conv /\
      LocalStorageChatAdapter.getConversation "c-1" ctx'
      = LocalStorageChatAdapter.Stored conv) /\
  (exists conv db',
      SupabaseChatAdapter.createConversation
        Sample.alice (Some "Trip Planning") "c-7" 4000 None Sample.tenants
      = (Ok conv, db') /\
      SupabaseChatAdapter.getConversation Sample.alice "c-7" None db'
      = (Ok (Some conv), db')).
Proof.
  destruct (createConversation_then_getConversation
              (Some "Trip Planning") "c-1") as [Hlocal _].
  destruct (createConversation_then_getConversation
              (Some "Trip Planning") "c-7") as [_ Hremote].
  split.
  - destruct (Hlocal Sample.browser 1000 1000 eq_refl eq_refl)
      as (conv & ctx' & Hcreate & _ & _ & _ & _ & Hsame & _ & Hget).
    exists conv, ctx'. split; [exact Hcreate |]. split; [| exact Hget].
    now apply Hsame.
  - destruct (Hremote Sample.alice 4000 Sample.tenants eq_refl eq_refl)
      as (conv & db' & Hcreate & _ & _ & _ & _ & _ & Hget).
    exists conv, db'. split; [exact Hcreate | exact Hget].
Defined.

(** C7, as stated, fails on the local adapter where there is no [window]:
    the conversation that [createConversation] returns is not the result
    of the [getConversation] that follows, which finds nothing. *)
Lemma createConversation_without_window_is_not_stored :
  exists conv ctx',
    LocalStorageChatAdapter.createConversation
      (Some "Trip Planning") "c-1" 1000 1000 Sample.server
    = (Ok conv, ctx') /\
    LocalStorageChatAdapter.getConversation (Conversation.id conv) ctx'
    = LocalStorageChatAdapter.Null /\
    LocalStorageChatAdapter.getConversation (Conversation.id conv) ctx'
    <> LocalStorageChatAdapter.Stored conv.
Proof.
  eexists. eexists. split; [reflexivity |]. split; [reflexivity |].
  discriminate.
Qed.

(** ** Saving a message *)

Lemma StronglySorted_map {A B : Type} (f : A -> B)
    (R : A -> A -> Prop) (R' : B -> B -> Prop) (l : list A) :
  (forall a b, R a b -> R' (f a) (f b)) ->
  StronglySorted R l -> StronglySorted R' (map f l).
Proof.
  intros Hf. induction 1 as [| x rest Hsorted IH Hall]; simpl; constructor; auto.
  rewrite Forall_forall in *. intros y Hy.
  apply in_map_iff in Hy. destruct Hy as (a & <- & Ha). auto.
Qed.

Lemma local_conversation_needs_window
    (ctx : LocalStorageChatAdapter.Context) (conversationId : string)
    (conv : Conversation.t) :
  LocalStorageChatAdapter.getConversation conversationId ctx
  = LocalStorageChatAdapter.Stored conv ->
  LocalStorageChatAdapter.hasWindow ctx = true.
Proof.
  intros Hstored. apply local_getConversation_stored in Hstored.
  unfold LocalStorageChatAdapter.getAll in Hstored.
  destruct (LocalStorageChatAdapter.hasWindow ctx); [reflexivity |].
  discriminate Hstored.
Qed.

(** The document read back after a write that went through. *)
Lemma local_getAll_after_saveAll
    (ctx : LocalStorageChatAdapter.Context)
    (data : LocalStorageChatAdapter.StorageData) :
  LocalStorageChatAdapter.hasWindow ctx = true ->
  LocalStorageChatAdapter.setItemThrows ctx = false ->
  exists ctx',
    LocalStorageChatAdapter.saveAll data ctx = (Ok tt, ctx') /\
    LocalStorageChatAdapter.getAll ctx' = data /\
    LocalStorageChatAdapter.hasWindow ctx' = true /\
    LocalStorageChatAdapter.setItemThrows ctx' = false.
Proof.
  intros Hwin Hquota. unfold LocalStorageChatAdapter.saveAll.
  rewrite Hwin, Hquota. simpl. eexists. split; [reflexivity |].
  unfold LocalStorageChatAdapter.getAll. simpl. rewrite Hwin. auto.
Qed.

(** C3, as amended.  The local [saveMessage] fails with NotFound, and
    changes nothing, when [getConversation] returns [null] for the id;
    when a conversation is stored under the id and the write goes
    through, [getMessages] returns the former messages followed by the
    message, and [updatedAt] is the time of the call.  The remote
    [saveMessage] creates no conversation and fails with the wrapped
    foreign-key error when no conversation has the id; when the insert is
    carried out, [getMessages] returns the conversation's messages in
    ascending timestamp order, the message among them, and last whenever
    its timestamp is later than those of the messages already stored; the
    conversation's [updated_at] is the time of the call when the second
    request is carried out too. *)
Theorem saveMessage_then_getMessages
    (conversationId : string) (m : Message.t) (now : Z) :
  (forall ctx,
      LocalStorageChatAdapter.getConversation conversationId ctx
      = LocalStorageChatAdapter.Null ->
      LocalStorageChatAdapter.saveMessage conversationId m now ctx
      = (Throw (ConversationNotFound conversationId), ctx) /\
      isNotFound (ConversationNotFound conversationId) = true) /\
  (forall ctx conv,
      LocalStorageChatAdapter.getConversation conversationId ctx
      = LocalStorageChatAdapter.Stored conv ->
      LocalStorageChatAdapter.setItemThrows ctx = false ->
      exists ctx' conv',
        LocalStorageChatAdapter.saveMessage conversationId m now ctx
        = (Ok tt, ctx') /\
        LocalStorageChatAdapter.getMessages conversationId ctx'
        = (Conversation.messages conv ++ [m])%list /\
        LocalStorageChatAdapter.getConversation conversationId ctx'
        = LocalStorageChatAdapter.Stored conv' /\
        Conversation.updatedAt conv' = now) /\
  (forall this fault2 db,
      existsb (Backend.messageHasId (Message.id m)) (Backend.messages db)
      = false ->
      existsb (Backend.conversationHasId conversationId)
              (Backend.conversations db) = false ->
      SupabaseChatAdapter.saveMessage this conversationId m now None fault2 db
      = (Throw (BackendFailed "save message"
                              (Backend.message Backend.foreignKeyViolation)),
         db)) /\
  (forall this fault2 db,
      existsb (Backend.messageHasId (Message.id m)) (Backend.messages db)
      = false ->
      existsb (Backend.conversationHasId conversationId)
              (Backend.conversations db) = true ->
      exists db' ms,
        SupabaseChatAdapter.saveMessage this conversationId m now None
                                        fault2 db = (Ok tt, db') /\
        map ConversationRow.id (Backend.conversations db')
        = map ConversationRow.id (Backend.conversations db) /\
        SupabaseChatAdapter.getMessages this conversationId None db'
        = (Ok ms, db') /\
        In (SupabaseChatAdapter.mapToMessage
              (SupabaseChatAdapter.messageRow conversationId m)) ms /\
        StronglySorted
          (fun a b => Message.timestamp a <= Message.timestamp b) ms /\
        ((forall row,
             In row (Backend.messages db) ->
             Backend.inConversation conversationId row = true ->
             MessageRow.created_at row < Message.timestamp m) ->
         exists earlier,
           ms = (earlier
                 ++ [SupabaseChatAdapter.mapToMessage
                       (SupabaseChatAdapter.messageRow conversationId m)])%list) /\
        (fault2 = None ->
         forall row,
           In row (Backend.conversations db') ->
           Backend.conversationHasId conversationId row = true ->
           ConversationRow.updated_at row = now)).
Proof.
  split; [| split; [| split]].
  - intros ctx Hnone. unfold LocalStorageChatAdapter.saveMessage.
    apply local_getConversation_null in Hnone as [Hnone Hown].
    now rewrite Hnone, Hown.
  - intros ctx conv Hsome Hquota.
    pose proof (local_conversation_needs_window _ _ _ Hsome) as Hwin.
    unfold LocalStorageChatAdapter.saveMessage.
    apply local_getConversation_stored in Hsome. rewrite Hsome.
    destruct (local_getAll_after_saveAll ctx
                {| LocalStorageChatAdapter.conversations :=
                     set conversationId
                         (LocalStorageChatAdapter.pushMessage conv m now)
                         (LocalStorageChatAdapter.conversations
                            (LocalStorageChatAdapter.getAll ctx)) |}
                Hwin Hquota) as (ctx' & Hsave & Hread & _).
    exists ctx', (LocalStorageChatAdapter.pushMessage conv m now).
    split; [exact Hsave |].
    unfold LocalStorageChatAdapter.getMessages,
      LocalStorageChatAdapter.getConversation.
    rewrite Hread. simpl. rewrite get_set_same. auto.
  - intros this fault2 db Hnew Hmissing.
    unfold SupabaseChatAdapter.saveMessage, Backend.insertMessage. simpl.
    now rewrite Hnew, Hmissing.
  - intros this fault2 db Hnew Hexists.
    unfold SupabaseChatAdapter.saveMessage, Backend.insertMessage. simpl.
    rewrite Hnew, Hexists.
    set (row := SupabaseChatAdapter.messageRow conversationId m).
    eexists. eexists. split; [reflexivity |].
    assert (Hin : Backend.inConversation conversationId row = true)
      by (unfold Backend.inConversation; simpl; apply String.eqb_refl).
    assert (Hmessages :
      Backend.messages
        (snd (Backend.updateConversations
                (fun r =>
                   {| ConversationRow.id := ConversationRow.id r;
                      ConversationRow.title := ConversationRow.title r;
                      ConversationRow.user_id := ConversationRow.user_id r;
                      ConversationRow.created_at :=
                        ConversationRow.created_at r;
                      ConversationRow.updated_at := now;
                      ConversationRow.metadata :=
                        ConversationRow.metadata r |})
                conversationId fault2
                {| Backend.conversations := Backend.conversations db;
                   Backend.messages := (Backend.messages db ++ [row])%list |}))
      = (Backend.messages db ++ [row])%list)
      by (destruct fault2; reflexivity).
    split.
    { destruct fault2; simpl; auto. rewrite map_map. apply map_ext.
      intros r. now destruct (Backend.conversationHasId conversationId r). }
    unfold SupabaseChatAdapter.getMessages, Backend.selectMessages.
    rewrite Hmessages, filter_app. simpl. rewrite Hin.
    split; [reflexivity |]. split; [| split; [| split]].
    + apply in_map, sort_In, in_or_app. right. now left.
    + eapply StronglySorted_map;
        [| apply (sort_ascending MessageRow.created_at)].
      intros a b Hab. exact Hab.
    + intros Hlater. eexists.
      rewrite sort_last.
      * rewrite map_app. reflexivity.
      * intros y Hy. apply filter_In in Hy. destruct Hy as [Hy1 Hy2].
        specialize (Hlater y Hy1 Hy2). simpl. lia.
    + intros -> r Hr Hid. simpl in Hr. apply in_map_iff in Hr.
      destruct Hr as (r0 & Hr0 & _).
      destruct (Backend.conversationHasId conversationId r0) eqn:E.
      * now subst r.
      * subst r. congruence.
Qed.

Lemma saveMessage_then_getMessages_witness :
  LocalStorageChatAdapter.saveMessage "c-404" Sample.answer 3000
                                      Sample.afterQuestion
  = (Throw (ConversationNotFound "c-404"), Sample.afterQuestion) /\
  SupabaseChatAdapter.saveMessage Sample.alice "c-404" Sample.followUp 4000
                                  None None Sample.tenants
  = (Throw (BackendFailed "save message"
                          (Backend.message Backend.foreignKeyViolation)),
     Sample.tenants) /\
  (exists ctx',
      LocalStorageChatAdapter.saveMessage "c-1" Sample.answer 3000
                                          Sample.afterQuestion
      = (Ok tt, ctx') /\
      LocalStorageChatAdapter.getMessages "c-1" ctx'
      = [Sample.question; Sample.answer]) /\
  (exists db' ms earlier,
      SupabaseChatAdapter.saveMessage Sample.alice "c-1" Sample.followUp 4000
                                      None None Sample.tenants
      = (Ok tt, db') /\
      SupabaseChatAdapter.getMessages Sample.alice "c-1" None db'
      = (Ok ms, db') /\
      ms = (earlier
            ++ [SupabaseChatAdapter.mapToMessage
                  (SupabaseChatAdapter.messageRow "c-1" Sample.followUp)])%list).
Proof.
  split; [| split; [| split]].
  - destruct (saveMessage_then_getMessages "c-404" Sample.answer 3000)
      as (Hmissing & _).
    apply Hmissing. reflexivity.
  - destruct (saveMessage_then_getMessages "c-404" Sample.followUp 4000)
      as (_ & _ & Hmissing & _).
    apply Hmissing; reflexivity.
  - destruct (saveMessage_then_getMessages "c-1" Sample.answer 3000)
      as (_ & Hlocal & _).
    destruct (Hlocal Sample.afterQuestion _ eq_refl eq_refl)
      as (ctx' & conv' & Hsave & Hget & _).
    exists ctx'. split; [exact Hsave | exact Hget].
  - destruct (saveMessage_then_getMessages "c-1" Sample.followUp 4000)
      as (_ & _ & _ & Hremote).
    destruct (Hremote Sample.alice None Sample.tenants eq_refl eq_refl)
      as (db' & ms & Hsave & _ & Hget & _ & _ & Hlast & _).
    destruct Hlast as [earlier Hearlier].
    + intros row [<- | []] _. simpl. lia.
    + exists db', ms, earlier. auto.
Defined.

(** C3, as stated, fails on the remote adapter: a message whose timestamp
    is earlier than that of a stored message is saved, and [getMessages]
    returns it first, not last. *)
Lemma saveMessage_remote_earlier_message_is_not_last :
  exists db' ms,
    SupabaseChatAdapter.saveMessage Sample.alice "c-1" Sample.question 4000
                                    None None Sample.tenants
    = (Ok tt, db') /\
    SupabaseChatAdapter.getMessages Sample.alice "c-1" None db' = (Ok ms, db') /\
    map Message.id ms = ["m-1"; "m-2"] /\
    Message.id Sample.question = "m-1" /\
    option_map Message.id (nth_error ms (List.length ms - 1)) = Some "m-2".
Proof.
  eexists. eexists. repeat split; reflexivity.
Qed.

(** ** Updating a message *)

Section UpdateFacts.
Import LocalStorageChatAdapter.

Lemma assignFirst_none messageId updates messages :
  lacks messageId messages -> assignFirst messageId updates messages = None.
Proof.
  induction messages as [| x rest IH]; simpl; intros H; auto.
  unfold hasId. destruct (String.eqb (Message.id x) messageId) eqn:E.
  - apply String.eqb_eq in E. exfalso. apply (H x); [now left | exact E].
  - rewrite IH; auto. intros y Hy. apply H. now right.
Qed.

Lemma assignFirst_found messageId updates earlier m later :
  lacks messageId earlier ->
  Message.id m = messageId ->
  assignFirst messageId updates (earlier ++ m :: later)
  = Some (earlier ++ assignMessage m updates :: later)%list.
Proof.
  intros Hlacks Hid. induction earlier as [| x rest IH]; simpl.
  - unfold hasId. rewrite Hid, String.eqb_refl. reflexivity.
  - unfold hasId at 1. destruct (String.eqb (Message.id x) messageId) eqn:E.
    + apply String.eqb_eq in E. exfalso.
      apply (Hlacks x); [now left | exact E].
    + rewrite IH; auto. intros y Hy. apply Hlacks. now right.
Qed.

Lemma updateFirst_none messageId updates now convs :
  (forall conv, In conv (values convs) ->
                lacks messageId (Conversation.messages conv)) ->
  updateFirst messageId updates now convs = None.
Proof.
  induction convs as [| [k conv] rest IH]; simpl; intros H; auto.
  rewrite assignFirst_none by (apply H; now left).
  rewrite IH; [reflexivity | intros c Hc; apply H; now right].
Qed.

Lemma updateFirst_found messageId updates now front k conv back earlier m later :
  (forall c, In c (values front) -> lacks messageId (Conversation.messages c)) ->
  Conversation.messages conv = (earlier ++ m :: later)%list ->
  lacks messageId earlier ->
  Message.id m = messageId ->
  updateFirst messageId updates now (front ++ (k, conv) :: back)%list
  = Some (front
          ++ (k, withMessages conv
                   (earlier ++ assignMessage m updates :: later) now)
          :: back)%list.
Proof.
  intros Hfront Hmessages Hearlier Hid.
  induction front as [| [k0 c0] rest IH]; simpl.
  - rewrite Hmessages, assignFirst_found; auto.
  - rewrite assignFirst_none by (apply Hfront; now left).
    rewrite IH; [reflexivity | intros c Hc; apply Hfront; now right].
Qed.

End UpdateFacts.

(** C2, as amended.  [updateMessage] writes the supplied [content] and
    [metadata] over the stored ones and keeps what is not supplied; an
    update that supplies neither [id], [role] nor [timestamp] leaves them
    unchanged (the remote adapter never writes them); a supplied
    [metadata] takes the place of the stored bag.  On the local adapter
    the message updated is the first with the id in the first conversation
    that has one, and the call fails with NotFound when no stored message
    has the id. *)
Theorem updateMessage_overwrites_supplied_fields
    (messageId : string) (updates : PartialMessage.t) (now : Z) :
  (forall m,
      Message.content (assignMessage m updates)
      = orElse (PartialMessage.content updates) (Message.content m) /\
      Message.metadata (assignMessage m updates)
      = match PartialMessage.metadata updates with
        | Some supplied => Some supplied
        | None => Message.metadata m
        end /\
      (PartialMessage.id updates = None ->
       Message.id (assignMessage m updates) = Message.id m) /\
      (PartialMessage.role updates = None ->
       Message.role (assignMessage m updates) = Message.role m) /\
      (PartialMessage.timestamp updates = None ->
       Message.timestamp (assignMessage m updates) = Message.timestamp m)) /\
  (forall ctx front k conv back earlier m later,
      LocalStorageChatAdapter.conversations
        (LocalStorageChatAdapter.getAll ctx)
      = (front ++ (k, conv) :: back)%list ->
      (forall c, In c (values front) ->
                 lacks messageId (Conversation.messages c)) ->
      Conversation.messages conv = (earlier ++ m :: later)%list ->
      lacks messageId earlier ->
      Message.id m = messageId ->
      LocalStorageChatAdapter.setItemThrows ctx = false ->
      exists ctx',
        LocalStorageChatAdapter.updateMessage messageId updates now ctx
        = (Ok tt, ctx') /\
        LocalStorageChatAdapter.conversations
          (LocalStorageChatAdapter.getAll ctx')
        = (front
           ++ (k, LocalStorageChatAdapter.withMessages conv
                    (earlier ++ assignMessage m updates :: later) now)
           :: back)%list) /\
  (forall ctx,
      (forall conv,
          In conv (values (LocalStorageChatAdapter.conversations
                             (LocalStorageChatAdapter.getAll ctx))) ->
          lacks messageId (Conversation.messages conv)) ->
      LocalStorageChatAdapter.updateMessage messageId updates now ctx
      = (Throw (MessageNotFound messageId), ctx) /\
      isNotFound (MessageNotFound messageId) = true) /\
  (forall this db,
      exists db',
        SupabaseChatAdapter.updateMessage this messageId updates None db
        = (Ok tt, db') /\
        Backend.conversations db' = Backend.conversations db /\
        (forall i row,
            nth_error (Backend.messages db) i = Some row ->
            exists row',
              nth_error (Backend.messages db') i = Some row' /\
              MessageRow.id row' = MessageRow.id row /\
              MessageRow.conversation_id row'
              = MessageRow.conversation_id row /\
              MessageRow.role row' = MessageRow.role row /\
              MessageRow.created_at row' = MessageRow.created_at row /\
              (Backend.messageHasId messageId row = false -> row' = row) /\
              (Backend.messageHasId messageId row = true ->
               MessageRow.content row'
               = orElse (PartialMessage.content updates)
                        (MessageRow.content row) /\
               MessageRow.metadata row'
               = match PartialMessage.metadata updates with
                 | Some supplied => Some supplied
                 | None => MessageRow.metadata row
                 end))).
Proof.
  split; [| split; [| split]].
  - intros m. simpl.
    repeat split; try reflexivity; intros Habsent; now rewrite Habsent.
  - intros ctx front k conv back earlier m later
           Hdoc Hfront Hmessages Hearlier Hid Hquota.
    assert (Hwin : LocalStorageChatAdapter.hasWindow ctx = true).
    { unfold LocalStorageChatAdapter.getAll in Hdoc.
      destruct (LocalStorageChatAdapter.hasWindow ctx); auto.
      simpl in Hdoc. now destruct front. }
    unfold LocalStorageChatAdapter.updateMessage.
    rewrite Hdoc.
    rewrite (updateFirst_found messageId updates now front k conv back
                               earlier m later Hfront Hmessages Hearlier Hid).
    destruct (local_getAll_after_saveAll ctx
                {| LocalStorageChatAdapter.conversations :=
                     (front
                      ++ (k, LocalStorageChatAdapter.withMessages conv
                               (earlier ++ assignMessage m updates :: later)
                               now)
                      :: back)%list |}
                Hwin Hquota) as (ctx' & Hsave & Hread & _).
    exists ctx'. split; [exact Hsave |]. now rewrite Hread.
  - intros ctx Hnone. unfold LocalStorageChatAdapter.updateMessage.
    now rewrite updateFirst_none.
  - intros this db. eexists. split; [reflexivity |]. split; [reflexivity |].
    intros i row Hrow. simpl.
    rewrite nth_error_map, Hrow. simpl.
    eexists. split; [reflexivity |].
    destruct (Backend.messageHasId messageId row); simpl;
      repeat split; auto; discriminate.
Qed.

Lemma updateMessage_overwrites_supplied_fields_witness :
  exists ctx',
    LocalStorageChatAdapter.updateMessage "m-2" Sample.errorOnly 4000
                                          Sample.afterScenario
    = (Ok tt, ctx') /\
    LocalStorageChatAdapter.getMessages "c-1" ctx'
    = [Sample.question; assignMessage Sample.answer Sample.errorOnly] /\
    Message.id (assignMessage Sample.answer Sample.errorOnly) = "m-2" /\
    LocalStorageChatAdapter.updateMessage "m-9" Sample.errorOnly 4000
                                          Sample.afterScenario
    = (Throw (MessageNotFound "m-9"), Sample.afterScenario) /\
    (exists db' row',
        SupabaseChatAdapter.updateMessage Sample.alice "m-2" Sample.errorOnly
                                          None Sample.tenants
        = (Ok tt, db') /\
        nth_error (Backend.messages db') 0 = Some row' /\
        MessageRow.id row' = "m-2" /\
        MessageRow.metadata row' = PartialMessage.metadata Sample.errorOnly).
Proof.
  destruct (updateMessage_overwrites_supplied_fields
              "m-2" Sample.errorOnly 4000) as (Hfields & Hfound & _ & Hremote).
  destruct (updateMessage_overwrites_supplied_fields
              "m-9" Sample.errorOnly 4000) as (_ & _ & Hmissing & _).
  destruct (Hfound Sample.afterScenario [] "c-1"
                   (LocalStorageChatAdapter.pushMessage
                      (LocalStorageChatAdapter.pushMessage
                         {| Conversation.id := "c-1";
                            Conversation.title := Some "Trip Planning";
                            Conversation.messages := [];
                            Conversation.createdAt := 1000;
                            Conversation.updatedAt := 1000;
                            Conversation.metadata :=
                              Some {| Conversation.totalTokens := Some 0;
                                      Conversation.messageCount := Some 0;
                                      Conversation.userId := None |} |}
                         Sample.question 2000)
                      Sample.answer 3000)
                   [] [Sample.question] Sample.answer [])
    as (ctx' & Hupdate & Hdoc).
  - reflexivity.
  - intros c [].
  - reflexivity.
  - intros x [<- | []]. discriminate.
  - reflexivity.
  - reflexivity.
  - exists ctx'. split; [exact Hupdate |]. split; [| split; [| split]].
    + unfold LocalStorageChatAdapter.getMessages. rewrite Hdoc. reflexivity.
    + destruct (Hfields Sample.answer) as (_ & _ & Hid & _).
      now rewrite Hid.
    + apply Hmissing. intros conv [<- | []] x [<- | [<- | []]]; discriminate.
    + destruct (Hremote Sample.alice Sample.tenants)
        as (db' & Hremote_update & _ & Hrows).
      destruct (Hrows 0%nat _ eq_refl)
        as (row' & Hrow' & Hid & _ & _ & _ & _ & Hwritten).
      destruct (Hwritten eq_refl) as [_ Hmetadata].
      exists db', row'. auto.
Defined.

(** C2, as stated, fails: an update that supplies a metadata bag holding
    an [error] only replaces the stored bag of the answer, whose [tokens]
    and [model] are gone; the merged bag would have kept them. *)
Lemma updateMessage_replaces_the_metadata_bag :
  exists ctx' updated,
    LocalStorageChatAdapter.updateMessage "m-2" Sample.errorOnly 4000
                                          Sample.afterScenario
    = (Ok tt, ctx') /\
    nth_error (LocalStorageChatAdapter.getMessages "c-1" ctx') 1
    = Some updated /\
    Message.metadata updated = PartialMessage.metadata Sample.errorOnly /\
    option_map Message.tokens (Message.metadata updated) = Some None /\
    option_map Message.tokens
      (option_map (mergedMetadata (Message.metadata Sample.answer))
                  (PartialMessage.metadata Sample.errorOnly))
    = Some (Some 42) /\
    Message.metadata updated
    <> option_map (mergedMetadata (Message.metadata Sample.answer))
                  (PartialMessage.metadata Sample.errorOnly).
Proof.
  eexists. eexists. split; [reflexivity |]. split; [reflexivity |].
  split; [reflexivity |]. split; [reflexivity |]. split; [reflexivity |].
  discriminate.
Qed.

(** ** The counters of a conversation *)

Lemma sumTokens_app (l1 l2 : list Message.t) :
  sumTokens (l1 ++ l2) = sumTokens l1 + sumTokens l2.
Proof.
  induction l1 as [| x rest IH]; simpl; [reflexivity |].
  fold (sumTokens (rest ++ l2)). fold (sumTokens rest). lia.
Qed.

(** The local [saveMessage] keeps counters that were right. *)
Lemma pushMessage_keeps_counters (conv : Conversation.t) (m : Message.t)
    (now : Z) (md : Conversation.Metadata) :
  Conversation.metadata conv = Some md ->
  Conversation.totalTokens md = Some (sumTokens (Conversation.messages conv)) ->
  countersAgree (LocalStorageChatAdapter.pushMessage conv m now) = true.
Proof.
  intros Hmd Htotal. unfold countersAgree. simpl. rewrite Hmd, Htotal.
  apply andb_true_intro. split.
  - apply Z.eqb_eq. rewrite sumTokens_app. simpl. unfold tokensOf, orZero.
    simpl. lia.
  - apply Z.eqb_eq. reflexivity.
Qed.

(** C1.  The scenario of the specification holds on the local adapter:
    after "Trip Planning" is created and the question and the answer (42
    tokens) are saved, the counters are 42 and 2.  But the local
    [deleteMessage] does not touch them: once the answer is deleted the
    conversation has one message and no tokens, and its counters still
    say 2 and 42. *)
Theorem deleteMessage_leaves_the_counters :
  (exists conv,
      LocalStorageChatAdapter.getConversation "c-1" Sample.afterScenario
      = LocalStorageChatAdapter.Stored conv /\
      Conversation.metadata conv
      = Some {| Conversation.totalTokens := Some 42;
                Conversation.messageCount := Some 2;
                Conversation.userId := None |} /\
      countersAgree conv = true) /\
  (exists ctx' conv',
      LocalStorageChatAdapter.deleteMessage "m-2" 4000 Sample.afterScenario
      = (Ok tt, ctx') /\
      LocalStorageChatAdapter.getConversation "c-1" ctx'
      = LocalStorageChatAdapter.Stored conv' /\
      Conversation.messages conv' = [Sample.question] /\
      sumTokens (Conversation.messages conv') = 0 /\
      Conversation.metadata conv'
      = Some {| Conversation.totalTokens := Some 42;
                Conversation.messageCount := Some 2;
                Conversation.userId := None |} /\
      countersAgree conv' = false).
Proof.
  split.
  - eexists. repeat split; reflexivity.
  - eexists. eexists. repeat split; reflexivity.
Qed.

(** The remote [saveMessage] writes [updated_at] only: the same scenario
    on the remote adapter ends with two messages and both counters at 0. *)
Lemma remote_saveMessage_leaves_the_counters :
  let db1 := snd (SupabaseChatAdapter.createConversation
                    Sample.alice (Some "Trip Planning") "c-1" 1000 None
                    Sample.emptyDatabase) in
  let db2 := snd (SupabaseChatAdapter.saveMessage
                    Sample.alice "c-1" Sample.question 2000 None None db1) in
  let db3 := snd (SupabaseChatAdapter.saveMessage
                    Sample.alice "c-1" Sample.answer 3000 None None db2) in
  exists conv,
    SupabaseChatAdapter.getConversation Sample.alice "c-1" None db3
    = (Ok (Some conv), db3) /\
    map Message.id (Conversation.messages conv) = ["m-1"; "m-2"] /\
    Conversation.metadata conv
    = Some {| Conversation.totalTokens := Some 0;
              Conversation.messageCount := Some 0;
              Conversation.userId := None |} /\
    countersAgree conv = false.
Proof.
  eexists. repeat split; reflexivity.
Qed.

(** ** Listing conversations *)

(** C8, as amended.  The local [listConversations] returns the stored
    conversations sorted by [updatedAt] descending; after an
    [updateConversation] that goes through at a time later than every
    stored [updatedAt], the updated conversation is the first element of
    the next [listConversations]. *)
Theorem listConversations_most_recent_first
    (ctx : LocalStorageChatAdapter.Context) :
  StronglySorted notOlder (LocalStorageChatAdapter.listConversations ctx) /\
  Permutation
    (values (LocalStorageChatAdapter.conversations
               (LocalStorageChatAdapter.getAll ctx)))
    (LocalStorageChatAdapter.listConversations ctx) /\
  (forall conversationId updates now conv,
      LocalStorageChatAdapter.getConversation conversationId ctx
      = LocalStorageChatAdapter.Stored conv ->
      LocalStorageChatAdapter.setItemThrows ctx = false ->
      (forall c,
          In c (values (LocalStorageChatAdapter.conversations
                          (LocalStorageChatAdapter.getAll ctx))) ->
          Conversation.updatedAt c < now) ->
      exists ctx' rest,
        LocalStorageChatAdapter.updateConversation conversationId updates
                                                   now ctx = (Ok tt, ctx') /\
        LocalStorageChatAdapter.listConversations ctx'
        = LocalStorageChatAdapter.touch (assignConversation conv updates) now
          :: rest).
Proof.
  split; [| split].
  - apply (sort_descending Conversation.updatedAt).
  - apply sort_perm.
  - intros conversationId updates now conv Hsome Hquota Hlater.
    pose proof (local_conversation_needs_window _ _ _ Hsome) as Hwin.
    unfold LocalStorageChatAdapter.updateConversation.
    apply local_getConversation_stored in Hsome. rewrite Hsome.
    set (conv' := LocalStorageChatAdapter.touch
                    (assignConversation conv updates) now).
    destruct (local_getAll_after_saveAll ctx
                {| LocalStorageChatAdapter.conversations :=
                     set conversationId conv'
                         (LocalStorageChatAdapter.conversations
                            (LocalStorageChatAdapter.getAll ctx)) |}
                Hwin Hquota) as (ctx' & Hsave & Hread & _).
    destruct (values_set conversationId conv'
                (LocalStorageChatAdapter.conversations
                   (LocalStorageChatAdapter.getAll ctx)))
      as (front & back & Hvalues & Hold).
    destruct (sort_first LocalStorageChatAdapter.byUpdatedAtDescending
                         front conv' back) as [rest Hrest].
    + intros y Hy. unfold LocalStorageChatAdapter.byUpdatedAtDescending.
      simpl. specialize (Hlater y (Hold y (or_introl Hy))). lia.
    + intros y Hy. unfold LocalStorageChatAdapter.byUpdatedAtDescending.
      simpl. specialize (Hlater y (Hold y (or_intror Hy))). lia.
    + exists ctx', rest. split; [exact Hsave |].
      unfold LocalStorageChatAdapter.listConversations.
      rewrite Hread. simpl. rewrite Hvalues. exact Hrest.
Qed.

Lemma listConversations_most_recent_first_witness :
  exists ctx' rest,
    LocalStorageChatAdapter.updateConversation
      "c-2" (Sample.rename "Second, renamed") 1001 Sample.twoConversations
    = (Ok tt, ctx') /\
    map Conversation.id (LocalStorageChatAdapter.listConversations ctx')
    = "c-2" :: map Conversation.id rest.
Proof.
  destruct (listConversations_most_recent_first Sample.twoConversations)
    as (_ & _ & Hfront).
  destruct (Hfront "c-2" (Sample.rename "Second, renamed") 1001 _
                   eq_refl eq_refl) as (ctx' & rest & Hupdate & Hlist).
  - intros c [<- | [<- | []]]; simpl; lia.
  - exists ctx', rest. split; [exact Hupdate |]. now rewrite Hlist.
Defined.

(** C8, as stated, fails on the local adapter: of two conversations
    created in the same millisecond, the second is updated within that
    millisecond, and the next [listConversations] still returns the first
    one in front. *)
Lemma updateConversation_within_the_same_millisecond :
  exists ctx',
    LocalStorageChatAdapter.updateConversation
      "c-2" (Sample.rename "Second, renamed") 1000 Sample.twoConversations
    = (Ok tt, ctx') /\
    map Conversation.id (LocalStorageChatAdapter.listConversations ctx')
    = ["c-1"; "c-2"] /\
    StronglySorted notOlder (LocalStorageChatAdapter.listConversations ctx').
Proof.
  eexists. split; [reflexivity |]. split; [reflexivity |].
  apply (sort_descending Conversation.updatedAt).
Qed.

(** The remote [listConversations] hands [mapToConversation] to [map]
    without its receiver: whenever the select returns a row, the call
    throws a TypeError. *)
Lemma remote_listConversations_throws
    (this : SupabaseChatAdapter.Adapter) (db : Backend.Database)
    (row : Backend.Joined) (rows : list Backend.Joined) :
  Backend.selectConversations (SupabaseChatAdapter.boundUser this) None db
  = (Backend.Data (row :: rows), db) ->
  SupabaseChatAdapter.listConversations this None db
  = (Throw (TypeError
              "Cannot read properties of undefined (reading 'mapToMessage')"),
     db).
Proof.
  intros Hrows. unfold SupabaseChatAdapter.listConversations.
  rewrite Hrows. reflexivity.
Qed.

(** ** Retry with backoff *)

Section RetryFacts.
Context {W T : Type}.
Variable sleep : Z -> W -> W.
Variable fn : @Operation W T.
Variable opts : Required.RetryOptions.

Lemma invocations_cons_invoked (log : list Event) :
  invocations (Invoked :: log) = S (invocations log).
Proof. reflexivity. Qed.

Lemma invocations_cons_slept (d : Z) (log : list Event) :
  invocations (Slept d :: log) = invocations log.
Proof. reflexivity. Qed.

Lemma attemptsWithBackoff_more first n :
  attemptsWithBackoff opts first (S (S n))
  = Invoked :: Slept (backoffDelay opts first)
    :: attemptsWithBackoff opts (first + 1) (S n).
Proof. reflexivity. Qed.

Lemma invocations_single : invocations [Invoked] = 1%nat.
Proof. reflexivity. Qed.

(** One iteration of the loop. *)
Lemma retryLoop_iteration remaining attempt lastError w :
  retryLoop sleep fn opts (S remaining) attempt lastError w
  = match fn w with
    | (Returned value, w1) => (Returned value, w1, [Invoked])
    | (Threw error, w1) =>
        if negb (Required.shouldRetry opts error)
        then (Threw error, w1, [Invoked])
        else
          let '(w2, slept) :=
            if attempt <? Required.maxRetries opts - 1
            then (sleep (backoffDelay opts attempt) w1,
                  [Slept (backoffDelay opts attempt)])
            else (w1, []) in
          let '(outcome, w3, log) :=
            retryLoop sleep fn opts remaining (attempt + 1)
                      (Some (asError error)) w2 in
          (outcome, w3, (Invoked :: slept ++ log)%list)
    end.
Proof. reflexivity. Qed.

(** An iteration of the loop calls the operation. *)
Lemma retryLoop_invokes remaining attempt lastError w :
  (1 <= invocations (snd (retryLoop sleep fn opts (S remaining) attempt
                                    lastError w)))%nat.
Proof.
  rewrite retryLoop_iteration.
  destruct (fn w) as [[value | error] w1];
    [cbn [snd]; rewrite invocations_single; lia |].
  destruct (negb (Required.shouldRetry opts error));
    [cbn [snd]; rewrite invocations_single; lia |].
  destruct (attempt <? Required.maxRetries opts - 1);
    destruct (retryLoop sleep fn opts remaining (attempt + 1)
                        (Some (asError error)) _) as [[outcome w3] log];
    cbn [snd]; rewrite invocations_cons_invoked; lia.
Qed.

(** The calls and the waits of the loop alternate, each wait computed from
    the index of the attempt that has just failed; the loop ends on a
    call. *)
Lemma retryLoop_log remaining attempt lastError w :
  Z.of_nat remaining = Required.maxRetries opts - attempt ->
  let log := snd (retryLoop sleep fn opts remaining attempt lastError w) in
  log = attemptsWithBackoff opts attempt (invocations log) /\
  (invocations log <= remaining)%nat.
Proof.
  revert attempt lastError w.
  induction remaining as [| remaining IH]; intros attempt lastError w Hleft.
  - cbn. auto.
  - cbn zeta. rewrite retryLoop_iteration.
    destruct (fn w) as [[value | error] w1];
      [cbn [snd]; rewrite invocations_single; split; [reflexivity | lia] |].
    destruct (negb (Required.shouldRetry opts error));
      [cbn [snd]; rewrite invocations_single; split; [reflexivity | lia] |].
    destruct (attempt <? Required.maxRetries opts - 1) eqn:Hmore.
    + apply Z.ltb_lt in Hmore.
      destruct remaining as [| remaining']; [lia |].
      pose proof (retryLoop_invokes remaining' (attempt + 1)
                    (Some (asError error))
                    (sleep (backoffDelay opts attempt) w1)) as Hone.
      specialize (IH (attempt + 1) (Some (asError error))
                     (sleep (backoffDelay opts attempt) w1)).
      destruct (retryLoop sleep fn opts (S remaining') (attempt + 1)
                          (Some (asError error))
                          (sleep (backoffDelay opts attempt) w1))
        as [[outcome w3] log].
      cbn [snd] in *. cbn [app].
      rewrite invocations_cons_invoked, invocations_cons_slept.
      destruct IH as [IHlog IHcount]; [lia |]. split; [| lia].
      destruct (invocations log) as [| n] eqn:Hn; [lia |].
      rewrite attemptsWithBackoff_more. now rewrite <- IHlog.
    + apply Z.ltb_ge in Hmore.
      destruct remaining as [| remaining']; [| lia].
      cbn [retryLoop snd app]. rewrite invocations_single.
      split; [reflexivity | lia].
Qed.

Lemma waits_attemptsWithBackoff first n :
  waits (attemptsWithBackoff opts first n)
  = map (fun i => backoffDelay opts (first + Z.of_nat i)) (seq 0 (n - 1)).
Proof.
  revert first. induction n as [| n IH]; intros first; [reflexivity |].
  destruct n as [| n']; [reflexivity |].
  rewrite attemptsWithBackoff_more.
  change (waits (Invoked :: Slept (backoffDelay opts first)
                 :: attemptsWithBackoff opts (first + 1) (S n')))
    with (backoffDelay opts first
          :: waits (attemptsWithBackoff opts (first + 1) (S n'))).
  rewrite IH.
  replace (S (S n') - 1)%nat with (S (S n' - 1)) by lia.
  simpl seq. simpl map. rewrite Z.add_0_r. f_equal.
  rewrite <- seq_shift, map_map. apply map_ext. intros i.
  f_equal. lia.
Qed.

End RetryFacts.

Lemma attemptsWithBackoff_ends_on_call (opts : Required.RetryOptions)
    (first : Z) (n : nat) :
  last (attemptsWithBackoff opts first n) Invoked = Invoked.
Proof.
  revert first. induction n as [| n IH]; intros first; [reflexivity |].
  destruct n as [| n']; [reflexivity |].
  rewrite attemptsWithBackoff_more.
  specialize (IH (first + 1)).
  assert (Hcall : attemptsWithBackoff opts (first + 1) (S n') <> [])
    by (destruct n'; discriminate).
  destruct (attemptsWithBackoff opts (first + 1) (S n')) eqn:E;
    [contradiction | exact IH].
Qed.

(** *** The caller's options *)



Lemma merged_delay (options : RetryOptions) (i : Z) :
  backoffDelay (mergeOptions options) i = waitAfter options i.
Proof. reflexivity. Qed.

Lemma schedule_merged (options : RetryOptions) (first : Z) (n : nat) :
  attemptsWithBackoff (mergeOptions options) first n
  = schedule options first n.
Proof.
  revert first. induction n as [| n IH]; intros first; [reflexivity |].
  destruct n as [| n']; [reflexivity |].
  change (attemptsWithBackoff (mergeOptions options) first (S (S n')))
    with (Invoked :: Slept (backoffDelay (mergeOptions options) first)
          :: attemptsWithBackoff (mergeOptions options) (first + 1) (S n')).
  change (schedule options first (S (S n')))
    with (Invoked :: Slept (waitAfter options first)
          :: schedule options (first + 1) (S n')).
  now rewrite IH, merged_delay.
Qed.

Lemma schedule_ends_on_call (options : RetryOptions) (first : Z) (n : nat) :
  last (schedule options first n) Invoked = Invoked.
Proof.
  rewrite <- schedule_merged. apply attemptsWithBackoff_ends_on_call.
Qed.


Section ObservedRun.
Context {W T : Type}.
Variable sleep : Z -> W -> W.
Variable fn : @Operation W T.





End ObservedRun.






(** ** The circuit breaker *)

Section BreakerFacts.
Import CircuitBreaker.

(** The state that [execute] leaves is the one of [step]. *)
Lemma execute_step {W T : Type} (this : t) (fn : W -> Outcome T * W)
    (now failedAt : Z) (w : W) :
  fst (fst (fst (execute this fn now failedAt w)))
  = step this (Execute (succeeded (fst (fn w))) now failedAt).
Proof.
  unfold execute, step. destruct (gate this now); [| reflexivity].
  destruct (fn w) as [[value | error] w1]; reflexivity.
Qed.

Lemma reachable_run threshold timeout this calls :
  reachable threshold timeout this ->
  reachable threshold timeout (run this calls).
Proof.
  revert this. induction calls as [| c calls IH]; intros this H; [exact H |].
  apply IH. now constructor.
Qed.

(** Between two calls a breaker is closed or open, and an open breaker
    has counted at least [threshold] failures. *)
Lemma reachable_invariant threshold0 timeout0 this :
  reachable threshold0 timeout0 this ->
  state this <> half_open /\
  (state this = open -> threshold this <= failures this).
Proof.
  induction 1 as [| this c Hreach [IHstate IHopen]].
  - simpl. split; [discriminate | discriminate].
  - destruct c as [succeeds now failedAt |]; simpl.
    + unfold gate. destruct (state this) eqn:Hstate.
      * destruct succeeds; simpl; [split; discriminate |].
        rewrite Hstate.
        destruct (failures this + 1 >=? threshold this) eqn:E;
          split; try discriminate; intros _; apply Z.geb_le in E; lia.
      * destruct (now - lastFailureTime this >? timeout this).
        -- destruct succeeds; simpl; [split; discriminate |].
           specialize (IHopen eq_refl).
           replace (failures this + 1 >=? threshold this) with true
             by (symmetry; apply Z.geb_le; lia).
           split; [discriminate | intros _; lia].
        -- rewrite Hstate. split; [discriminate | intros _; auto].
      * contradiction.
    + split; discriminate.
Qed.

(** Failures in a row are counted while the breaker is closed, and the
    one that brings the count to [threshold] opens it. *)
Lemma failures_in_a_row this calls :
  state this = closed ->
  forallb isFailure calls = true ->
  (failures this + Z.of_nat (List.length calls) < threshold this ->
   state (run this calls) = closed /\
   failures (run this calls) = failures this + Z.of_nat (List.length calls)) /\
  (calls <> [] ->
   failures this + Z.of_nat (List.length calls) = threshold this ->
   state (run this calls) = open).
Proof.
  revert this. induction calls as [| c calls IH]; intros this Hclosed Hfail.
  - split; [intros _; simpl; split; [exact Hclosed | lia] | congruence].
  - simpl in Hfail. apply andb_true_iff in Hfail. destruct Hfail as [Hc Hrest].
    destruct c as [succeeds now failedAt |]; [| discriminate].
    destruct succeeds; [discriminate |].
    change (run this (Execute false now failedAt :: calls))
      with (run (step this (Execute false now failedAt)) calls).
    assert (Hstep : step this (Execute false now failedAt)
                    = onFailure this failedAt)
      by (unfold step, gate; now rewrite Hclosed).
    rewrite Hstep.
    change (List.length (Execute false now failedAt :: calls))
      with (S (List.length calls)).
    rewrite Nat2Z.inj_succ.
    split.
    + intros Hbelow.
      assert (Hstay : state (onFailure this failedAt) = closed).
      { simpl. rewrite Hclosed.
        destruct (failures this + 1 >=? threshold this) eqn:E; auto.
        apply Z.geb_le in E. lia. }
      destruct (IH (onFailure this failedAt) Hstay Hrest) as [IHbelow _].
      change (failures (onFailure this failedAt)) with (failures this + 1)
        in IHbelow.
      change (threshold (onFailure this failedAt)) with (threshold this)
        in IHbelow.
      destruct IHbelow as [IHs IHf]; [lia |]. split; [exact IHs | lia].
    + intros _ Hreach.
      destruct calls as [| c' calls'].
      * simpl. replace (failures this + 1 >=? threshold this) with true
          by (symmetry; apply Z.geb_le; simpl in Hreach; lia).
        reflexivity.
      * assert (Hstay : state (onFailure this failedAt) = closed).
        { simpl. rewrite Hclosed.
          destruct (failures this + 1 >=? threshold this) eqn:E; auto.
          apply Z.geb_le in E.
          change (List.length (c' :: calls')) with (S (List.length calls'))
            in Hreach. lia. }
        destruct (IH (onFailure this failedAt) Hstay Hrest) as [_ IHopen].
        apply IHopen; [discriminate |].
        change (failures (onFailure this failedAt)) with (failures this + 1).
        change (threshold (onFailure this failedAt)) with (threshold this).
        lia.
Qed.

End BreakerFacts.

Lemma open_rejects (W T : Type) (this : CircuitBreaker.t) (now : Z) :
  CircuitBreaker.state this = CircuitBreaker.open ->
  now - CircuitBreaker.lastFailureTime this <= CircuitBreaker.timeout this ->
  rejectsAt W T this now.
Proof.
  intros Hopen Hearly fn failedAt w.
  unfold CircuitBreaker.execute, CircuitBreaker.gate. rewrite Hopen.
  replace (now - CircuitBreaker.lastFailureTime this
           >? CircuitBreaker.timeout this) with false
    by (symmetry; rewrite Z.gtb_ltb; apply Z.ltb_ge; lia).
  reflexivity.
Qed.

Lemma open_lets_through (W T : Type) (this : CircuitBreaker.t) (now : Z) :
  CircuitBreaker.state this = CircuitBreaker.open ->
  CircuitBreaker.timeout this < now - CircuitBreaker.lastFailureTime this ->
  letsThroughAt W T this now.
Proof.
  intros Hopen Helapsed fn failedAt w.
  unfold CircuitBreaker.execute, CircuitBreaker.gate. rewrite Hopen.
  replace (now - CircuitBreaker.lastFailureTime this
           >? CircuitBreaker.timeout this) with true
    by (symmetry; rewrite Z.gtb_ltb; apply Z.ltb_lt; lia).
  destruct (fn w) as [[value | e] w1]; eexists; reflexivity.
Qed.

Lemma closed_lets_through (W T : Type) (this : CircuitBreaker.t) (now : Z) :
  CircuitBreaker.state this = CircuitBreaker.closed ->
  letsThroughAt W T this now.
Proof.
  intros Hclosed fn failedAt w.
  unfold CircuitBreaker.execute, CircuitBreaker.gate. rewrite Hclosed.
  destruct (fn w) as [[value | e] w1]; eexists; reflexivity.
Qed.

(** C4.  For a breaker that a program can hold: failures in a row are
    counted while it is closed, each recording its time as
    [lastFailureTime], and the one that brings the count to [threshold]
    opens it, a success putting the count back to zero; from the failure
    at [failedAt] that opened the breaker on, a call made at a time with
    [later - failedAt <= timeout] throws the unavailable error without the
    wrapped operation being called, and a call made with
    [later - failedAt > timeout] goes through as the probe of a half-open
    breaker, which a success closes with the count at zero and a failure
    opens again, the cooldown starting anew from the time of that failure.
    [threshold] and [timeout] are never changed.  A sequence of calls is
    [run] one [execute] after the other. *)
Theorem circuit_breaker_transitions {W T : Type}
    (threshold0 timeout0 : option Z) (this : CircuitBreaker.t)
    (fn : W -> Outcome T * W) (now failedAt : Z) (w : W) :
  CircuitBreaker.reachable threshold0 timeout0 this ->
  (forall calls,
      CircuitBreaker.state this = CircuitBreaker.closed ->
      forallb CircuitBreaker.isFailure calls = true ->
      (CircuitBreaker.failures this + Z.of_nat (List.length calls)
       < CircuitBreaker.threshold this ->
       CircuitBreaker.state (CircuitBreaker.run this calls)
       = CircuitBreaker.closed /\
       CircuitBreaker.failures (CircuitBreaker.run this calls)
       = CircuitBreaker.failures this + Z.of_nat (List.length calls)) /\
      (calls <> [] ->
       CircuitBreaker.failures this + Z.of_nat (List.length calls)
       = CircuitBreaker.threshold this ->
       CircuitBreaker.state (CircuitBreaker.run this calls)
       = CircuitBreaker.open)) /\
  (CircuitBreaker.state this = CircuitBreaker.closed ->
   (forall e w1,
       fn w = (Threw e, w1) ->
       exists after,
         CircuitBreaker.execute this fn now failedAt w
         = (after, Threw e, w1, [Invoked]) /\
         CircuitBreaker.failures after = CircuitBreaker.failures this + 1 /\
         CircuitBreaker.lastFailureTime after = failedAt /\
         CircuitBreaker.threshold after = CircuitBreaker.threshold this /\
         CircuitBreaker.timeout after = CircuitBreaker.timeout this /\
         (CircuitBreaker.threshold this <= CircuitBreaker.failures this + 1 ->
          CircuitBreaker.state after = CircuitBreaker.open /\
          (forall later,
              later - failedAt <= CircuitBreaker.timeout this ->
              rejectsAt W T after later) /\
          (forall later,
              CircuitBreaker.timeout this < later - failedAt ->
              letsThroughAt W T after later)) /\
         (CircuitBreaker.failures this + 1 < CircuitBreaker.threshold this ->
          CircuitBreaker.state after = CircuitBreaker.closed /\
          forall later, letsThroughAt W T after later)) /\
   (forall value w1,
       fn w = (Returned value, w1) ->
       exists after,
         CircuitBreaker.execute this fn now failedAt w
         = (after, Returned value, w1, [Invoked]) /\
         CircuitBreaker.state after = CircuitBreaker.closed /\
         CircuitBreaker.failures after = 0 /\
         CircuitBreaker.lastFailureTime after
         = CircuitBreaker.lastFailureTime this /\
         CircuitBreaker.threshold after = CircuitBreaker.threshold this /\
         CircuitBreaker.timeout after = CircuitBreaker.timeout this)) /\
  (CircuitBreaker.state this = CircuitBreaker.open ->
   CircuitBreaker.timeout this < now - CircuitBreaker.lastFailureTime this ->
   (exists probe,
       CircuitBreaker.gate this now = Some probe /\
       CircuitBreaker.state probe = CircuitBreaker.half_open /\
       CircuitBreaker.failures probe = CircuitBreaker.failures this /\
       CircuitBreaker.lastFailureTime probe
       = CircuitBreaker.lastFailureTime this) /\
   (forall value w1,
       fn w = (Returned value, w1) ->
       exists after,
         CircuitBreaker.execute this fn now failedAt w
         = (after, Returned value, w1, [Invoked]) /\
         CircuitBreaker.state after = CircuitBreaker.closed /\
         CircuitBreaker.failures after = 0 /\
         CircuitBreaker.threshold after = CircuitBreaker.threshold this /\
         CircuitBreaker.timeout after = CircuitBreaker.timeout this /\
         forall later, letsThroughAt W T after later) /\
   (forall e w1,
       fn w = (Threw e, w1) ->
       exists after,
         CircuitBreaker.execute this fn now failedAt w
         = (after, Threw e, w1, [Invoked]) /\
         CircuitBreaker.state after = CircuitBreaker.open /\
         CircuitBreaker.failures after = CircuitBreaker.failures this + 1 /\
         CircuitBreaker.lastFailureTime after = failedAt /\
         CircuitBreaker.threshold after = CircuitBreaker.threshold this /\
         CircuitBreaker.timeout after = CircuitBreaker.timeout this /\
         (forall later,
             later - failedAt <= CircuitBreaker.timeout this ->
             rejectsAt W T after later) /\
         (forall later,
             CircuitBreaker.timeout this < later - failedAt ->
             letsThroughAt W T after later))) /\
  (CircuitBreaker.state this = CircuitBreaker.open ->
   now - CircuitBreaker.lastFailureTime this <= CircuitBreaker.timeout this ->
   CircuitBreaker.execute this fn now failedAt w
   = (this, Threw CircuitBreaker.unavailable, w, [])) /\
  fst (fst (fst (CircuitBreaker.execute this fn now failedAt w)))
  = CircuitBreaker.run
      this
      [CircuitBreaker.Execute (CircuitBreaker.succeeded (fst (fn w)))
                              now failedAt].
Proof.
  intros Hreach.
  destruct (reachable_invariant _ _ _ Hreach) as [_ Hcounted].
  split; [| split; [| split; [| split; [| apply execute_step]]]].
  - intros calls Hclosed Hfail. now apply failures_in_a_row.
  - intros Hclosed. split.
    + intros e w1 Hcall. exists (CircuitBreaker.onFailure this failedAt).
      unfold CircuitBreaker.execute, CircuitBreaker.gate.
      rewrite Hclosed, Hcall. split; [reflexivity |].
      do 4 (split; [reflexivity |]).
      split; intros Hcount.
      * assert (Hopen : CircuitBreaker.state
                          (CircuitBreaker.onFailure this failedAt)
                        = CircuitBreaker.open).
        { simpl.
          replace (CircuitBreaker.failures this + 1
                   >=? CircuitBreaker.threshold this) with true
            by (symmetry; apply Z.geb_le; lia).
          reflexivity. }
        split; [exact Hopen |]. split; intros later Hlater.
        -- apply open_rejects; [exact Hopen | exact Hlater].
        -- apply open_lets_through; [exact Hopen | exact Hlater].
      * assert (Hstay : CircuitBreaker.state
                          (CircuitBreaker.onFailure this failedAt)
                        = CircuitBreaker.closed).
        { simpl. rewrite Hclosed.
          replace (CircuitBreaker.failures this + 1
                   >=? CircuitBreaker.threshold this) with false
            by (symmetry; rewrite Z.geb_leb; apply Z.leb_gt; lia).
          reflexivity. }
        split; [exact Hstay |].
        intros later. now apply closed_lets_through.
    + intros value w1 Hcall. eexists.
      unfold CircuitBreaker.execute, CircuitBreaker.gate.
      rewrite Hclosed, Hcall. repeat split.
  - intros Hopen Helapsed.
    assert (Hgate : (now - CircuitBreaker.lastFailureTime this
                     >? CircuitBreaker.timeout this) = true)
      by (rewrite Z.gtb_ltb; apply Z.ltb_lt; lia).
    split; [| split].
    + eexists. unfold CircuitBreaker.gate. rewrite Hopen, Hgate.
      repeat split.
    + intros value w1 Hcall. eexists.
      unfold CircuitBreaker.execute, CircuitBreaker.gate.
      rewrite Hopen, Hgate, Hcall. split; [reflexivity |].
      do 4 (split; [reflexivity |]).
      intros later. now apply closed_lets_through.
    + intros e w1 Hcall. eexists.
      unfold CircuitBreaker.execute, CircuitBreaker.gate.
      rewrite Hopen, Hgate, Hcall. split; [reflexivity |].
      specialize (Hcounted Hopen).
      match goal with
      | |- CircuitBreaker.state ?b = _ /\ _ =>
          assert (Hagain : CircuitBreaker.state b = CircuitBreaker.open)
      end.
      { simpl.
        replace (CircuitBreaker.failures this + 1
                 >=? CircuitBreaker.threshold this) with true
          by (symmetry; apply Z.geb_le; lia).
        reflexivity. }
      split; [exact Hagain |].
      do 4 (split; [reflexivity |]).
      split; intros later Hlater.
      * apply open_rejects; [exact Hagain | exact Hlater].
      * apply open_lets_through; [exact Hagain | exact Hlater].
  - intros Hopen Hearly. now apply open_rejects.
Qed.

Lemma tripped_is_reachable :
  CircuitBreaker.reachable (Some 5) (Some 60000) Sample.tripped.
Proof. apply reachable_run. constructor. Qed.

(** Five failures in a row open a breaker of threshold 5; the call at
    time 1000 is rejected and the operation not called; the call at time
    60006 goes through, and its success closes the breaker; its failure,
    recorded at time 60010, opens the breaker again, and the call at time
    120010 is then rejected. *)
Lemma circuit_breaker_transitions_witness :
  CircuitBreaker.state Sample.tripped = CircuitBreaker.open /\
  CircuitBreaker.execute Sample.tripped Sample.healthy 1000 1000 0%nat
  = (Sample.tripped, Threw CircuitBreaker.unavailable, 0%nat, []) /\
  (exists after,
      CircuitBreaker.execute Sample.tripped Sample.healthy 60006 60006 0%nat
      = (after, Returned "done", 1%nat, [Invoked]) /\
      CircuitBreaker.state after = CircuitBreaker.closed /\
      CircuitBreaker.failures after = 0) /\
  (exists after,
      CircuitBreaker.execute Sample.tripped Sample.unreachable 60006 60010
                             0%nat
      = (after, Threw (ErrorObject (PlainError "fetch failed")), 1%nat,
         [Invoked]) /\
      CircuitBreaker.state after = CircuitBreaker.open /\
      CircuitBreaker.lastFailureTime after = 60010 /\
      CircuitBreaker.execute after Sample.healthy 120010 120010 1%nat
      = (after, Threw CircuitBreaker.unavailable, 1%nat, [])).
Proof.
  split; [| split; [| split]].
  - destruct (circuit_breaker_transitions
                (Some 5) (Some 60000)
                (CircuitBreaker.new (Some 5) (Some 60000))
                Sample.healthy 1 1 0%nat
                (CircuitBreaker.reachable_new (Some 5) (Some 60000)))
      as (Hrow & _).
    apply (Hrow [CircuitBreaker.Execute false 1 1;
                 CircuitBreaker.Execute false 2 2;
                 CircuitBreaker.Execute false 3 3;
                 CircuitBreaker.Execute false 4 4;
                 CircuitBreaker.Execute false 5 5]);
      [reflexivity | reflexivity | discriminate | reflexivity].
  - destruct (circuit_breaker_transitions
                (Some 5) (Some 60000) Sample.tripped
                Sample.healthy 1000 1000 0%nat tripped_is_reachable)
      as (_ & _ & _ & Hrejected & _).
    apply Hrejected; [reflexivity | cbn; lia].
  - destruct (circuit_breaker_transitions
                (Some 5) (Some 60000) Sample.tripped
                Sample.healthy 60006 60006 0%nat tripped_is_reachable)
      as (_ & _ & (_ & Hprobe & _) & _).
    + reflexivity.
    + cbn. lia.
    + destruct (Hprobe "done" 1%nat eq_refl)
        as (after & Hcall & Hstate & Hcount & _).
      exists after. auto.
  - destruct (circuit_breaker_transitions
                (Some 5) (Some 60000) Sample.tripped
                Sample.unreachable 60006 60010 0%nat tripped_is_reachable)
      as (_ & _ & (_ & _ & Hprobe) & _).
    + reflexivity.
    + cbn. lia.
    + destruct (Hprobe (ErrorObject (PlainError "fetch failed")) 1%nat
                       eq_refl)
        as (after & Hcall & Hstate & _ & Hlast & _ & _ & Hcooldown & _).
      exists after. split; [exact Hcall |]. split; [exact Hstate |].
      split; [exact Hlast |].
      apply (Hcooldown 120010). cbn. lia.
Defined.

(** * Further properties of the code *)

(** ** The local adapter: writes *)

Section LocalWrites.
Import LocalStorageChatAdapter.

(** What [saveAll] can do. *)
Lemma saveAll_cases (data : StorageData) (ctx : Context) :
  (hasWindow ctx = false /\ saveAll data ctx = (Ok tt, ctx)) \/
  (hasWindow ctx = true /\ setItemThrows ctx = true /\
   saveAll data ctx = (Throw SaveFailed, ctx)) \/
  (hasWindow ctx = true /\ setItemThrows ctx = false /\
   saveAll data ctx = (Ok tt, withItem ctx (Document data)) /\
   getAll (withItem ctx (Document data)) = data).
Proof.
  unfold saveAll, getAll.
  destruct (hasWindow ctx) eqn:Hwin; simpl; [| now left].
  right. destruct (setItemThrows ctx); [now left | right].
  repeat split. now rewrite Hwin.
Qed.

Lemma getAll_without_window (ctx : Context) :
  hasWindow ctx = false -> getAll ctx = emptyData.
Proof. intros H. unfold getAll. now rewrite H. Qed.

Lemma saveAll_throws_unchanged (data : StorageData) (ctx ctx' : Context)
    (e : StorageError) :
  saveAll data ctx = (Throw e, ctx') -> ctx' = ctx /\ e = SaveFailed.
Proof.
  destruct (saveAll_cases data ctx)
    as [[_ H] | [(_ & _ & H) | (_ & _ & H & _)]];
    rewrite H; intros Heq; inversion Heq; auto.
Qed.

Lemma findIndex_none messageId messages :
  lacks messageId messages -> findIndex (hasId messageId) messages = None.
Proof.
  induction messages as [| x rest IH]; simpl; intros H; auto.
  unfold hasId at 1. destruct (String.eqb (Message.id x) messageId) eqn:E.
  - apply String.eqb_eq in E. exfalso. apply (H x); [now left | exact E].
  - rewrite IH; auto. intros y Hy. apply H. now right.
Qed.

Lemma findIndex_found messageId earlier m later :
  lacks messageId earlier ->
  Message.id m = messageId ->
  findIndex (hasId messageId) (earlier ++ m :: later)
  = Some (List.length earlier).
Proof.
  intros Hlacks Hid. induction earlier as [| x rest IH]; simpl.
  - unfold hasId. now rewrite Hid, String.eqb_refl.
  - unfold hasId at 1. destruct (String.eqb (Message.id x) messageId) eqn:E.
    + apply String.eqb_eq in E. exfalso.
      apply (Hlacks x); [now left | exact E].
    + rewrite IH; auto. intros y Hy. apply Hlacks. now right.
Qed.

Lemma splice1_middle {A : Type} (earlier : list A) (m : A) (later : list A) :
  splice1 (List.length earlier) (earlier ++ m :: later) = (earlier ++ later)%list.
Proof.
  unfold splice1. induction earlier as [| x rest IH]; [reflexivity |].
  change (firstn (List.length (x :: rest)) ((x :: rest) ++ m :: later))
    with (x :: firstn (List.length rest) (rest ++ m :: later)).
  change (skipn (S (List.length (x :: rest))) ((x :: rest) ++ m :: later))
    with (skipn (S (List.length rest)) (rest ++ m :: later)).
  rewrite <- !app_comm_cons. now rewrite IH.
Qed.

Lemma deleteFirst_none messageId now convs :
  (forall conv, In conv (values convs) ->
                lacks messageId (Conversation.messages conv)) ->
  deleteFirst messageId now convs = None.
Proof.
  induction convs as [| [k conv] rest IH]; simpl; intros H; auto.
  rewrite findIndex_none by (apply H; now left).
  rewrite IH; [reflexivity | intros c Hc; apply H; now right].
Qed.

Lemma deleteFirst_found messageId now front k conv back earlier m later :
  (forall c, In c (values front) -> lacks messageId (Conversation.messages c)) ->
  Conversation.messages conv = (earlier ++ m :: later)%list ->
  lacks messageId earlier ->
  Message.id m = messageId ->
  deleteFirst messageId now (front ++ (k, conv) :: back)%list
  = Some (front ++ (k, withMessages conv (earlier ++ later) now) :: back)%list.
Proof.
  intros Hfront Hmessages Hearlier Hid.
  induction front as [| [k0 c0] rest IH]; simpl.
  - rewrite Hmessages, findIndex_found, splice1_middle; auto.
  - rewrite findIndex_none by (apply Hfront; now left).
    rewrite IH; [reflexivity | intros c Hc; apply Hfront; now right].
Qed.

(** The two loops over the conversations rewrite the messages and the
    [updatedAt] of one conversation and nothing else. *)
Lemma deleteFirst_keeps_metadata messageId now convs convs' :
  deleteFirst messageId now convs = Some convs' ->
  storedMetadata convs' = storedMetadata convs.
Proof.
  revert convs'. induction convs as [| [k conv] rest IH]; simpl;
    intros convs' H; [discriminate |].
  destruct (findIndex (hasId messageId) (Conversation.messages conv)).
  - inversion H. reflexivity.
  - destruct (deleteFirst messageId now rest) as [rest' |]; [| discriminate].
    inversion H. simpl. now rewrite (IH rest' eq_refl).
Qed.

Lemma updateFirst_keeps_metadata messageId updates now convs convs' :
  updateFirst messageId updates now convs = Some convs' ->
  storedMetadata convs' = storedMetadata convs.
Proof.
  revert convs'. induction convs as [| [k conv] rest IH]; simpl;
    intros convs' H; [discriminate |].
  destruct (assignFirst messageId updates (Conversation.messages conv)).
  - inversion H. reflexivity.
  - destruct (updateFirst messageId updates now rest) as [rest' |];
      [| discriminate].
    inversion H. simpl. now rewrite (IH rest' eq_refl).
Qed.

End LocalWrites.

(** X1.  The local [deleteMessage] removes the first message with the id
    from the first conversation that holds one: the messages around it
    keep their order, that conversation's [updatedAt] becomes the time of
    the call, and the conversations before and after it are as they were.
    When no stored message has the id the call fails with NotFound and the
    store is unchanged. *)
Theorem local_deleteMessage_removes_first_match
    (messageId : string) (now : Z) :
  (forall ctx front k conv back earlier m later,
      LocalStorageChatAdapter.conversations
        (LocalStorageChatAdapter.getAll ctx)
      = (front ++ (k, conv) :: back)%list ->
      (forall c, In c (values front) ->
                 lacks messageId (Conversation.messages c)) ->
      Conversation.messages conv = (earlier ++ m :: later)%list ->
      lacks messageId earlier ->
      Message.id m = messageId ->
      LocalStorageChatAdapter.setItemThrows ctx = false ->
      exists ctx',
        LocalStorageChatAdapter.deleteMessage messageId now ctx
        = (Ok tt, ctx') /\
        LocalStorageChatAdapter.conversations
          (LocalStorageChatAdapter.getAll ctx')
        = (front
           ++ (k, LocalStorageChatAdapter.withMessages conv
                    (earlier ++ later) now)
           :: back)%list) /\
  (forall ctx,
      (forall conv,
          In conv (values (LocalStorageChatAdapter.conversations
                             (LocalStorageChatAdapter.getAll ctx))) ->
          lacks messageId (Conversation.messages conv)) ->
      LocalStorageChatAdapter.deleteMessage messageId now ctx
      = (Throw (MessageNotFound messageId), ctx)).
Proof.
  split.
  - intros ctx front k conv back earlier m later
           Hdoc Hfront Hmessages Hearlier Hid Hquota.
    unfold LocalStorageChatAdapter.deleteMessage. rewrite Hdoc.
    rewrite (deleteFirst_found messageId now front k conv back earlier m later
                               Hfront Hmessages Hearlier Hid).
    destruct (saveAll_cases
                {| LocalStorageChatAdapter.conversations :=
                     (front
                      ++ (k, LocalStorageChatAdapter.withMessages conv
                               (earlier ++ later) now)
                      :: back)%list |} ctx)
      as [[Hwin _] | [(_ & Hthrows & _) | (_ & _ & Hsave & Hread)]].
    + rewrite (getAll_without_window ctx Hwin) in Hdoc. now destruct front.
    + congruence.
    + eexists. split; [exact Hsave |]. now rewrite Hread.
  - intros ctx Hnone. unfold LocalStorageChatAdapter.deleteMessage.
    now rewrite deleteFirst_none.
Qed.

Lemma local_deleteMessage_removes_first_match_witness :
  (exists ctx',
      LocalStorageChatAdapter.deleteMessage "m-1" 4000 Sample.afterScenario
      = (Ok tt, ctx') /\
      LocalStorageChatAdapter.getMessages "c-1" ctx' = [Sample.answer]) /\
  LocalStorageChatAdapter.deleteMessage "m-9" 4000 Sample.afterScenario
  = (Throw (MessageNotFound "m-9"), Sample.afterScenario).
Proof.
  split.
  - destruct (local_deleteMessage_removes_first_match "m-1" 4000)
      as [Hfound _].
    destruct (Hfound Sample.afterScenario [] "c-1"
                (LocalStorageChatAdapter.pushMessage
                   (LocalStorageChatAdapter.pushMessage
                      {| Conversation.id := "c-1";
                         Conversation.title := Some "Trip Planning";
                         Conversation.messages := [];
                         Conversation.createdAt := 1000;
                         Conversation.updatedAt := 1000;
                         Conversation.metadata :=
                           Some {| Conversation.totalTokens := Some 0;
                                   Conversation.messageCount := Some 0;
                                   Conversation.userId := None |} |}
                      Sample.question 2000)
                   Sample.answer 3000)
                [] [] Sample.question [Sample.answer])
      as (ctx' & Hdelete & Hdoc).
    + reflexivity.
    + intros c [].
    + reflexivity.
    + intros x [].
    + reflexivity.
    + reflexivity.
    + exists ctx'. split; [exact Hdelete |].
      unfold LocalStorageChatAdapter.getMessages. now rewrite Hdoc.
  - destruct (local_deleteMessage_removes_first_match "m-9" 4000)
      as [_ Hmissing].
    apply Hmissing. intros conv [<- | []] x [<- | [<- | []]]; discriminate.
Defined.

(** X2.  Neither [deleteMessage] nor [updateMessage] of the local adapter
    writes the metadata of a conversation: after a call that succeeds,
    every stored conversation has the metadata (the counters) it had, under
    the key it had. *)
Theorem local_message_edits_keep_conversation_metadata
    (ctx : LocalStorageChatAdapter.Context) (messageId : string) (now : Z) :
  (fst (LocalStorageChatAdapter.deleteMessage messageId now ctx) = Ok tt ->
   storedMetadata
     (LocalStorageChatAdapter.conversations
        (LocalStorageChatAdapter.getAll
           (snd (LocalStorageChatAdapter.deleteMessage messageId now ctx))))
   = storedMetadata
       (LocalStorageChatAdapter.conversations
          (LocalStorageChatAdapter.getAll ctx))) /\
  (forall updates,
      fst (LocalStorageChatAdapter.updateMessage messageId updates now ctx)
      = Ok tt ->
      storedMetadata
        (LocalStorageChatAdapter.conversations
           (LocalStorageChatAdapter.getAll
              (snd (LocalStorageChatAdapter.updateMessage
                      messageId updates now ctx))))
      = storedMetadata
          (LocalStorageChatAdapter.conversations
             (LocalStorageChatAdapter.getAll ctx))).
Proof.
  split.
  - unfold LocalStorageChatAdapter.deleteMessage.
    destruct (LocalStorageChatAdapter.deleteFirst messageId now _)
      as [convs' |] eqn:Hloop; [| discriminate].
    destruct (saveAll_cases
                {| LocalStorageChatAdapter.conversations := convs' |} ctx)
      as [[Hwin _] | [(_ & _ & H) | (_ & _ & H & Hread)]].
    + rewrite (getAll_without_window ctx Hwin) in Hloop. discriminate.
    + rewrite H. discriminate.
    + rewrite H. intros _. simpl snd. rewrite Hread. simpl.
      eapply deleteFirst_keeps_metadata, Hloop.
  - intros updates. unfold LocalStorageChatAdapter.updateMessage.
    destruct (LocalStorageChatAdapter.updateFirst messageId updates now _)
      as [convs' |] eqn:Hloop; [| discriminate].
    destruct (saveAll_cases
                {| LocalStorageChatAdapter.conversations := convs' |} ctx)
      as [[Hwin _] | [(_ & _ & H) | (_ & _ & H & Hread)]].
    + rewrite (getAll_without_window ctx Hwin) in Hloop. discriminate.
    + rewrite H. discriminate.
    + rewrite H. intros _. simpl snd. rewrite Hread. simpl.
      eapply updateFirst_keeps_metadata, Hloop.
Qed.

Lemma local_message_edits_keep_conversation_metadata_witness :
  storedMetadata
    (LocalStorageChatAdapter.conversations
       (LocalStorageChatAdapter.getAll
          (snd (LocalStorageChatAdapter.deleteMessage
                  "m-2" 4000 Sample.afterScenario))))
  = [("c-1", Some {| Conversation.totalTokens := Some 42;
                     Conversation.messageCount := Some 2;
                     Conversation.userId := None |})].
Proof.
  destruct (local_message_edits_keep_conversation_metadata
              Sample.afterScenario "m-2" 4000) as [Hdelete _].
  rewrite (Hdelete eq_refl). reflexivity.
Defined.

Section LocalStore.
Import LocalStorageChatAdapter.

Lemma after_saveAll (data : StorageData) (ctx : Context) :
  snd (saveAll data ctx) = ctx \/
  (fst (saveAll data ctx) = Ok tt /\ getAll (snd (saveAll data ctx)) = data).
Proof.
  destruct (saveAll_cases data ctx)
    as [[_ H] | [(_ & _ & H) | (_ & _ & H & Hread)]]; rewrite H; simpl; auto.
Qed.

(** Writing the document that was read changes no later read. *)
Lemma saveAll_as_read (ctx : Context) :
  getAll (snd (saveAll (getAll ctx) ctx)) = getAll ctx.
Proof.
  destruct (after_saveAll (getAll ctx) ctx) as [-> | [_ Hread]]; auto.
Qed.

Lemma get_set_other {V : Type} (k k' : string) (v : V) (o : Dict V) :
  k' <> k -> get k' (set k v o) = get k' o.
Proof.
  intros Hne. induction o as [| [k0 v0] rest IH]; simpl.
  - destruct (String.eqb k' k) eqn:E; auto.
    apply String.eqb_eq in E. contradiction.
  - destruct (String.eqb k k0) eqn:E; simpl.
    + apply String.eqb_eq in E. subst k0.
      destruct (String.eqb k' k) eqn:E'; auto.
      apply String.eqb_eq in E'. contradiction.
    + now rewrite IH.
Qed.

Lemma get_In_keys {V : Type} (k : string) (o : Dict V) :
  get k o = None <-> ~ In k (keys o).
Proof.
  induction o as [| [k0 v0] rest IH]; simpl; [tauto |].
  destruct (String.eqb k k0) eqn:E.
  - apply String.eqb_eq in E. subst. split; [discriminate | tauto].
  - apply String.eqb_neq in E. rewrite IH. split.
    + intros H [H0 | H0]; [congruence | tauto].
    + tauto.
Qed.

Lemma keys_set {V : Type} (k : string) (v : V) (o : Dict V) :
  keys (set k v o)
  = match get k o with
    | Some _ => keys o
    | None => (keys o ++ [k])%list
    end.
Proof.
  induction o as [| [k0 v0] rest IH]; simpl; auto.
  destruct (String.eqb k k0) eqn:E; simpl; auto.
  rewrite IH. now destruct (get k rest).
Qed.

Lemma NoDup_keys_set {V : Type} (k : string) (v : V) (o : Dict V) :
  NoDup (keys o) -> NoDup (keys (set k v o)).
Proof.
  intros Hnd. rewrite keys_set. destruct (get k o) eqn:E; auto.
  apply get_In_keys in E.
  apply NoDup_app; [exact Hnd | repeat constructor; auto |].
  intros x Hx [<- | []]. contradiction.
Qed.

Lemma In_keys_remove {V : Type} (k x : string) (o : Dict V) :
  In x (keys (remove k o)) -> In x (keys o).
Proof.
  induction o as [| [k0 v0] rest IH]; simpl; auto.
  destruct (String.eqb k k0); simpl; [auto | intuition].
Qed.

Lemma NoDup_keys_remove {V : Type} (k : string) (o : Dict V) :
  NoDup (keys o) -> NoDup (keys (remove k o)).
Proof.
  induction o as [| [k0 v0] rest IH]; simpl; auto.
  intros Hnd. inversion Hnd as [| ? ? Hnotin Hrest]; subst.
  destruct (String.eqb k k0); simpl; auto.
  constructor; auto. intros Hin. apply Hnotin. eapply In_keys_remove, Hin.
Qed.

Lemma get_remove_same {V : Type} (k : string) (o : Dict V) :
  NoDup (keys o) -> get k (remove k o) = None.
Proof.
  induction o as [| [k0 v0] rest IH]; simpl; intros Hnd; auto.
  inversion Hnd as [| ? ? Hnotin Hrest]; subst.
  destruct (String.eqb k k0) eqn:E; simpl.
  - apply String.eqb_eq in E. subst k0. now apply get_In_keys.
  - rewrite E. auto.
Qed.

Lemma get_remove_other {V : Type} (k k' : string) (o : Dict V) :
  k' <> k -> get k' (remove k o) = get k' o.
Proof.
  intros Hne. induction o as [| [k0 v0] rest IH]; simpl; auto.
  destruct (String.eqb k k0) eqn:E; simpl.
  - apply String.eqb_eq in E. subst k0.
    destruct (String.eqb k' k) eqn:E'; auto.
    apply String.eqb_eq in E'. contradiction.
  - now rewrite IH.
Qed.

Lemma keys_storedMetadata (o : Dict Conversation.t) :
  keys o = map fst (storedMetadata o).
Proof.
  unfold keys, storedMetadata. rewrite map_map. reflexivity.
Qed.

(** X3.  An operation of the local adapter that throws has written
    nothing: the context is the one before the call.  In a browser whose
    [setItem] throws, [createConversation] and the operations whose
    conversation exists fail with "Failed to save to localStorage". *)
Theorem local_failed_operation_writes_nothing (ctx : Context) :
  (forall conversationId m now e,
      fst (saveMessage conversationId m now ctx) = Throw e ->
      snd (saveMessage conversationId m now ctx) = ctx) /\
  (forall messageId now e,
      fst (deleteMessage messageId now ctx) = Throw e ->
      snd (deleteMessage messageId now ctx) = ctx) /\
  (forall messageId updates now e,
      fst (updateMessage messageId updates now ctx) = Throw e ->
      snd (updateMessage messageId updates now ctx) = ctx) /\
  (forall title uuid now1 now2 e,
      fst (createConversation title uuid now1 now2 ctx) = Throw e ->
      snd (createConversation title uuid now1 now2 ctx) = ctx) /\
  (forall conversationId updates now e,
      fst (updateConversation conversationId updates now ctx) = Throw e ->
      snd (updateConversation conversationId updates now ctx) = ctx) /\
  (forall conversationId e,
      fst (deleteConversation conversationId ctx) = Throw e ->
      snd (deleteConversation conversationId ctx) = ctx) /\
  (hasWindow ctx = true ->
   setItemThrows ctx = true ->
   (forall title uuid now1 now2,
       createConversation title uuid now1 now2 ctx = (Throw SaveFailed, ctx)) /\
   (forall conversationId conv,
       getConversation conversationId ctx = Stored conv ->
       (forall m now,
           saveMessage conversationId m now ctx = (Throw SaveFailed, ctx)) /\
       (forall updates now,
           updateConversation conversationId updates now ctx
           = (Throw SaveFailed, ctx)) /\
       deleteConversation conversationId ctx = (Throw SaveFailed, ctx))).
Proof.
  assert (Hsave : forall data e,
             fst (saveAll data ctx) = Throw e -> snd (saveAll data ctx) = ctx).
  { intros data e H. destruct (saveAll data ctx) as [r ctx'] eqn:E.
    simpl in H. subst r. now apply saveAll_throws_unchanged in E. }
  repeat split.
  - intros conversationId m now e. unfold saveMessage.
    destruct (get conversationId (conversations (getAll ctx)));
      [apply Hsave | destruct (inheritedMember conversationId); reflexivity].
  - intros messageId now e. unfold deleteMessage.
    destruct (deleteFirst messageId now (conversations (getAll ctx)));
      [apply Hsave | reflexivity].
  - intros messageId updates now e. unfold updateMessage.
    destruct (updateFirst messageId updates now (conversations (getAll ctx)));
      [apply Hsave | reflexivity].
  - intros title uuid now1 now2 e. unfold createConversation.
    match goal with
    | |- context [saveAll ?d ctx] => specialize (Hsave d);
        destruct (saveAll d ctx) as [[u | e'] ctx']
    end; simpl in *; [discriminate | intros _; eapply Hsave; reflexivity].
  - intros conversationId updates now e. unfold updateConversation.
    destruct (get conversationId (conversations (getAll ctx)));
      [apply Hsave |].
    destruct (inheritedMember conversationId); [apply Hsave | reflexivity].
  - intros conversationId e. unfold deleteConversation.
    destruct (get conversationId (conversations (getAll ctx)));
      [apply Hsave |].
    destruct (inheritedMember conversationId); [apply Hsave | reflexivity].
  - intros title uuid now1 now2. unfold createConversation, saveAll.
    now rewrite H, H0.
  - intros m now. unfold saveMessage, saveAll.
    apply local_getConversation_stored in H1. now rewrite H1, H, H0.
  - intros updates now. unfold updateConversation, saveAll.
    apply local_getConversation_stored in H1. now rewrite H1, H, H0.
  - unfold deleteConversation, saveAll.
    apply local_getConversation_stored in H1. now rewrite H1, H, H0.
Qed.

Lemma local_failed_operation_writes_nothing_witness :
  let full := {| hasWindow := true;
                 item := item Sample.afterQuestion;
                 setItemThrows := true |} in
  saveMessage "c-1" Sample.answer 3000 full = (Throw SaveFailed, full) /\
  createConversation None "c-2" 3000 3000 full = (Throw SaveFailed, full) /\
  snd (deleteMessage "m-1" 3000 full) = full.
Proof.
  intros full.
  destruct (local_failed_operation_writes_nothing full)
    as (_ & Hdelete & _ & _ & _ & _ & Hquota).
  destruct (Hquota eq_refl eq_refl) as [Hcreate Hstored].
  destruct (Hstored "c-1" _ eq_refl) as (Hsave & _ & _).
  split; [apply Hsave |]. split; [apply Hcreate |].
  apply (Hdelete "m-1" 3000 SaveFailed). reflexivity.
Defined.

(** X4.  A storage item that is missing or cannot be parsed reads as the
    empty document: no conversation is stored under any id, none is
    listed, no messages are returned; [saveMessage] fails with NotFound
    and [getConversation] returns [null], except at the name of a member
    of [Object.prototype], which the lookup finds in the empty document:
    there [getConversation] returns the member and [saveMessage] fails
    with a TypeError.  The first [createConversation] that is written then
    replaces the item by a document that holds the new conversation
    only. *)
Theorem local_unreadable_item_reads_as_empty (ctx : Context) :
  item ctx = Unreadable \/ item ctx = NoItem ->
  getAll ctx = emptyData /\
  listConversations ctx = [] /\
  (forall conversationId,
      (forall conv, getConversation conversationId ctx <> Stored conv) /\
      getMessages conversationId ctx = [] /\
      (inheritedMember conversationId = false ->
       getConversation conversationId ctx = Null /\
       forall m now,
         saveMessage conversationId m now ctx
         = (Throw (ConversationNotFound conversationId), ctx)) /\
      (inheritedMember conversationId = true ->
       getConversation conversationId ctx = Builtin conversationId /\
       forall m now,
         saveMessage conversationId m now ctx
         = (Throw (TypeError
                     "Cannot read properties of undefined (reading 'push')"),
            ctx))) /\
  (hasWindow ctx = true ->
   setItemThrows ctx = false ->
   forall title uuid now1 now2,
     exists conv ctx',
       createConversation title uuid now1 now2 ctx = (Ok conv, ctx') /\
       item ctx' = Document {| conversations := [(uuid, conv)] |}).
Proof.
  intros Hitem.
  assert (Hempty : getAll ctx = emptyData).
  { unfold getAll. destruct (hasWindow ctx); simpl; auto.
    destruct Hitem as [-> | ->]; reflexivity. }
  split; [exact Hempty |]. split; [| split].
  - unfold listConversations. now rewrite Hempty.
  - intros conversationId.
    unfold getConversation, getMessages, saveMessage. rewrite Hempty.
    unfold emptyData. cbn.
    split; [destruct (inheritedMember conversationId); discriminate |].
    split; [reflexivity |].
    split; intros ->; split; reflexivity.
  - intros Hwin Hquota title uuid now1 now2.
    unfold createConversation, saveAll. rewrite Hempty, Hwin, Hquota. simpl.
    eexists. eexists. split; reflexivity.
Qed.

Lemma local_unreadable_item_reads_as_empty_witness :
  let broken := {| hasWindow := true;
                   item := Unreadable;
                   setItemThrows := false |} in
  getConversation "c-1" broken = Null /\
  getConversation "toString" broken = Builtin "toString" /\
  exists conv ctx',
    createConversation None "c-5" 7000 7000 broken = (Ok conv, ctx') /\
    keys (conversations (getAll ctx')) = ["c-5"].
Proof.
  intros broken.
  destruct (local_unreadable_item_reads_as_empty broken (or_introl eq_refl))
    as (_ & _ & Hreads & Hcreate).
  split; [apply (Hreads "c-1"); reflexivity |].
  split; [apply (Hreads "toString"); reflexivity |].
  destruct (Hcreate eq_refl eq_refl None "c-5" 7000 7000)
    as (conv & ctx' & Hcreated & Hitem).
  exists conv, ctx'. split; [exact Hcreated |].
  unfold getAll. rewrite Hitem.
  replace (hasWindow ctx') with true; [reflexivity |].
  unfold createConversation, saveAll in Hcreated. simpl in Hcreated.
  inversion Hcreated. reflexivity.
Defined.

End LocalStore.

Section LocalConversations.
Import LocalStorageChatAdapter.

(** X5.  A local [saveMessage] that is written sets [messageCount] to the
    new number of messages whatever it was, adds the tokens of the message
    ([0] without metadata) to [totalTokens] ([0] when absent), and keeps
    [userId], the id, the title and [createdAt]; the counters agree with
    the messages afterwards whenever [totalTokens] agreed before. *)
Theorem local_saveMessage_counters
    (ctx : Context) (conversationId : string) (m : Message.t) (now : Z)
    (conv : Conversation.t) :
  getConversation conversationId ctx = Stored conv ->
  setItemThrows ctx = false ->
  exists ctx' conv' md',
    saveMessage conversationId m now ctx = (Ok tt, ctx') /\
    getConversation conversationId ctx' = Stored conv' /\
    Conversation.metadata conv' = Some md' /\
    Conversation.messageCount md'
    = Some (Z.of_nat (List.length (Conversation.messages conv)) + 1) /\
    Conversation.totalTokens md'
    = Some (orZero (match Conversation.metadata conv with
                    | Some md => Conversation.totalTokens md
                    | None => None
                    end) + tokensOf m) /\
    Conversation.userId md'
    = match Conversation.metadata conv with
      | Some md => Conversation.userId md
      | None => None
      end /\
    Conversation.id conv' = Conversation.id conv /\
    Conversation.title conv' = Conversation.title conv /\
    Conversation.createdAt conv' = Conversation.createdAt conv /\
    ((exists md, Conversation.metadata conv = Some md /\
                 Conversation.totalTokens md
                 = Some (sumTokens (Conversation.messages conv))) ->
     countersAgree conv' = true).
Proof.
  intros Hsome Hquota.
  pose proof (local_conversation_needs_window _ _ _ Hsome) as Hwin.
  unfold saveMessage. apply local_getConversation_stored in Hsome.
  rewrite Hsome.
  destruct (local_getAll_after_saveAll ctx
              {| conversations :=
                   set conversationId (pushMessage conv m now)
                       (conversations (getAll ctx)) |}
              Hwin Hquota) as (ctx' & Hsave & Hread & _).
  exists ctx', (pushMessage conv m now). eexists.
  split; [exact Hsave |]. split.
  { apply local_getConversation_own. rewrite Hread. simpl.
    apply get_set_same. }
  split; [reflexivity |]. split.
  { simpl. rewrite length_app. simpl. f_equal. lia. }
  repeat (split; [reflexivity |]).
  intros (md & Hmd & Htotal). eapply pushMessage_keeps_counters; eauto.
Qed.

Lemma local_saveMessage_counters_witness :
  exists ctx' conv',
    saveMessage "c-1" Sample.answer 3000 Sample.afterQuestion = (Ok tt, ctx') /\
    getConversation "c-1" ctx' = Stored conv' /\
    countersAgree conv' = true.
Proof.
  destruct (local_saveMessage_counters Sample.afterQuestion "c-1"
              Sample.answer 3000 _ eq_refl eq_refl)
    as (ctx' & conv' & md' & Hsave & Hget & _ & _ & _ & _ & _ & _ & _ & Hagree).
  exists ctx', conv'. split; [exact Hsave |]. split; [exact Hget |].
  apply Hagree. eexists. split; reflexivity.
Defined.

(** X6.  [saveMessage] and [updateConversation] of the local adapter touch
    one conversation: whether they succeed or fail, every conversation
    stored under another key reads as before, and no key is added, removed
    or moved. *)
Theorem local_updates_touch_one_conversation
    (ctx : Context) (conversationId : string) :
  (forall m now,
      keys (conversations (getAll (snd (saveMessage conversationId m now ctx))))
      = keys (conversations (getAll ctx)) /\
      forall other,
        other <> conversationId ->
        getConversation other (snd (saveMessage conversationId m now ctx))
        = getConversation other ctx) /\
  (forall updates now,
      keys (conversations
              (getAll (snd (updateConversation conversationId updates now
                                               ctx))))
      = keys (conversations (getAll ctx)) /\
      forall other,
        other <> conversationId ->
        getConversation other
          (snd (updateConversation conversationId updates now ctx))
        = getConversation other ctx).
Proof.
  assert (Hone : forall conv conv',
             get conversationId (conversations (getAll ctx)) = Some conv ->
             let ctx' :=
               snd (saveAll {| conversations :=
                                 set conversationId conv'
                                     (conversations (getAll ctx)) |} ctx) in
             keys (conversations (getAll ctx'))
             = keys (conversations (getAll ctx)) /\
             forall other,
               other <> conversationId ->
               getConversation other ctx' = getConversation other ctx).
  { intros conv conv' Hsome ctx'. subst ctx'.
    destruct (after_saveAll
                {| conversations :=
                     set conversationId conv'
                         (conversations (getAll ctx)) |} ctx)
      as [-> | [_ Hread]]; [auto |].
    split.
    - rewrite Hread. simpl. rewrite keys_set. now rewrite Hsome.
    - intros other Hother. apply local_getConversation_agrees.
      rewrite Hread. simpl. now apply get_set_other. }
  split.
  - intros m now. unfold saveMessage.
    destruct (get conversationId (conversations (getAll ctx))) eqn:Hsome;
      [eapply Hone; eauto |].
    destruct (inheritedMember conversationId); auto.
  - intros updates now. unfold updateConversation.
    destruct (get conversationId (conversations (getAll ctx))) eqn:Hsome;
      [eapply Hone; eauto |].
    destruct (inheritedMember conversationId); [| auto].
    split; [now rewrite saveAll_as_read |].
    intros other _. apply local_getConversation_agrees.
    now rewrite saveAll_as_read.
Qed.

(** X7.  The keys of the stored document stay distinct: every operation
    of the local adapter leaves a document without a repeated key when it
    found one. *)
Theorem local_operations_keep_keys_distinct (ctx : Context) :
  NoDup (keys (conversations (getAll ctx))) ->
  (forall conversationId m now,
      NoDup (keys (conversations
                     (getAll (snd (saveMessage conversationId m now ctx)))))) /\
  (forall messageId now,
      NoDup (keys (conversations
                     (getAll (snd (deleteMessage messageId now ctx)))))) /\
  (forall messageId updates now,
      NoDup (keys (conversations
                     (getAll (snd (updateMessage messageId updates now
                                                 ctx)))))) /\
  (forall title uuid now1 now2,
      NoDup (keys (conversations
                     (getAll (snd (createConversation title uuid now1 now2
                                                      ctx)))))) /\
  (forall conversationId updates now,
      NoDup (keys (conversations
                     (getAll (snd (updateConversation conversationId updates
                                                      now ctx)))))) /\
  (forall conversationId,
      NoDup (keys (conversations
                     (getAll (snd (deleteConversation conversationId ctx)))))) /\
  NoDup (keys (conversations (getAll (snd (clearAll ctx))))).
Proof.
  intros Hnd.
  assert (Hsave : forall data,
             NoDup (keys (conversations data)) ->
             NoDup (keys (conversations (getAll (snd (saveAll data ctx)))))).
  { intros data Hdata.
    destruct (after_saveAll data ctx) as [-> | [_ ->]]; auto. }
  repeat split.
  - intros conversationId m now. unfold saveMessage.
    destruct (get conversationId (conversations (getAll ctx)));
      [| destruct (inheritedMember conversationId); auto].
    apply Hsave. simpl. now apply NoDup_keys_set.
  - intros messageId now. unfold deleteMessage.
    destruct (deleteFirst messageId now (conversations (getAll ctx)))
      as [convs' |] eqn:Hloop; auto.
    apply Hsave. simpl.
    rewrite keys_storedMetadata, (deleteFirst_keeps_metadata _ _ _ _ Hloop).
    now rewrite <- keys_storedMetadata.
  - intros messageId updates now. unfold updateMessage.
    destruct (updateFirst messageId updates now (conversations (getAll ctx)))
      as [convs' |] eqn:Hloop; auto.
    apply Hsave. simpl.
    rewrite keys_storedMetadata, (updateFirst_keeps_metadata _ _ _ _ _ Hloop).
    now rewrite <- keys_storedMetadata.
  - intros title uuid now1 now2. unfold createConversation.
    match goal with
    | |- context [saveAll ?d ctx] =>
        specialize (Hsave d); destruct (saveAll d ctx) as [[u | e] ctx']
    end; simpl in *; apply Hsave; now apply NoDup_keys_set.
  - intros conversationId updates now. unfold updateConversation.
    destruct (get conversationId (conversations (getAll ctx)));
      [| destruct (inheritedMember conversationId); auto].
    apply Hsave. simpl. now apply NoDup_keys_set.
  - intros conversationId. unfold deleteConversation.
    destruct (get conversationId (conversations (getAll ctx)));
      [| destruct (inheritedMember conversationId); auto].
    apply Hsave. simpl. now apply NoDup_keys_remove.
  - unfold clearAll, getAll. destruct (hasWindow ctx) eqn:Hwin; simpl.
    + rewrite Hwin. simpl. constructor.
    + rewrite Hwin. simpl. constructor.
Qed.

Lemma local_operations_keep_keys_distinct_witness :
  NoDup (keys (conversations
                 (getAll (snd (createConversation None "c-1" 9000 9000
                                                  Sample.twoConversations))))).
Proof.
  destruct (local_operations_keep_keys_distinct Sample.twoConversations)
    as (_ & _ & _ & Hcreate & _).
  - repeat constructor; simpl; intuition discriminate.
  - apply Hcreate.
Defined.

(** X8.  A local [updateConversation] stamps [updatedAt] with the time
    of the call after the assignment: when a conversation is stored under
    the key and the write goes through, the conversation read back has
    that [updatedAt] even when the update supplies one, and an update
    that has no member but [updatedAt] changes nothing else.  It fails
    with NotFound, and writes nothing, where [getConversation] returns
    [null]; where [getConversation] returns a member of
    [Object.prototype] the call is let through: every stored conversation
    reads as before, and the call completes when the write does. *)
Theorem local_updateConversation_assigns_then_stamps
    (ctx : Context) (conversationId : string)
    (updates : PartialConversation.t) (now : Z) :
  (getConversation conversationId ctx = Null ->
   updateConversation conversationId updates now ctx
   = (Throw (ConversationNotFound conversationId), ctx)) /\
  (forall member,
      getConversation conversationId ctx = Builtin member ->
      updateConversation conversationId updates now ctx
      <> (Throw (ConversationNotFound conversationId), ctx) /\
      getAll (snd (updateConversation conversationId updates now ctx))
      = getAll ctx /\
      (setItemThrows ctx = false ->
       fst (updateConversation conversationId updates now ctx) = Ok tt)) /\
  (forall conv,
      getConversation conversationId ctx = Stored conv ->
      setItemThrows ctx = false ->
      exists ctx' conv',
        updateConversation conversationId updates now ctx = (Ok tt, ctx') /\
        getConversation conversationId ctx' = Stored conv' /\
        Conversation.updatedAt conv' = now /\
        (PartialConversation.id updates = None ->
         PartialConversation.title updates = None ->
         PartialConversation.messages updates = None ->
         PartialConversation.createdAt updates = None ->
         PartialConversation.metadata updates = None ->
         conv' = touch conv now)).
Proof.
  split; [| split].
  - intros Hnone. unfold updateConversation.
    apply local_getConversation_null in Hnone as [Hnone Hown].
    now rewrite Hnone, Hown.
  - intros member. unfold updateConversation, getConversation.
    destruct (get conversationId _); [discriminate |].
    destruct (inheritedMember conversationId); [intros _ | discriminate].
    split; [| split].
    + unfold saveAll. destruct (hasWindow ctx); [| discriminate].
      destruct (setItemThrows ctx); discriminate.
    + apply saveAll_as_read.
    + intros Hquota. unfold saveAll. rewrite Hquota.
      now destruct (hasWindow ctx).
  - intros conv Hsome Hquota.
    pose proof (local_conversation_needs_window _ _ _ Hsome) as Hwin.
    unfold updateConversation. apply local_getConversation_stored in Hsome.
    rewrite Hsome.
    destruct (local_getAll_after_saveAll ctx
                {| conversations :=
                     set conversationId
                         (touch (assignConversation conv updates) now)
                         (conversations (getAll ctx)) |}
                Hwin Hquota) as (ctx' & Hsave & Hread & _).
    exists ctx', (touch (assignConversation conv updates) now).
    split; [exact Hsave |]. split.
    { apply local_getConversation_own. rewrite Hread. simpl.
      apply get_set_same. }
    split; [reflexivity |].
    intros Hid Htitle Hmessages Hcreated Hmetadata.
    unfold touch, withMessages, assignConversation. cbn.
    rewrite Hid, Htitle, Hmessages, Hcreated, Hmetadata. reflexivity.
Qed.

Lemma local_updateConversation_assigns_then_stamps_witness :
  let stale :=
    {| PartialConversation.id := None;
       PartialConversation.title := None;
       PartialConversation.messages := None;
       PartialConversation.createdAt := None;
       PartialConversation.updatedAt := Some 1;
       PartialConversation.metadata := None |} in
  (exists ctx' conv',
      updateConversation "c-1" stale 5000 Sample.afterScenario
      = (Ok tt, ctx') /\
      getConversation "c-1" ctx' = Stored conv' /\
      Conversation.updatedAt conv' = 5000) /\
  updateConversation "c-404" stale 5000 Sample.afterScenario
  = (Throw (ConversationNotFound "c-404"), Sample.afterScenario) /\
  fst (updateConversation "valueOf" stale 5000 Sample.afterScenario) = Ok tt.
Proof.
  intros stale.
  destruct (local_updateConversation_assigns_then_stamps
              Sample.afterScenario "c-1" stale 5000) as (_ & _ & Hfound).
  destruct (local_updateConversation_assigns_then_stamps
              Sample.afterScenario "c-404" stale 5000) as (Hnull & _).
  destruct (local_updateConversation_assigns_then_stamps
              Sample.afterScenario "valueOf" stale 5000) as (_ & Hbuiltin & _).
  split; [| split].
  - destruct (Hfound _ eq_refl eq_refl) as (ctx' & conv' & H1 & H2 & H3 & _).
    exists ctx', conv'. auto.
  - apply Hnull. reflexivity.
  - destruct (Hbuiltin "valueOf" eq_refl) as (_ & _ & Hok).
    apply Hok. reflexivity.
Defined.

(** X9.  A local [deleteConversation] fails with NotFound, and writes
    nothing, where [getConversation] returns [null]; where
    [getConversation] returns a member of [Object.prototype] the call is
    let through and removes nothing: every stored conversation reads as
    before, and the call completes when the write does.  When a
    conversation is stored under the key (in a document with distinct
    keys) and the write goes through, no conversation is stored under the
    key afterwards: [getConversation] returns [null], or the built-in
    member when the key is the name of one, [getMessages] returns no
    messages, and every other key reads as before. *)
Theorem local_deleteConversation_removes_the_key
    (ctx : Context) (conversationId : string) :
  (getConversation conversationId ctx = Null ->
   deleteConversation conversationId ctx
   = (Throw (ConversationNotFound conversationId), ctx)) /\
  (forall member,
      getConversation conversationId ctx = Builtin member ->
      deleteConversation conversationId ctx
      <> (Throw (ConversationNotFound conversationId), ctx) /\
      getAll (snd (deleteConversation conversationId ctx)) = getAll ctx /\
      (setItemThrows ctx = false ->
       fst (deleteConversation conversationId ctx) = Ok tt)) /\
  (forall conv,
      NoDup (keys (conversations (getAll ctx))) ->
      getConversation conversationId ctx = Stored conv ->
      setItemThrows ctx = false ->
      exists ctx',
        deleteConversation conversationId ctx = (Ok tt, ctx') /\
        getConversation conversationId ctx'
        = (if inheritedMember conversationId then Builtin conversationId
           else Null) /\
        getMessages conversationId ctx' = [] /\
        (forall other,
            other <> conversationId ->
            getConversation other ctx' = getConversation other ctx)).
Proof.
  split; [| split].
  - intros Hnone. unfold deleteConversation.
    apply local_getConversation_null in Hnone as [Hnone Hown].
    now rewrite Hnone, Hown.
  - intros member. unfold deleteConversation, getConversation.
    destruct (get conversationId _); [discriminate |].
    destruct (inheritedMember conversationId); [intros _ | discriminate].
    split; [| split].
    + unfold saveAll. destruct (hasWindow ctx); [| discriminate].
      destruct (setItemThrows ctx); discriminate.
    + apply saveAll_as_read.
    + intros Hquota. unfold saveAll. rewrite Hquota.
      now destruct (hasWindow ctx).
  - intros conv Hnd Hsome Hquota.
    pose proof (local_conversation_needs_window _ _ _ Hsome) as Hwin.
    unfold deleteConversation. apply local_getConversation_stored in Hsome.
    rewrite Hsome.
    destruct (local_getAll_after_saveAll ctx
                {| conversations :=
                     remove conversationId (conversations (getAll ctx)) |}
                Hwin Hquota) as (ctx' & Hsave & Hread & _).
    exists ctx'. split; [exact Hsave |].
    split; [| split].
    + unfold getConversation. rewrite Hread. simpl.
      now rewrite (get_remove_same _ _ Hnd).
    + unfold getMessages. rewrite Hread. simpl.
      now rewrite (get_remove_same _ _ Hnd).
    + intros other Hother. apply local_getConversation_agrees.
      rewrite Hread. simpl. now apply get_remove_other.
Qed.

Lemma local_deleteConversation_removes_the_key_witness :
  (exists ctx',
      deleteConversation "c-1" Sample.twoConversations = (Ok tt, ctx') /\
      getConversation "c-1" ctx' = Null /\
      keys (conversations (getAll ctx')) = ["c-2"]) /\
  deleteConversation "c-404" Sample.twoConversations
  = (Throw (ConversationNotFound "c-404"), Sample.twoConversations) /\
  fst (deleteConversation "hasOwnProperty" Sample.twoConversations) = Ok tt.
Proof.
  destruct (local_deleteConversation_removes_the_key
              Sample.twoConversations "c-1") as (_ & _ & Hfound).
  destruct (local_deleteConversation_removes_the_key
              Sample.twoConversations "c-404") as (Hnull & _).
  destruct (local_deleteConversation_removes_the_key
              Sample.twoConversations "hasOwnProperty") as (_ & Hbuiltin & _).
  assert (Hnd : NoDup (keys (conversations
                                (getAll Sample.twoConversations))))
    by (repeat constructor; simpl; intuition discriminate).
  split; [| split].
  - destruct (Hfound _ Hnd eq_refl eq_refl) as (ctx' & Hdelete & Hgone & _).
    exists ctx'. split; [exact Hdelete |]. split; [exact Hgone |].
    unfold deleteConversation, saveAll in Hdelete. simpl in Hdelete.
    inversion Hdelete. reflexivity.
  - apply Hnull. reflexivity.
  - destruct (Hbuiltin "hasOwnProperty" eq_refl) as (_ & _ & Hok).
    apply Hok. reflexivity.
Defined.

End LocalConversations.

(** ** The remote adapter *)

Section RemoteStore.
Import Backend SupabaseChatAdapter.

Lemma database_eta (db : Database) :
  {| conversations := conversations db; messages := messages db |} = db.
Proof. now destruct db. Qed.

Lemma map_unchanged {A : Type} (p : A -> bool) (change : A -> A) (l : list A) :
  existsb p l = false ->
  map (fun x => if p x then change x else x) l = l.
Proof.
  induction l as [| x rest IH]; simpl; auto.
  destruct (p x); simpl; [discriminate |]. intros H. now rewrite IH.
Qed.

Lemma filter_unchanged {A : Type} (p : A -> bool) (l : list A) :
  existsb p l = false -> filter (fun x => negb (p x)) l = l.
Proof.
  induction l as [| x rest IH]; simpl; auto.
  destruct (p x); simpl; [discriminate |]. intros H. now rewrite IH.
Qed.

Lemma sort_nil {A : Type} (compare : A -> A -> Z) (l : list A) :
  sort compare l = [] -> l = [].
Proof.
  intros H. apply Permutation_nil. rewrite <- H.
  apply Permutation_sym, sort_perm.
Qed.

(** X10.  A failure of the backend reaches the caller of the remote
    adapter as "Failed to <operation>: <message>", with the tables as they
    were, in every operation; two failures do not: [getConversation]
    answers [null] to any failure whose code is PGRST116, and
    [saveMessage] ignores the failure of its second request, so that the
    message is stored and the conversation's [updated_at] is not bumped. *)
Theorem remote_failures_are_wrapped
    (this : Adapter) (e : Failure) (db : Database) :
  (forall conversationId m now fault2,
      saveMessage this conversationId m now (Some e) fault2 db
      = (Throw (BackendFailed "save message" (message e)), db)) /\
  (forall conversationId,
      getMessages this conversationId (Some e) db
      = (Throw (BackendFailed "get messages" (message e)), db)) /\
  (forall messageId,
      deleteMessage this messageId (Some e) db
      = (Throw (BackendFailed "delete message" (message e)), db)) /\
  (forall messageId updates,
      updateMessage this messageId updates (Some e) db
      = (Throw (BackendFailed "update message" (message e)), db)) /\
  listConversations this (Some e) db
  = (Throw (BackendFailed "list conversations" (message e)), db) /\
  (forall conversationId,
      getConversation this conversationId (Some e) db
      = if String.eqb (code e) "PGRST116" then (Ok None, db)
        else (Throw (BackendFailed "get conversation" (message e)), db)) /\
  (forall title uuid now,
      createConversation this title uuid now (Some e) db
      = (Throw (BackendFailed "create conversation" (message e)), db)) /\
  (forall conversationId updates now,
      updateConversation this conversationId updates now (Some e) db
      = (Throw (BackendFailed "update conversation" (message e)), db)) /\
  (forall conversationId,
      deleteConversation this conversationId (Some e) db
      = (Throw (BackendFailed "delete conversation" (message e)), db)) /\
  (forall u,
      boundUser this = Some u ->
      clearAll this (Some e) db
      = (Throw (BackendFailed "clear all" (message e)), db)) /\
  (forall conversationId m now,
      existsb (messageHasId (Message.id m)) (messages db) = false ->
      existsb (conversationHasId conversationId) (conversations db) = true ->
      saveMessage this conversationId m now None (Some e) db
      = (Ok tt,
         {| conversations := conversations db;
            messages := (messages db ++ [messageRow conversationId m])%list |})) /\
  errorMessage (BackendFailed "save message" (message e))
  = "Failed to save message: " ++ message e.
Proof.
  repeat split; try reflexivity.
  - intros u Hu. unfold clearAll. now rewrite Hu.
  - intros conversationId m now Hnew Hexists.
    unfold saveMessage, insertMessage. simpl. now rewrite Hnew, Hexists.
Qed.

Lemma remote_failures_are_wrapped_witness :
  let offline := {| code := "ECONNRESET"; message := "socket hang up" |} in
  clearAll Sample.alice (Some offline) Sample.tenants
  = (Throw (BackendFailed "clear all" "socket hang up"), Sample.tenants) /\
  fst (saveMessage Sample.alice "c-1" Sample.followUp 4000 None (Some offline)
                   Sample.tenants) = Ok tt /\
  map ConversationRow.updated_at
      (conversations
         (snd (saveMessage Sample.alice "c-1" Sample.followUp 4000 None
                           (Some offline) Sample.tenants)))
  = [3000; 1500].
Proof.
  intros offline.
  destruct (remote_failures_are_wrapped Sample.alice offline Sample.tenants)
    as (_ & _ & _ & _ & _ & _ & _ & _ & _ & Hclear & Hsave & _).
  split; [apply (Hclear "alice"); reflexivity |].
  rewrite (Hsave "c-1" Sample.followUp 4000 eq_refl eq_refl).
  split; reflexivity.
Defined.

(** X11.  An id that no row has is no error for the remote adapter:
    [getConversation] returns [null], and [deleteMessage],
    [updateMessage], [updateConversation] and [deleteConversation] return
    normally and leave the tables as they were. *)
Theorem remote_missing_id_is_no_error (this : Adapter) (db : Database) :
  (forall conversationId,
      existsb (conversationHasId conversationId) (conversations db) = false ->
      getConversation this conversationId None db = (Ok None, db) /\
      (forall updates now,
          updateConversation this conversationId updates now None db
          = (Ok tt, db)) /\
      deleteConversation this conversationId None db = (Ok tt, db)) /\
  (forall messageId,
      existsb (messageHasId messageId) (messages db) = false ->
      deleteMessage this messageId None db = (Ok tt, db) /\
      (forall updates,
          updateMessage this messageId updates None db = (Ok tt, db))).
Proof.
  split.
  - intros conversationId Hnone. split; [| split].
    + unfold getConversation, selectConversation.
      now rewrite (existsb_false_filter _ _ Hnone).
    + intros updates now. unfold updateConversation, updateConversations.
      rewrite (map_unchanged _ _ _ Hnone). now rewrite database_eta.
    + unfold deleteConversation, deleteConversations.
      rewrite (filter_unchanged _ _ Hnone).
      replace (filter _ (messages db)) with (messages db);
        [now rewrite database_eta |].
      symmetry. apply forallb_filter_id. apply forallb_forall.
      intros m _. apply negb_true_iff.
      apply not_true_is_false. intros Hex.
      apply existsb_exists in Hex. destruct Hex as (row & Hrow & Hboth).
      apply andb_true_iff in Hboth. destruct Hboth as [Hdoomed _].
      assert (existsb (conversationHasId conversationId) (conversations db)
              = true) by (apply existsb_exists; eauto).
      congruence.
  - intros messageId Hnone. split.
    + unfold deleteMessage, deleteMessages.
      rewrite (filter_unchanged _ _ Hnone). now rewrite database_eta.
    + intros updates. unfold updateMessage, updateMessages.
      rewrite (map_unchanged _ _ _ Hnone). now rewrite database_eta.
Qed.

Lemma remote_missing_id_is_no_error_witness :
  getConversation Sample.alice "c-404" None Sample.tenants
  = (Ok None, Sample.tenants) /\
  deleteMessage Sample.alice "m-404" None Sample.tenants
  = (Ok tt, Sample.tenants).
Proof.
  destruct (remote_missing_id_is_no_error Sample.alice Sample.tenants)
    as [Hconversation Hmessage].
  split.
  - apply (Hconversation "c-404"). reflexivity.
  - apply (Hmessage "m-404"). reflexivity.
Defined.

End RemoteStore.

Section RemoteInvariants.
Import Backend SupabaseChatAdapter.

Lemma existsb_map_same {A : Type} (p : A -> bool) (f : A -> A) (l : list A) :
  (forall x, p (f x) = p x) -> existsb p (map f l) = existsb p l.
Proof.
  intros Hf. induction l as [| x rest IH]; simpl; auto. now rewrite Hf, IH.
Qed.

(** A request that keeps the ids of the conversations and adds no message
    keeps the foreign key. *)
Lemma integrity_conversations_changed (db : Database)
    (change : ConversationRow.t -> ConversationRow.t) :
  (forall row, ConversationRow.id (change row) = ConversationRow.id row) ->
  referentialIntegrity db = true ->
  referentialIntegrity
    {| conversations := map change (conversations db);
       messages := messages db |} = true.
Proof.
  intros Hid Hfk. unfold referentialIntegrity in *. simpl.
  rewrite forallb_forall in *. intros m Hm.
  rewrite existsb_map_same; [now apply Hfk |].
  intros row. unfold conversationHasId. now rewrite Hid.
Qed.

Lemma integrity_messages_subset (db : Database) (kept : list MessageRow.t) :
  (forall m, In m kept -> In m (messages db)) ->
  referentialIntegrity db = true ->
  referentialIntegrity
    {| conversations := conversations db; messages := kept |} = true.
Proof.
  intros Hsub Hfk. unfold referentialIntegrity in *. simpl.
  rewrite forallb_forall in *. intros m Hm. apply Hfk, Hsub, Hm.
Qed.

Lemma integrity_messages_changed (db : Database)
    (change : MessageRow.t -> MessageRow.t) :
  (forall m, MessageRow.conversation_id (change m)
             = MessageRow.conversation_id m) ->
  referentialIntegrity db = true ->
  referentialIntegrity
    {| conversations := conversations db;
       messages := map change (messages db) |} = true.
Proof.
  intros Hid Hfk. unfold referentialIntegrity in *. simpl.
  rewrite forallb_forall in *. intros m Hm.
  apply in_map_iff in Hm. destruct Hm as (m0 & <- & Hm0).
  rewrite Hid. now apply Hfk.
Qed.

Lemma integrity_after_cascade (db : Database)
    (doomed : ConversationRow.t -> bool) :
  referentialIntegrity db = true ->
  referentialIntegrity (snd (deleteConversations doomed None db)) = true.
Proof.
  intros Hfk. unfold referentialIntegrity in *. simpl.
  rewrite forallb_forall in *. intros m Hm.
  apply filter_In in Hm. destruct Hm as [Hm Hkept].
  apply negb_true_iff in Hkept.
  specialize (Hfk m Hm). apply existsb_exists in Hfk.
  destruct Hfk as (row & Hrow & Hid).
  apply existsb_exists. exists row. split; [| exact Hid].
  apply filter_In. split; [exact Hrow |].
  apply negb_true_iff. destruct (doomed row) eqn:Hdoomed; auto.
  exfalso.
  assert (Hex : existsb
                  (fun r => doomed r
                            && conversationHasId (MessageRow.conversation_id m) r)
                  (conversations db) = true).
  { apply existsb_exists. exists row. split; [exact Hrow |].
    now rewrite Hdoomed, Hid. }
  congruence.
Qed.

(** X12.  The foreign key of the tables is kept by every operation of the
    remote adapter, whatever the backend answers: when each message row
    refers to a conversation row before the call, it does after it. *)
Theorem remote_operations_keep_the_foreign_key
    (this : Adapter) (db : Database) :
  referentialIntegrity db = true ->
  (forall conversationId m now fault1 fault2,
      referentialIntegrity
        (snd (saveMessage this conversationId m now fault1 fault2 db))
      = true) /\
  (forall messageId fault,
      referentialIntegrity (snd (deleteMessage this messageId fault db))
      = true) /\
  (forall messageId updates fault,
      referentialIntegrity
        (snd (updateMessage this messageId updates fault db)) = true) /\
  (forall title uuid now fault,
      referentialIntegrity
        (snd (createConversation this title uuid now fault db)) = true) /\
  (forall conversationId updates now fault,
      referentialIntegrity
        (snd (updateConversation this conversationId updates now fault db))
      = true) /\
  (forall conversationId fault,
      referentialIntegrity
        (snd (deleteConversation this conversationId fault db)) = true) /\
  (forall fault,
      referentialIntegrity (snd (clearAll this fault db)) = true).
Proof.
  intros Hfk. repeat split.
  - intros conversationId m now fault1 fault2.
    unfold saveMessage, insertMessage.
    destruct fault1; [exact Hfk |].
    destruct (existsb (messageHasId _) (messages db)); [exact Hfk |].
    destruct (existsb (conversationHasId _) (conversations db)) eqn:Hexists;
      [| exact Hfk].
    assert (Hinserted :
      referentialIntegrity
        {| conversations := conversations db;
           messages :=
             (messages db ++ [messageRow conversationId m])%list |} = true).
    { unfold referentialIntegrity in *. simpl in Hexists. simpl.
      rewrite forallb_app, Hfk. simpl. now rewrite Hexists. }
    destruct fault2; [exact Hinserted |].
    cbn [snd updateConversations].
    apply (integrity_conversations_changed
             {| conversations := conversations db;
                messages :=
                  (messages db ++ [messageRow conversationId m])%list |}
             (fun row => if conversationHasId conversationId row
                         then _ else row)); [| exact Hinserted].
    intros row. now destruct (conversationHasId conversationId row).
  - intros messageId fault. unfold deleteMessage, deleteMessages.
    destruct fault; [exact Hfk |]. cbn [snd].
    apply integrity_messages_subset; [| exact Hfk].
    intros m Hm. now apply filter_In in Hm.
  - intros messageId updates fault. unfold updateMessage, updateMessages.
    destruct fault; [exact Hfk |]. cbn [snd].
    apply (integrity_messages_changed db
             (fun row => if messageHasId messageId row
                         then messageUpdateData updates row else row));
      [| exact Hfk].
    intros m. now destruct (messageHasId messageId m).
  - intros title uuid now fault. unfold createConversation, insertConversation.
    destruct fault; [exact Hfk |].
    destruct (existsb _ (conversations db)); [exact Hfk |]. cbn [snd].
    unfold referentialIntegrity in *. simpl.
    rewrite forallb_forall in *. intros m Hm.
    rewrite existsb_app. now rewrite (Hfk m Hm).
  - intros conversationId updates now fault.
    unfold updateConversation, updateConversations.
    destruct fault; [exact Hfk |]. cbn [snd].
    apply (integrity_conversations_changed db
             (fun row => if conversationHasId conversationId row
                         then conversationUpdateData updates now row
                         else row)); [| exact Hfk].
    intros row. now destruct (conversationHasId conversationId row).
  - intros conversationId fault. unfold deleteConversation.
    destruct fault; [exact Hfk |].
    pose proof (integrity_after_cascade db
                  (conversationHasId conversationId) Hfk) as H.
    destruct (deleteConversations _ None db) as [[u | e] db']; exact H.
  - intros fault. unfold clearAll.
    destruct (boundUser this) as [u |]; [| exact Hfk].
    destruct fault; [exact Hfk |].
    pose proof (integrity_after_cascade db (ownedBy u) Hfk) as H.
    destruct (deleteConversations _ None db) as [[x | e] db']; exact H.
Qed.

Lemma remote_operations_keep_the_foreign_key_witness :
  referentialIntegrity
    (snd (deleteConversation Sample.alice "c-1" None Sample.tenants)) = true.
Proof.
  destruct (remote_operations_keep_the_foreign_key
              Sample.alice Sample.tenants eq_refl)
    as (_ & _ & _ & _ & _ & Hdelete & _).
  apply Hdelete.
Defined.

(** X13.  After a remote [deleteConversation] that is carried out, in
    tables that respect the foreign key, the conversation is gone and so
    are its messages: [getConversation] returns [null] and [getMessages]
    the empty sequence; the rows of the other conversations and their
    messages are the ones before. *)
Theorem remote_deleteConversation_cascades
    (this : Adapter) (db : Database) (conversationId : string) :
  referentialIntegrity db = true ->
  exists db',
    deleteConversation this conversationId None db = (Ok tt, db') /\
    getConversation this conversationId None db' = (Ok None, db') /\
    getMessages this conversationId None db' = (Ok [], db') /\
    conversations db'
    = filter (fun row => negb (conversationHasId conversationId row))
             (conversations db) /\
    (forall m,
        In m (messages db') <->
        In m (messages db) /\ inConversation conversationId m = false).
Proof.
  intros Hfk. eexists. split; [reflexivity |].
  assert (Hmessages : forall m,
    In m (messages (snd (deleteConversations
                           (conversationHasId conversationId) None db))) <->
    In m (messages db) /\ inConversation conversationId m = false).
  { intros m. simpl. rewrite filter_In, negb_true_iff.
    split; intros [Hm Hrest]; split; auto.
    - unfold inConversation.
      destruct (String.eqb (MessageRow.conversation_id m) conversationId)
        eqn:E; auto.
      apply String.eqb_eq in E.
      unfold referentialIntegrity in Hfk. rewrite forallb_forall in Hfk.
      specialize (Hfk m Hm). apply existsb_exists in Hfk.
      destruct Hfk as (row & Hrow & Hid).
      assert (Hex : existsb
                (fun r => conversationHasId conversationId r
                          && conversationHasId (MessageRow.conversation_id m) r)
                (conversations db) = true).
      { apply existsb_exists. exists row. split; [exact Hrow |].
        rewrite Hid, andb_true_r. now rewrite <- E. }
      congruence.
    - apply not_true_is_false. intros Hex.
      apply existsb_exists in Hex. destruct Hex as (row & _ & Hboth).
      apply andb_true_iff in Hboth. destruct Hboth as [H1 H2].
      unfold conversationHasId in H1, H2. apply String.eqb_eq in H1, H2.
      unfold inConversation in Hrest. apply String.eqb_neq in Hrest.
      congruence. }
  split; [| split; [| split; [reflexivity | exact Hmessages]]].
  - unfold getConversation, selectConversation. simpl.
    replace (filter (conversationHasId conversationId)
                    (filter (fun row => negb (conversationHasId
                                                conversationId row))
                            (conversations db)))
      with (@nil ConversationRow.t); [reflexivity |].
    symmetry. apply filter_none. intros row Hrow.
    apply filter_In in Hrow. now apply negb_true_iff.
  - unfold getMessages, selectMessages.
    replace (filter (inConversation conversationId) _)
      with (@nil MessageRow.t); [reflexivity |].
    symmetry. apply filter_none. intros m Hm. now apply Hmessages in Hm.
Qed.

Lemma remote_deleteConversation_cascades_witness :
  exists db',
    deleteConversation Sample.alice "c-1" None Sample.tenants = (Ok tt, db') /\
    getMessages Sample.alice "c-1" None db' = (Ok [], db') /\
    messages db' = [].
Proof.
  destruct (remote_deleteConversation_cascades
              Sample.alice Sample.tenants "c-1" eq_refl)
    as (db' & Hdelete & _ & Hmessages & _).
  exists db'. split; [exact Hdelete |]. split; [exact Hmessages |].
  unfold deleteConversation in Hdelete. simpl in Hdelete.
  inversion Hdelete. reflexivity.
Defined.

(** X14.  The remote [saveMessage] writes nothing of a conversation but
    [updated_at]: whatever the backend answers, the conversation rows
    after the call have the ids, the titles, the owners, the creation
    times and the metadata (the counters) they had. *)
Theorem remote_saveMessage_writes_updated_at_only
    (this : Adapter) (db : Database) (conversationId : string)
    (m : Message.t) (now : Z) (fault1 fault2 : option Failure) :
  let db' := snd (saveMessage this conversationId m now fault1 fault2 db) in
  map ConversationRow.metadata (conversations db')
  = map ConversationRow.metadata (conversations db) /\
  map ConversationRow.id (conversations db')
  = map ConversationRow.id (conversations db) /\
  map ConversationRow.title (conversations db')
  = map ConversationRow.title (conversations db) /\
  map ConversationRow.user_id (conversations db')
  = map ConversationRow.user_id (conversations db) /\
  map ConversationRow.created_at (conversations db')
  = map ConversationRow.created_at (conversations db).
Proof.
  unfold saveMessage, insertMessage.
  destruct fault1; [cbn; auto |].
  destruct (existsb (messageHasId _) (messages db)); [cbn; auto |].
  destruct (existsb (conversationHasId _) (conversations db)); [| cbn; auto].
  destruct fault2; [cbn; auto |].
  cbn [snd updateConversations conversations].
  repeat split; rewrite map_map; apply map_ext; intros row;
    now destruct (conversationHasId conversationId row).
Qed.

(** X15.  The remote [listConversations] returns the empty sequence when
    the select returns no row (no conversation, or none owned by the bound
    user), and throws a TypeError when it returns any: [mapToConversation]
    is called without its receiver. *)
Theorem remote_listConversations_maps_without_receiver
    (this : Adapter) (db : Database) :
  let visible :=
    match boundUser this with
    | Some u => filter (ownedBy u) (conversations db)
    | None => conversations db
    end in
  (visible = [] -> listConversations this None db = (Ok [], db)) /\
  (visible <> [] ->
   listConversations this None db
   = (Throw (TypeError
               "Cannot read properties of undefined (reading 'mapToMessage')"),
      db)).
Proof.
  intros visible. unfold listConversations, selectConversations.
  fold visible. split.
  - intros ->. reflexivity.
  - intros Hsome.
    destruct (sort (fun a b => ConversationRow.updated_at b
                               - ConversationRow.updated_at a) visible)
      as [| row rows] eqn:Hsorted.
    + apply sort_nil in Hsorted. contradiction.
    + reflexivity.
Qed.

Lemma remote_listConversations_maps_without_receiver_witness :
  listConversations Sample.alice None Sample.emptyDatabase
  = (Ok [], Sample.emptyDatabase) /\
  listConversations Sample.alice None Sample.tenants
  = (Throw (TypeError
              "Cannot read properties of undefined (reading 'mapToMessage')"),
     Sample.tenants).
Proof.
  split.
  - destruct (remote_listConversations_maps_without_receiver
                Sample.alice Sample.emptyDatabase) as [Hnone _].
    apply Hnone. reflexivity.
  - destruct (remote_listConversations_maps_without_receiver
                Sample.alice Sample.tenants) as [_ Hsome].
    apply Hsome. discriminate.
Defined.

(** X16.  The remote reads return the messages of the conversation, all of
    them and no other, in ascending order of timestamp, and leave the
    tables alone: [getMessages] as ordered by the backend, and
    [getConversation] as sorted again by [mapToConversation]. *)
Theorem remote_reads_order_messages
    (this : Adapter) (db : Database) (conversationId : string) :
  (exists ms,
      getMessages this conversationId None db = (Ok ms, db) /\
      StronglySorted (fun a b => Message.timestamp a <= Message.timestamp b)
                     ms /\
      Permutation
        (map mapToMessage
             (filter (inConversation conversationId) (messages db)))
        ms) /\
  (forall conv,
      getConversation this conversationId None db = (Ok (Some conv), db) ->
      Conversation.id conv = conversationId /\
      StronglySorted (fun a b => Message.timestamp a <= Message.timestamp b)
                     (Conversation.messages conv) /\
      Permutation
        (map mapToMessage
             (filter (inConversation conversationId) (messages db)))
        (Conversation.messages conv)).
Proof.
  split.
  - eexists. split; [reflexivity |]. split.
    + eapply StronglySorted_map;
        [| apply (sort_ascending MessageRow.created_at)].
      intros a b Hab. exact Hab.
    + apply Permutation_map, sort_perm.
  - intros conv. unfold getConversation, selectConversation.
    destruct (filter (conversationHasId conversationId) (conversations db))
      as [| row [| row' rest]] eqn:Hrows; simpl; try discriminate.
    intros Heq. inversion Heq; subst conv. simpl.
    assert (Hid : ConversationRow.id row = conversationId).
    { assert (Hin : In row (filter (conversationHasId conversationId)
                                   (conversations db)))
        by (rewrite Hrows; now left).
      apply filter_In in Hin. destruct Hin as [_ Hin].
      now apply String.eqb_eq in Hin. }
    rewrite Hid. split; [reflexivity |]. split.
    + apply (sort_ascending Message.timestamp).
    + apply sort_perm.
Qed.

Lemma remote_reads_order_messages_witness :
  exists conv,
    getConversation Sample.alice "c-1" None Sample.tenants
    = (Ok (Some conv), Sample.tenants) /\
    Conversation.id conv = "c-1" /\
    StronglySorted (fun a b => Message.timestamp a <= Message.timestamp b)
                   (Conversation.messages conv).
Proof.
  destruct (remote_reads_order_messages Sample.alice Sample.tenants "c-1")
    as [_ Hconversation].
  eexists. split; [reflexivity |].
  destruct (Hconversation _ eq_refl) as (Hid & Hsorted & _).
  split; [exact Hid | exact Hsorted].
Defined.

End RemoteInvariants.

(** ** Retry: what a run can return *)

Section RetryRuns.
Context {W T : Type}.
Variable sleep : Z -> W -> W.
Variable fn : @Operation W T.
Variable opts : Required.RetryOptions.

Lemma retryLoop_provenance remaining attempt lastError w :
  let run := retryLoop sleep fn opts remaining attempt lastError w in
  (forall value,
      fst (fst run) = Returned value ->
      exists w0, fn w0 = (Returned value, snd (fst run))) /\
  (forall e,
      fst (fst run) = Threw e ->
      (exists w0,
          fn w0 = (Threw e, snd (fst run)) /\
          Required.shouldRetry opts e = false) \/
      (exists original,
          e = exhaustionError opts original /\
          invocations (snd run) = remaining)).
Proof.
  revert attempt lastError w.
  induction remaining as [| remaining IH]; intros attempt lastError w.
  - cbn. split; [discriminate |]. intros e He. right. exists lastError.
    inversion He. auto.
  - cbn zeta. rewrite retryLoop_iteration.
    destruct (fn w) as [[value | error] w1] eqn:Hcall.
    + cbn. split.
      * intros v Hv. inversion Hv; subst. eauto.
      * discriminate.
    + destruct (Required.shouldRetry opts error) eqn:Hretry; cbn [negb].
      * destruct (attempt <? Required.maxRetries opts - 1).
        -- specialize (IH (attempt + 1) (Some (asError error))
                          (sleep (backoffDelay opts attempt) w1)).
           destruct (retryLoop sleep fn opts remaining (attempt + 1)
                               (Some (asError error))
                               (sleep (backoffDelay opts attempt) w1))
             as [[outcome w3] log].
           cbn [fst snd] in *. destruct IH as [IHr IHt]. split; [exact IHr |].
           intros e He. destruct (IHt e He) as [Hleft | (orig & Ho & Hn)];
             [now left |].
           right. exists orig. split; [exact Ho |].
           cbn [app]. rewrite invocations_cons_invoked,
             invocations_cons_slept. now rewrite Hn.
        -- specialize (IH (attempt + 1) (Some (asError error)) w1).
           destruct (retryLoop sleep fn opts remaining (attempt + 1)
                               (Some (asError error)) w1)
             as [[outcome w3] log].
           cbn [fst snd] in *. destruct IH as [IHr IHt]. split; [exact IHr |].
           intros e He. destruct (IHt e He) as [Hleft | (orig & Ho & Hn)];
             [now left |].
           right. exists orig. split; [exact Ho |].
           cbn [app]. rewrite invocations_cons_invoked. now rewrite Hn.
      * cbn. split; [discriminate |].
        intros e He. inversion He; subst. left. eauto.
Qed.

End RetryRuns.

(** X17.  [withRetry] invents nothing: a value it returns was returned by
    a call of the operation, and an error it throws is either an error
    that a call of the operation threw and [shouldRetry] rejected, or the
    exhaustion error, and that one only after the operation has been
    called [maxRetries] times (not at all for a budget of zero or less). *)
Theorem withRetry_outcome_provenance {W T : Type} (sleep : Z -> W -> W)
    (fn : @Operation W T) (options : RetryOptions) (w : W) :
  let opts := mergeOptions options in
  let run := withRetry sleep fn options w in
  (forall value,
      fst (fst run) = Returned value ->
      exists w0, fn w0 = (Returned value, snd (fst run))) /\
  (forall e,
      fst (fst run) = Threw e ->
      (exists w0,
          fn w0 = (Threw e, snd (fst run)) /\
          Required.shouldRetry opts e = false) \/
      (exists original,
          e = exhaustionError opts original /\
          Z.of_nat (invocations (snd run))
          = Z.max 0 (Required.maxRetries opts))).
Proof.
  intros opts run. subst run. unfold withRetry. fold opts.
  destruct (retryLoop_provenance sleep fn opts
              (Z.to_nat (Required.maxRetries opts)) 0 None w) as [Hr Ht].
  split; [exact Hr |].
  intros e He. destruct (Ht e He) as [Hleft | (orig & Ho & Hn)]; [now left |].
  right. exists orig. split; [exact Ho |]. rewrite Hn. lia.
Qed.

Lemma withRetry_outcome_provenance_witness :
  invocations (snd (withRetry Sample.timer Sample.unreachable Sample.capped
                              0%nat)) = 4%nat.
Proof.
  destruct (withRetry_outcome_provenance Sample.timer Sample.unreachable
                                         Sample.capped 0%nat) as [_ Hthrown].
  destruct (Hthrown _ eq_refl) as [(w0 & Hcall & _) | (original & _ & Hcount)].
  - unfold Sample.unreachable in Hcall. discriminate Hcall.
  - apply Nat2Z.inj. rewrite Hcount. reflexivity.
Defined.

(** X18.  With a budget [maxRetries] of zero or less [withRetry] does not
    call the operation and does not wait: it throws the exhaustion error at
    once, with no [originalError]. *)
Theorem withRetry_without_budget {W T : Type} (sleep : Z -> W -> W)
    (fn : @Operation W T) (options : RetryOptions) (w : W) :
  Required.maxRetries (mergeOptions options) <= 0 ->
  withRetry sleep fn options w
  = (Threw (exhaustionError (mergeOptions options) None), w, []).
Proof.
  intros Hbudget. unfold withRetry.
  replace (Z.to_nat (Required.maxRetries (mergeOptions options))) with O
    by lia.
  reflexivity.
Qed.

Lemma withRetry_without_budget_witness :
  let none := {| maxRetries := Some 0;
                 baseDelay := None;
                 maxDelay := None;
                 backoffMultiplier := None;
                 shouldRetry := None |} in
  withRetry Sample.timer Sample.healthy none 0%nat
  = (Threw (ErrorObject (LLMError "Failed after 0 retries" None)), 0%nat, []).
Proof.
  intros none.
  apply (withRetry_without_budget Sample.timer Sample.healthy none 0%nat).
  cbn. lia.
Defined.

Section Backoff.
Variable opts : Required.RetryOptions.

Lemma backoffDelay_capped (i : Z) :
  backoffDelay opts i <= Required.maxDelay opts.
Proof. unfold backoffDelay. lia. Qed.

Lemma backoffDelay_step (i : Z) :
  0 <= Required.baseDelay opts ->
  1 <= Required.backoffMultiplier opts ->
  0 <= i ->
  backoffDelay opts i <= backoffDelay opts (i + 1).
Proof.
  intros Hbase Hmult Hi. unfold backoffDelay.
  assert (Hpow : 0 < Required.backoffMultiplier opts ^ i)
    by (apply Z.pow_pos_nonneg; lia).
  replace (i + 1) with (Z.succ i) by lia.
  rewrite Z.pow_succ_r by lia.
  apply Z.min_le_compat_r. nia.
Qed.

Lemma backoffDelay_monotone (i : Z) (k : nat) :
  0 <= Required.baseDelay opts ->
  1 <= Required.backoffMultiplier opts ->
  0 <= i ->
  backoffDelay opts i <= backoffDelay opts (i + Z.of_nat k).
Proof.
  intros Hbase Hmult Hi. induction k as [| k IH].
  - rewrite Z.add_0_r. lia.
  - replace (i + Z.of_nat (S k)) with ((i + Z.of_nat k) + 1) by lia.
    etransitivity; [exact IH |]. apply backoffDelay_step; lia.
Qed.

Lemma backoff_sequence_sorted (first : nat) (k : nat) :
  0 <= Required.baseDelay opts ->
  1 <= Required.backoffMultiplier opts ->
  StronglySorted Z.le
    (map (fun i => backoffDelay opts (Z.of_nat i)) (seq first k)).
Proof.
  intros Hbase Hmult. revert first.
  induction k as [| k IH]; intros first; simpl; constructor; auto.
  apply Forall_forall. intros d Hd. apply in_map_iff in Hd.
  destruct Hd as (j & <- & Hj). apply in_seq in Hj.
  replace (Z.of_nat j) with (Z.of_nat first + Z.of_nat (j - first)) by lia.
  apply backoffDelay_monotone; lia.
Qed.

End Backoff.

Lemma withRetry_waits {W T : Type} (sleep : Z -> W -> W)
    (fn : @Operation W T) (options : RetryOptions) (w : W) :
  let log := snd (withRetry sleep fn options w) in
  waits log
  = map (fun i => backoffDelay (mergeOptions options) (Z.of_nat i))
        (seq 0 (invocations log - 1)).
Proof.
  intros log.
  assert (Hshape : log = attemptsWithBackoff (mergeOptions options) 0
                                             (invocations log)).
  { subst log. unfold withRetry.
    destruct (Z.le_gt_cases 0 (Required.maxRetries (mergeOptions options)))
      as [Hpos | Hneg].
    - apply retryLoop_log. lia.
    - replace (Z.to_nat (Required.maxRetries (mergeOptions options)))
        with O by lia.
      reflexivity. }
  rewrite Hshape at 1. rewrite waits_attemptsWithBackoff. reflexivity.
Qed.

(** X19.  No wait of a [withRetry] run is longer than [maxDelay]; with a
    [baseDelay] that is not negative and a [backoffMultiplier] of at least
    1 the waits of a run never get shorter from one to the next, and none
    is negative when [maxDelay] is not. *)
Theorem withRetry_waits_are_bounded {W T : Type} (sleep : Z -> W -> W)
    (fn : @Operation W T) (options : RetryOptions) (w : W) :
  let opts := mergeOptions options in
  let log := snd (withRetry sleep fn options w) in
  Forall (fun d => d <= Required.maxDelay opts) (waits log) /\
  (0 <= Required.baseDelay opts ->
   1 <= Required.backoffMultiplier opts ->
   StronglySorted Z.le (waits log) /\
   (0 <= Required.maxDelay opts -> Forall (fun d => 0 <= d) (waits log))).
Proof.
  intros opts log. subst log. rewrite withRetry_waits. fold opts. split.
  - apply Forall_forall. intros d Hd. apply in_map_iff in Hd.
    destruct Hd as (i & <- & _). apply backoffDelay_capped.
  - intros Hbase Hmult. split.
    + now apply backoff_sequence_sorted.
    + intros Hmax. apply Forall_forall. intros d Hd. apply in_map_iff in Hd.
      destruct Hd as (i & <- & _). unfold backoffDelay.
      assert (0 <= Required.backoffMultiplier opts ^ Z.of_nat i)
        by (apply Z.pow_nonneg; lia).
      apply Z.min_glb; [nia | lia].
Qed.

Lemma withRetry_waits_are_bounded_witness :
  StronglySorted Z.le
    (waits (snd (withRetry Sample.timer Sample.unreachable Sample.capped
                           0%nat))).
Proof.
  destruct (withRetry_waits_are_bounded Sample.timer Sample.unreachable
                                        Sample.capped 0%nat) as [_ Hsorted].
  apply Hsorted; cbn; lia.
Defined.

(** ** Which errors are retried *)

Lemma substring_skip (pre s : string) (m : nat) :
  substring (String.length pre) m (pre ++ s) = substring 0 m s.
Proof. induction pre as [| c pre IH]; simpl; auto. Qed.

Lemma substring_prefix (part rest : string) :
  substring 0 (String.length part) (part ++ rest) = part.
Proof.
  induction part as [| c part IH]; simpl.
  - now destruct rest.
  - now rewrite IH.
Qed.

(** A text includes each of its non-empty parts. *)
Lemma includes_part (pre part post : string) :
  part <> "" -> includes (pre ++ part ++ post) part = true.
Proof.
  intros Hpart. unfold includes.
  destruct (String.index 0 part (pre ++ part ++ post)) eqn:E; auto.
  exfalso.
  apply (index_correct3 0 (String.length pre) part (pre ++ part ++ post) E
                        Hpart (Nat.le_0_l _)).
  rewrite substring_skip. apply substring_prefix.
Qed.

Lemma toLowerCase_app (a b : string) :
  toLowerCase (a ++ b) = toLowerCase a ++ toLowerCase b.
Proof. induction a as [| c a IH]; simpl; auto. now rewrite IH. Qed.

(** X20.  [isRetryableError] retries an [Error] whose message is made of
    ASCII characters exactly when the message, in lower case, includes
    one of the thirteen texts it looks for, so such a message that holds
    one of them in any mix of cases, anywhere, is retried; a thrown value
    that is not an [Error] is never retried. *)
Theorem isRetryableError_looks_for_keywords :
  (forall e,
      isAscii (messageOf e) = true ->
      isRetryableError (ErrorObject e)
      = existsb (includes (toLowerCase (messageOf e))) retryableKeywords) /\
  (forall pre part post,
      isAscii (pre ++ part ++ post) = true ->
      In (toLowerCase part) retryableKeywords ->
      isRetryableError (ErrorObject (PlainError (pre ++ part ++ post)))
      = true) /\
  (forall v, isRetryableError (OtherValue v) = false).
Proof.
  assert (Hchain : forall e,
             isRetryableError (ErrorObject e)
             = existsb (includes (toLowerCase (messageOf e)))
                       retryableKeywords).
  { intros e. unfold isRetryableError, retryableKeywords.
    cbn [existsb].
    repeat match goal with
           | |- context [includes ?m ?k] =>
               destruct (includes m k); cbn [orb]; try reflexivity
           end. }
  split; [intros e _; apply Hchain |]. split; [| reflexivity].
  intros pre part post _ Hkeyword. rewrite Hchain.
  apply existsb_exists. exists (toLowerCase part). split; [exact Hkeyword |].
  cbn [messageOf]. rewrite !toLowerCase_app. apply includes_part.
  intros Hempty. rewrite Hempty in Hkeyword.
  unfold retryableKeywords in Hkeyword. simpl in Hkeyword.
  intuition discriminate.
Qed.

Lemma isRetryableError_looks_for_keywords_witness :
  isAscii ("Upstream said: " ++ "Rate Limit" ++ " hit") = true /\
  isRetryableError
    (ErrorObject (PlainError ("Upstream said: " ++ "Rate Limit" ++ " hit")))
  = true.
Proof.
  destruct isRetryableError_looks_for_keywords as (_ & Hpart & _).
  split; [reflexivity |].
  apply Hpart; [reflexivity | cbn; tauto].
Defined.

(** ** The circuit breaker between calls *)

Section BreakerRuns.
Import CircuitBreaker.

(** X21.  Between two calls a breaker is closed or open, never half-open;
    its count of failures is not negative, and is at least [threshold]
    when it is open; [threshold] and [timeout] are the ones given to the
    constructor (5 and 60000 by default). *)
Theorem breaker_state_between_calls
    (threshold0 timeout0 : option Z) (this : t) :
  reachable threshold0 timeout0 this ->
  state this <> half_open /\
  0 <= failures this /\
  (state this = open -> threshold this <= failures this) /\
  threshold this = orElse threshold0 5 /\
  timeout this = orElse timeout0 60000.
Proof.
  intros Hreach.
  destruct (reachable_invariant _ _ _ Hreach) as [Hhalf Hopen].
  split; [exact Hhalf |]. split; [| split; [exact Hopen |]].
  - clear Hhalf Hopen. induction Hreach as [| this c Hreach IH]; [simpl; lia |].
    destruct c as [succeeds now failedAt |]; simpl; [| lia].
    destruct (gate this now) as [this1 |] eqn:Hgate; [| exact IH].
    assert (Hsame : failures this1 = failures this).
    { unfold gate in Hgate. destruct (state this);
        [inversion Hgate; reflexivity | | inversion Hgate; reflexivity].
      destruct (now - lastFailureTime this >? timeout this);
        inversion Hgate; reflexivity. }
    destruct succeeds; simpl; lia.
  - clear Hhalf Hopen. induction Hreach as [| this c Hreach IH]; [auto |].
    destruct c as [succeeds now failedAt |]; simpl; [| exact IH].
    destruct (gate this now) as [this1 |] eqn:Hgate; [| exact IH].
    assert (Hsame : threshold this1 = threshold this
                    /\ timeout this1 = timeout this).
    { unfold gate in Hgate. destruct (state this);
        [inversion Hgate; auto | | inversion Hgate; auto].
      destruct (now - lastFailureTime this >? timeout this);
        inversion Hgate; auto. }
    destruct Hsame as [Hthreshold Htimeout].
    destruct succeeds; simpl; rewrite Hthreshold, Htimeout; exact IH.
Qed.

Lemma breaker_state_between_calls_witness :
  state Sample.tripped <> half_open /\ threshold Sample.tripped = 5.
Proof.
  destruct (breaker_state_between_calls (Some 5) (Some 60000) Sample.tripped
                                        tripped_is_reachable)
    as (Hhalf & _ & _ & Hthreshold & _).
  split; [exact Hhalf | exact Hthreshold].
Defined.

(** X22.  The calls that an open breaker rejects do not change it: however
    many arrive before the cooldown is over, the breaker is the one it
    was, so the cooldown is counted from the last failure of the wrapped
    operation and not from the last rejected call. *)
Theorem breaker_rejections_change_nothing (this : t) (calls : list Call) :
  state this = open ->
  forallb (early this) calls = true ->
  run this calls = this.
Proof.
  intros Hopen. induction calls as [| c calls IH]; [reflexivity |].
  simpl. intros Hearly. apply andb_true_iff in Hearly.
  destruct Hearly as [Hc Hrest].
  assert (Hstep : step this c = this).
  { destruct c as [succeeds now failedAt |]; [| discriminate].
    simpl in Hc. apply Z.leb_le in Hc.
    unfold step, gate. rewrite Hopen.
    replace (now - lastFailureTime this >? timeout this) with false
      by (symmetry; rewrite Z.gtb_ltb; apply Z.ltb_ge; lia).
    reflexivity. }
  change (run this (c :: calls)) with (run (step this c) calls).
  rewrite Hstep. now apply IH.
Qed.

Lemma breaker_rejections_change_nothing_witness :
  run Sample.tripped [Execute true 100 100; Execute false 60005 60005]
  = Sample.tripped.
Proof.
  apply breaker_rejections_change_nothing; reflexivity.
Defined.

(** X23.  Only failures in a row open a breaker: a closed breaker stays
    closed through any sequence of calls in which no run of failures,
    counted from the failures it has already seen, reaches [threshold]. *)
Theorem breaker_stays_closed_below_threshold (this : t) (calls : list Call) :
  state this = closed ->
  longestFailureRun (failures this) calls < threshold this ->
  state (run this calls) = closed.
Proof.
  revert this. induction calls as [| c calls IH]; intros this Hclosed Hrun;
    [exact Hclosed |].
  change (run this (c :: calls)) with (run (step this c) calls).
  destruct c as [[|] now failedAt |].
  - assert (Hstep : step this (Execute true now failedAt) = onSuccess this)
      by (unfold step, gate; now rewrite Hclosed).
    rewrite Hstep. apply IH; [reflexivity |].
    simpl in Hrun. simpl. lia.
  - assert (Hstep : step this (Execute false now failedAt)
                    = onFailure this failedAt)
      by (unfold step, gate; now rewrite Hclosed).
    rewrite Hstep. cbn [longestFailureRun] in Hrun.
    apply IH.
    + simpl. rewrite Hclosed.
      replace (failures this + 1 >=? threshold this) with false; auto.
      symmetry. rewrite Z.geb_leb. apply Z.leb_gt. lia.
    + simpl. lia.
  - change (step this Reset) with (reset this).
    apply IH; [reflexivity |]. simpl in Hrun. simpl. lia.
Qed.

Lemma breaker_stays_closed_below_threshold_witness :
  state (run (new (Some 3) None)
             [Execute false 1 1; Execute false 2 2; Execute true 3 3;
              Execute false 4 4; Execute false 5 5; Execute true 6 6])
  = closed.
Proof.
  apply breaker_stays_closed_below_threshold; [reflexivity | cbn; lia].
Defined.

End BreakerRuns.

Lemma local_updates_touch_one_conversation_witness :
  LocalStorageChatAdapter.getConversation "c-1"
    (snd (LocalStorageChatAdapter.saveMessage
            "c-2" Sample.question 2000 Sample.twoConversations))
  = LocalStorageChatAdapter.getConversation "c-1" Sample.twoConversations.
Proof.
  destruct (local_updates_touch_one_conversation Sample.twoConversations "c-2")
    as [Hsave _].
  destruct (Hsave Sample.question 2000) as [_ Hother].
  apply Hother. discriminate.
Defined.

(** ** Application errors *)

(** X24.  What the two handlers of [errors.ts] show of an error.  An error
    that is not an [AppError] is answered by [handleApiError] with the
    status 500 and a fixed body, and shown by [getUserFriendlyError] as
    one of the texts of [ERROR_MESSAGES], never as its own message.  An
    [AppError] is answered with its own status, message, code and details
    when the status, as an unsigned 16-bit integer, is one from 200 to 599
    that allows a body; otherwise [handleApiError] throws.  It is shown as
    a text of the table, as its own message, or, when its code is the name
    of a member of [Object.prototype], as that member.  Of the error
    classes only [LLMError] and [ToolExecutionError] have a code that is a
    key of [ERROR_MESSAGES]; the others are shown with their own message
    (the default one when none is given).  The exhaustion error of
    [withRetry] is answered with 500 and the code LLM_ERROR, and shown as
    the LLM_ERROR text. *)
Theorem application_errors_shown :
  (forall error,
      (forall e, error <> Errors.IsAppError e) ->
      (exists text,
          Errors.getUserFriendlyError error = Errors.Text text /\
          In text (values Errors.ERROR_MESSAGES)) /\
      Errors.handleApiError error
      = Errors.Answered
          {| Errors.status := 500;
             Errors.body_error := "An unexpected error occurred";
             Errors.body_code := Some "INTERNAL_ERROR";
             Errors.body_details := None |}) /\
  (forall e,
      (exists text,
          Errors.getUserFriendlyError (Errors.IsAppError e)
          = Errors.Text text /\
          In text (values Errors.ERROR_MESSAGES)) \/
      Errors.getUserFriendlyError (Errors.IsAppError e)
      = Errors.Text (Errors.message e) \/
      (exists key,
          Errors.code e = Some key /\
          inheritedMember key = true /\
          Errors.getUserFriendlyError (Errors.IsAppError e)
          = Errors.Member key)) /\
  (forall e,
      let converted := Errors.statusCode e mod 65536 in
      (converted < 200 \/ 599 < converted ->
       Errors.handleApiError (Errors.IsAppError e)
       = Errors.ThrowsRangeError) /\
      (converted = 204 \/ converted = 205 \/ converted = 304 ->
       Errors.handleApiError (Errors.IsAppError e)
       = Errors.ThrowsTypeError) /\
      (200 <= converted <= 599 ->
       converted <> 204 -> converted <> 205 -> converted <> 304 ->
       Errors.handleApiError (Errors.IsAppError e)
       = Errors.Answered
           {| Errors.status := converted;
              Errors.body_error := Errors.message e;
              Errors.body_code := Errors.code e;
              Errors.body_details := Errors.details e |})) /\
  (forall m d,
      Errors.getUserFriendlyError (Errors.IsAppError (Errors.LLMError m d))
      = Errors.Text
          "Unable to process your request right now. Please try again." /\
      Errors.getUserFriendlyError
        (Errors.IsAppError (Errors.ToolExecutionError m d))
      = Errors.Text "Unable to complete the action. Please try again." /\
      Errors.getUserFriendlyError
        (Errors.IsAppError (Errors.ValidationError m d)) = Errors.Text m) /\
  (forall m,
      Errors.getUserFriendlyError
        (Errors.IsAppError (Errors.AuthenticationError m))
      = Errors.Text (orElse m "Authentication required") /\
      Errors.getUserFriendlyError
        (Errors.IsAppError (Errors.AuthorizationError m))
      = Errors.Text (orElse m "Permission denied") /\
      Errors.getUserFriendlyError (Errors.IsAppError (Errors.NotFoundError m))
      = Errors.Text (orElse m "Resource not found") /\
      Errors.getUserFriendlyError (Errors.IsAppError (Errors.RateLimitError m))
      = Errors.Text (orElse m "Too many requests. Please try again later.") /\
      Errors.handleApiError (Errors.IsAppError (Errors.RateLimitError m))
      = Errors.Answered
          {| Errors.status := 429;
             Errors.body_error
             := orElse m "Too many requests. Please try again later.";
             Errors.body_code := Some "RATE_LIMIT_ERROR";
             Errors.body_details := None |} /\
      Errors.handleApiError (Errors.IsAppError (Errors.NotFoundError m))
      = Errors.Answered
          {| Errors.status := 404;
             Errors.body_error := orElse m "Resource not found";
             Errors.body_code := Some "NOT_FOUND_ERROR";
             Errors.body_details := None |}) /\
  (forall opts original,
      Errors.getUserFriendlyError (caught (exhaustionError opts original))
      = Errors.Text
          "Unable to process your request right now. Please try again." /\
      Errors.handleApiError (caught (exhaustionError opts original))
      = Errors.Answered
          {| Errors.status := 500;
             Errors.body_error :=
               "Failed after " ++ numberToString (Required.maxRetries opts)
               ++ " retries";
             Errors.body_code := Some "LLM_ERROR";
             Errors.body_details := Some (Errors.OriginalError original) |}).
Proof.
  assert (Hpattern : forall m,
             In (Errors.friendlyForMessage m) (values Errors.ERROR_MESSAGES)).
  { intros m. unfold Errors.friendlyForMessage.
    repeat match goal with
           | |- context [if ?c then _ else _] => destruct c
           end; cbn; tauto. }
  split; [| split; [| split; [| split; [| split]]]].
  - intros error Hplain. destruct error as [e | m |].
    + exfalso. now apply (Hplain e).
    + split; [| reflexivity]. eexists. split; [reflexivity | apply Hpattern].
    + split; [| reflexivity]. eexists. split; [reflexivity | cbn; tauto].
  - intros e. unfold Errors.getUserFriendlyError.
    destruct (Errors.code e) as [[| c key] |];
      [left; eexists; split; [reflexivity | apply Hpattern] | |
       left; eexists; split; [reflexivity | apply Hpattern]].
    destruct (get (String c key) Errors.ERROR_MESSAGES) as [text |] eqn:Hkey.
    + left. exists text. split; [reflexivity |].
      clear - Hkey. unfold Errors.ERROR_MESSAGES in *. cbn [get] in Hkey.
      repeat match type of Hkey with
             | (if ?c then _ else _) = _ =>
                 destruct c; [inversion Hkey; cbn; tauto |]
             end.
      discriminate.
    + right. destruct (inheritedMember (String c key)) eqn:Hmember.
      * right. exists (String c key). auto.
      * left. reflexivity.
  - intros e converted. unfold Errors.handleApiError, Errors.json.
    fold converted. split; [| split].
    + intros Hout.
      replace ((converted <? 200) || (599 <? converted))%bool with true;
        [reflexivity |].
      symmetry. apply orb_true_iff.
      destruct Hout; [left | right]; now apply Z.ltb_lt.
    + intros Hnull.
      replace ((converted <? 200) || (599 <? converted))%bool with false
        by (destruct Hnull as [-> | [-> | ->]]; reflexivity).
      replace ((converted =? 204) || (converted =? 205)
               || (converted =? 304))%bool with true
        by (destruct Hnull as [-> | [-> | ->]]; reflexivity).
      reflexivity.
    + intros [Hlow Hhigh] H204 H205 H304.
      replace ((converted <? 200) || (599 <? converted))%bool with false.
      2: { symmetry. apply orb_false_iff. split; apply Z.ltb_ge; lia. }
      replace ((converted =? 204) || (converted =? 205)
               || (converted =? 304))%bool with false.
      2: { symmetry. rewrite !orb_false_iff.
           repeat split; now apply Z.eqb_neq. }
      reflexivity.
  - intros m d. repeat split.
  - intros m. repeat split.
  - intros opts original. split; reflexivity.
Qed.

Lemma application_errors_shown_witness :
  (exists text,
      Errors.getUserFriendlyError
        (Errors.IsError "connect ECONNREFUSED 10.0.0.7:5432 (db-primary)")
      = Errors.Text text /\
      In text (values Errors.ERROR_MESSAGES)) /\
  Errors.handleApiError
    (Errors.IsAppError (Errors.newAppError "Gone" (Some 99) None None))
  = Errors.ThrowsRangeError /\
  Errors.getUserFriendlyError
    (Errors.IsAppError
       (Errors.newAppError "Gone" None (Some "constructor") None))
  = Errors.Member "constructor".
Proof.
  destruct application_errors_shown as (Hplain & Hshown & Hanswered & _).
  split; [| split].
  - apply Hplain. intros e. discriminate.
  - apply (Hanswered (Errors.newAppError "Gone" (Some 99) None None)).
    left. cbn. lia.
  - destruct (Hshown (Errors.newAppError "Gone" None (Some "constructor")
                                         None))
      as [(text & Htext & _) | [Hown | (key & Hcode & _ & Hmember)]];
      [discriminate Htext | discriminate Hown |].
    injection Hcode as <-. exact Hmember.
Defined.

(** ** The storage factory *)

(** X25.  [createChatStorage] returns the remote adapter, bound to the
    given user id, exactly when both variables are set to non-empty
    strings and the client loads; otherwise the local adapter, with two
    warnings when the variables were set and none when they were not.  A
    remote adapter obtained without a user id refuses every [clearAll]. *)
Theorem createChatStorage_selects_the_adapter
    (userId : option string) (env : Factory.Environment) :
  let configured :=
    (Factory.truthy (Factory.NEXT_PUBLIC_SUPABASE_URL env)
     && Factory.truthy (Factory.NEXT_PUBLIC_SUPABASE_ANON_KEY env))%bool in
  (fst (Factory.createChatStorage userId env)
   = Factory.Supabase {| SupabaseChatAdapter.userId := userId |} <->
   configured = true /\ Factory.clientLoads env = true) /\
  (fst (Factory.createChatStorage userId env) = Factory.Local <->
   configured = false \/ Factory.clientLoads env = false) /\
  (snd (Factory.createChatStorage userId env) <> [] <->
   configured = true /\ Factory.clientLoads env = false) /\
  (forall adapter,
      fst (Factory.createChatStorage None env) = Factory.Supabase adapter ->
      forall fault db,
        SupabaseChatAdapter.clearAll adapter fault db
        = (Throw MissingUserId, db)).
Proof.
  intros configured. unfold Factory.createChatStorage. fold configured.
  destruct configured; destruct (Factory.clientLoads env); cbn [fst snd];
    repeat split; intros;
    try (intuition discriminate);
    try match goal with
        | H : Factory.Supabase _ = Factory.Supabase _ |- _ =>
            inversion H; reflexivity
        end.
Qed.

Lemma createChatStorage_selects_the_adapter_witness :
  let env := {| Factory.NEXT_PUBLIC_SUPABASE_URL :=
                  Some "https://project.supabase.co";
                Factory.NEXT_PUBLIC_SUPABASE_ANON_KEY := Some "anon-key";
                Factory.clientLoads := true |} in
  fst (Factory.createChatStorage None env)
  = Factory.Supabase Sample.anonymous /\
  SupabaseChatAdapter.clearAll Sample.anonymous None Sample.tenants
  = (Throw MissingUserId, Sample.tenants).
Proof.
  intros env.
  destruct (createChatStorage_selects_the_adapter None env)
    as (Hremote & _ & _ & Hclear).
  split.
  - apply Hremote. split; reflexivity.
  - apply (Hclear Sample.anonymous). reflexivity.
Defined.

(** ** The local adapter: operations one after the other *)

Section LocalRoundTrips.
Import LocalStorageChatAdapter.

Lemma remove_set_fresh {V : Type} (k : string) (v : V) (o : Dict V) :
  get k o = None -> remove k (set k v o) = o.
Proof.
  induction o as [| [k0 v0] rest IH]; simpl.
  - now rewrite String.eqb_refl.
  - destruct (String.eqb k k0) eqn:E; [discriminate |].
    intros Hnone. simpl. rewrite E. now rewrite IH.
Qed.

Lemma storageData_eta (data : StorageData) :
  {| conversations := conversations data |} = data.
Proof. now destruct data. Qed.

(** The entry that [get] finds, and what [set] does to it. *)
Lemma get_split {V : Type} (k : string) (v : V) (o : Dict V) :
  get k o = Some v ->
  exists front back,
    o = (front ++ (k, v) :: back)%list /\
    get k front = None /\
    forall v', set k v' o = (front ++ (k, v') :: back)%list.
Proof.
  induction o as [| [k0 v0] rest IH]; simpl; [discriminate |].
  destruct (String.eqb k k0) eqn:E.
  - intros Hv. inversion Hv; subst. apply String.eqb_eq in E. subst k0.
    exists [], rest. auto.
  - intros Hv. destruct (IH Hv) as (front & back & Ho & Hfront & Hset).
    exists ((k0, v0) :: front), back. simpl. rewrite E.
    repeat split; [now rewrite Ho | exact Hfront |].
    intros v'. now rewrite Hset.
Qed.

Lemma get_middle {V : Type} (k other : string) (v : V) (front back : Dict V) :
  get other (front ++ (k, v) :: back)%list
  = match get other front with
    | Some found => Some found
    | None => if String.eqb other k then Some v else get other back
    end.
Proof.
  induction front as [| [k0 v0] rest IH]; simpl; auto.
  destruct (String.eqb other k0); auto.
Qed.

Lemma In_values_middle {V : Type} (k : string) (v : V) (front back : Dict V)
    (x : V) :
  In x (values front) -> In x (values (front ++ (k, v) :: back)%list).
Proof.
  intros H. unfold values in *. rewrite map_app. apply in_or_app. now left.
Qed.

(** X26.  Creating a conversation under a key that is not stored and
    deleting it again leaves the document that was stored before, in a
    browser whose store accepts the writes. *)
Theorem local_create_then_delete_restores
    (ctx : Context) (title : option string) (uuid : string) (now1 now2 : Z) :
  hasWindow ctx = true ->
  setItemThrows ctx = false ->
  (forall stored, getConversation uuid ctx <> Stored stored) ->
  exists conv ctx1 ctx2,
    createConversation title uuid now1 now2 ctx = (Ok conv, ctx1) /\
    getConversation uuid ctx1 = Stored conv /\
    deleteConversation uuid ctx1 = (Ok tt, ctx2) /\
    getAll ctx2 = getAll ctx.
Proof.
  intros Hwin Hquota Hfresh.
  apply local_getConversation_not_stored in Hfresh.
  unfold createConversation.
  match goal with
  | |- context [saveAll ?d ctx] =>
      destruct (local_getAll_after_saveAll ctx d Hwin Hquota)
        as (ctx1 & Hsave1 & Hread1 & Hwin1 & Hquota1)
  end.
  rewrite Hsave1. eexists. exists ctx1.
  assert (Hstored : get uuid (conversations (getAll ctx1)) <> None)
    by (rewrite Hread1; simpl; rewrite get_set_same; discriminate).
  unfold deleteConversation.
  destruct (get uuid (conversations (getAll ctx1))) as [stored |] eqn:Hget;
    [| contradiction].
  destruct (local_getAll_after_saveAll ctx1
              {| conversations := remove uuid (conversations (getAll ctx1)) |}
              Hwin1 Hquota1) as (ctx2 & Hsave2 & Hread2 & _).
  exists ctx2. split; [reflexivity |]. split.
  { apply local_getConversation_own.
    rewrite Hread1 in Hget. simpl in Hget. rewrite get_set_same in Hget.
    rewrite Hread1. simpl. apply get_set_same. }
  split; [exact Hsave2 |].
  rewrite Hread2, Hread1. simpl.
  rewrite remove_set_fresh by exact Hfresh. apply storageData_eta.
Qed.

Lemma local_create_then_delete_restores_witness :
  exists conv ctx1 ctx2,
    createConversation None "c-3" 5000 5000 Sample.afterScenario
    = (Ok conv, ctx1) /\
    deleteConversation "c-3" ctx1 = (Ok tt, ctx2) /\
    getAll ctx2 = getAll Sample.afterScenario.
Proof.
  assert (Hfresh : forall stored,
             getConversation "c-3" Sample.afterScenario <> Stored stored)
    by (intros stored; discriminate).
  destruct (local_create_then_delete_restores
              Sample.afterScenario None "c-3" 5000 5000
              eq_refl eq_refl Hfresh)
    as (conv & ctx1 & ctx2 & Hcreate & _ & Hdelete & Hsame).
  exists conv, ctx1, ctx2. auto.
Defined.

(** X27.  Saving a message whose id no stored message has and deleting
    it again gives back the messages of the conversation as they were, and
    leaves the other conversations alone; the counters of the
    conversation are not given back: they keep the values that
    [saveMessage] wrote. *)
Theorem local_save_then_delete_message
    (ctx : Context) (conversationId : string) (conv : Conversation.t)
    (m : Message.t) (now1 now2 : Z) :
  getConversation conversationId ctx = Stored conv ->
  setItemThrows ctx = false ->
  (forall c, In c (values (conversations (getAll ctx))) ->
             lacks (Message.id m) (Conversation.messages c)) ->
  exists ctx1 ctx2 conv2,
    saveMessage conversationId m now1 ctx = (Ok tt, ctx1) /\
    deleteMessage (Message.id m) now2 ctx1 = (Ok tt, ctx2) /\
    getConversation conversationId ctx2 = Stored conv2 /\
    Conversation.messages conv2 = Conversation.messages conv /\
    Conversation.metadata conv2
    = Conversation.metadata (pushMessage conv m now1) /\
    (forall other,
        other <> conversationId ->
        getConversation other ctx2 = getConversation other ctx).
Proof.
  intros Hsome Hquota Hfresh.
  pose proof (local_conversation_needs_window _ _ _ Hsome) as Hwin.
  apply local_getConversation_stored in Hsome.
  destruct (get_split _ _ _ Hsome) as (front & back & Hdoc & Hfront & Hset).
  unfold saveMessage. rewrite Hsome, Hset.
  destruct (local_getAll_after_saveAll ctx
              {| conversations :=
                   (front ++ (conversationId, pushMessage conv m now1)
                    :: back)%list |}
              Hwin Hquota) as (ctx1 & Hsave1 & Hread1 & Hwin1 & Hquota1).
  exists ctx1.
  unfold deleteMessage. rewrite Hread1. cbn [conversations].
  rewrite (deleteFirst_found (Message.id m) now2 front conversationId
             (pushMessage conv m now1) back (Conversation.messages conv) m []).
  - destruct (local_getAll_after_saveAll ctx1
                {| conversations :=
                     (front
                      ++ (conversationId,
                          withMessages (pushMessage conv m now1)
                                       (Conversation.messages conv ++ [])
                                       now2)
                      :: back)%list |}
                Hwin1 Hquota1) as (ctx2 & Hsave2 & Hread2 & _).
    exists ctx2. eexists. split; [exact Hsave1 |]. split; [exact Hsave2 |].
    unfold getConversation. rewrite Hread2. cbn [conversations].
    split; [| split; [| split]].
    + rewrite get_middle, Hfront, String.eqb_refl. reflexivity.
    + simpl. apply app_nil_r.
    + reflexivity.
    + intros other Hother. rewrite Hdoc, !get_middle.
      destruct (get other front); auto.
      now destruct (String.eqb other conversationId) eqn:E;
        [apply String.eqb_eq in E |].
  - intros c Hc. apply Hfresh. rewrite Hdoc. now apply In_values_middle.
  - reflexivity.
  - apply Hfresh. rewrite Hdoc. unfold values. rewrite map_app.
    apply in_or_app. right. now left.
  - reflexivity.
Qed.

Lemma local_save_then_delete_message_witness :
  exists ctx1 ctx2 conv2,
    saveMessage "c-1" Sample.followUp 4000 Sample.afterScenario = (Ok tt, ctx1) /\
    deleteMessage "m-3" 5000 ctx1 = (Ok tt, ctx2) /\
    getConversation "c-1" ctx2 = Stored conv2 /\
    Conversation.messages conv2 = [Sample.question; Sample.answer] /\
    countersAgree conv2 = false.
Proof.
  destruct (local_save_then_delete_message
              Sample.afterScenario "c-1" _ Sample.followUp 4000 5000
              eq_refl eq_refl)
    as (ctx1 & ctx2 & conv2 & Hsave & Hdelete & Hget & Hmessages & Hmeta & _).
  - intros c [<- | []] x [<- | [<- | []]]; discriminate.
  - exists ctx1, ctx2, conv2. repeat (split; [assumption |]).
    unfold countersAgree. rewrite Hmeta, Hmessages. reflexivity.
Defined.

End LocalRoundTrips.
